(** * idrock-security: the risk-assessment mediation layer

    A shallow embedding of the NexShop side of IDROCK:
    - the Node.js assessment client [IDRockNodeSDK] (services/idrockClient),
    - the Express mediation middleware [SecurityMiddleware]
      (middleware/security),
    - the audit model [SecurityLog] (models/SecurityLog.js),
    - the browser fingerprint collector (public/js/idrock-sdk.js),
    together with the properties the specification states about them.

    JavaScript values are embedded as a small JSON-like datatype; stateful
    code threads an explicit [World] (wire trace, client counters, audit
    log); a JavaScript [throw] is the [Throw] constructor of [Result]. *)

From Stdlib Require Import ZArith List String Ascii Bool Lia DecimalString.
From Equations Require Import Equations.
Import ListNotations.
Set Warnings "-register-all".
Local Open Scope string_scope.
Local Open Scope Z_scope.

(* ===================================================================== *)
(** ** JavaScript values *)
(* ===================================================================== *)

Module Js.

(** The fragment of JavaScript values the modelled code manipulates.
    Numbers are the integers: the only arithmetic the modelled code does is
    on retry counters, delays and the 32-bit hash; other numbers (scores,
    amounts) are only passed along. *)
Inductive value : Type :=
| VUndef
| VNull
| VBool (b : bool)
| VNum (n : Z)
| VStr (s : string)
| VArr (items : list value)
| VObj (fields : list (string * value)).

(** ToBoolean. *)
Definition truthy (v : value) : bool :=
  match v with
  | VUndef | VNull => false
  | VBool b => b
  | VNum n => negb (n =? 0)
  | VStr s => negb (s =? "")%string
  | VArr _ | VObj _ => true
  end.

(** [!v] *)
Definition falsy (v : value) : bool := negb (truthy v).

(** [a || b] *)
Definition either (a b : value) : value := if truthy a then a else b.

(** Own data property of an object literal; an absent key reads as
    [undefined]. *)
Fixpoint lookup (k : string) (fields : list (string * value)) : value :=
  match fields with
  | [] => VUndef
  | (k', v) :: rest => if (k =? k')%string then v else lookup k rest
  end.

(** [obj.k = v] on the field list of an object. *)
Fixpoint assign (k : string) (v : value) (fields : list (string * value))
  : list (string * value) :=
  match fields with
  | [] => [(k, v)]
  | (k', v') :: rest =>
      if (k =? k')%string then (k, v) :: rest else (k', v') :: assign k v rest
  end.

(** [v?.k]: [undefined] on a nullish base.  Primitives and arrays carry no
    own data property of the names read by the modelled code. *)
Definition optchain (v : value) (k : string) : value :=
  match v with
  | VObj fields => lookup k fields
  | _ => VUndef
  end.

(** Strict equality on the primitives the code compares ([switch],
    [Array.prototype.includes], [===]). Objects and arrays compare by
    identity, which two distinct literals never share. *)
Definition strict_eq (a b : value) : bool :=
  match a, b with
  | VUndef, VUndef | VNull, VNull => true
  | VBool x, VBool y => Bool.eqb x y
  | VNum x, VNum y => x =? y
  | VStr x, VStr y => (x =? y)%string
  | _, _ => false
  end.

(** Object spread [{ ...base, ...v }]: the own properties of an object
    are copied over; a nullish or primitive operand contributes none. *)
Definition spread (base : list (string * value)) (v : value)
  : list (string * value) :=
  match v with
  | VObj fields => fold_left (fun acc kv => assign (fst kv) (snd kv) acc) fields base
  | _ => base
  end.

(** [list.includes(v)] *)
Definition includes (l : list value) (v : value) : bool :=
  existsb (fun x => strict_eq x v) l.

(** [arr.join(sep)] on strings. *)
Fixpoint join (sep : string) (l : list string) : string :=
  match l with
  | [] => ""
  | [x] => x
  | x :: rest => x ++ sep ++ join sep rest
  end.

(** Number.prototype.toString() on an integer. *)
Definition num_to_string (n : Z) : string :=
  NilZero.string_of_int (Z.to_int n).

(** The string ToString yields, for template literals and
    [RegExp.prototype.test]; [printable] below tells whether it yields
    one. *)
Fixpoint to_string (v : value) : string :=
  match v with
  | VUndef => "undefined"
  | VNull => "null"
  | VBool true => "true"
  | VBool false => "false"
  | VNum n => num_to_string n
  | VStr s => s
  | VArr items =>
      join "," (map (fun x => match x with
                              | VUndef | VNull => ""
                              | _ => to_string x
                              end) items)
  | VObj _ => "[object Object]"
  end.

(** Whether ToString finds a string for the value.  An object parsed
    from JSON or written as a literal holds no function, so an own
    [toString] property hides [Object.prototype.toString] behind a value
    that cannot be called, [valueOf] returns the object itself, and the
    conversion ends in a [TypeError].  An array prints its elements. *)
Fixpoint printable (v : value) : bool :=
  match v with
  | VObj fields => negb (existsb (fun kv => (fst kv =? "toString")%string) fields)
  | VArr items => forallb printable items
  | _ => true
  end.

(** [items.join(sep)]: [undefined] and [null] elements print as the empty
    string. *)
Definition join_values (sep : string) (items : list value) : string :=
  join sep (map (fun x => match x with
                          | VUndef | VNull => ""
                          | _ => to_string x
                          end) items).

End Js.

Import Js.

(* ===================================================================== *)
(** ** Regular expressions (the fragment used by the IP format check) *)
(* ===================================================================== *)

Module Regex.

Inductive re : Type :=
| Void                         (* matches nothing *)
| Eps                          (* matches the empty string *)
| Class (p : ascii -> bool)    (* one character of a class *)
| Seq (a b : re)
| Alt (a b : re).

Fixpoint nullable (r : re) : bool :=
  match r with
  | Void => false
  | Eps => true
  | Class _ => false
  | Seq a b => nullable a && nullable b
  | Alt a b => nullable a || nullable b
  end.

Definition seq (a b : re) : re :=
  match a, b with
  | Void, _ => Void
  | _, Void => Void
  | Eps, _ => b
  | _, _ => Seq a b
  end.

Definition alt (a b : re) : re :=
  match a, b with
  | Void, _ => b
  | _, Void => a
  | _, _ => Alt a b
  end.

(** Brzozowski derivative. *)
Fixpoint deriv (c : ascii) (r : re) : re :=
  match r with
  | Void | Eps => Void
  | Class p => if p c then Eps else Void
  | Seq a b =>
      if nullable a then alt (seq (deriv c a) b) (deriv c b)
      else seq (deriv c a) b
  | Alt a b => alt (deriv c a) (deriv c b)
  end.

(** Whole-string match: the pattern is anchored by [^] and [$] and has no
    [m] flag, so it must consume the entire input. *)
Fixpoint matches (r : re) (s : string) : bool :=
  match s with
  | EmptyString => nullable r
  | String c s' => matches (deriv c r) s'
  end.

(** [r{n}] *)
Fixpoint times (n : nat) (r : re) : re :=
  match n with
  | O => Eps
  | S n' => Seq r (times n' r)
  end.

(** [r{0,n}] *)
Fixpoint upto (n : nat) (r : re) : re :=
  match n with
  | O => Eps
  | S n' => Alt Eps (Seq r (upto n' r))
  end.

(** [r{lo,hi}] *)
Definition between (lo hi : nat) (r : re) : re :=
  Seq (times lo r) (upto (hi - lo) r).

Definition in_range (lo hi : string) (c : ascii) : bool :=
  match lo, hi with
  | String l _, String h _ =>
      (N.leb (N_of_ascii l) (N_of_ascii c)
       && N.leb (N_of_ascii c) (N_of_ascii h))%bool
  | _, _ => false
  end.

Definition lit (x : string) (c : ascii) : bool :=
  match x with
  | String a _ => Ascii.eqb a c
  | _ => false
  end.

Definition is_digit (c : ascii) : bool := in_range "0" "9" c.

Definition is_hex (c : ascii) : bool :=
  (in_range "0" "9" c || in_range "a" "f" c || in_range "A" "F" c)%bool.

(** [[0-9]] *)
Definition digit : re := Class is_digit.

(** [[0-9a-fA-F]] *)
Definition hexdigit : re := Class is_hex.

(** The strings a pattern denotes. *)
Inductive lang : re -> string -> Prop :=
| lang_eps : lang Eps EmptyString
| lang_class (p : ascii -> bool) (c : ascii) :
    p c = true -> lang (Class p) (String c EmptyString)
| lang_seq (a b : re) (s t : string) :
    lang a s -> lang b t -> lang (Seq a b) (s ++ t)
| lang_alt_l (a b : re) (s : string) : lang a s -> lang (Alt a b) s
| lang_alt_r (a b : re) (s : string) : lang b s -> lang (Alt a b) s.

End Regex.

(* ===================================================================== *)
(** ** Text helpers *)
(* ===================================================================== *)

Module Text.

(** The fields of [s] between occurrences of [sep]. *)
Fixpoint split (sep : ascii) (s : string) : list string :=
  match s with
  | EmptyString => [EmptyString]
  | String c rest =>
      if Ascii.eqb c sep then EmptyString :: split sep rest
      else match split sep rest with
           | [] => [String c EmptyString]
           | field :: fields => String c field :: fields
           end
  end.

Fixpoint all_chars (p : ascii -> bool) (s : string) : bool :=
  match s with
  | EmptyString => true
  | String c rest => p c && all_chars p rest
  end.

(** The inverse of [split]: the fields with [sep] between them. *)
Fixpoint unsplit (sep : ascii) (fields : list string) : string :=
  match fields with
  | [] => EmptyString
  | [field] => field
  | field :: rest => field ++ String sep (unsplit sep rest)
  end.

(** No character of [g] is the separator. *)
Definition no_sep (sep : ascii) (g : string) : bool :=
  all_chars (fun c => negb (Ascii.eqb c sep)) g.

(** A group of at least one and at most [hi] characters of a class. *)
Definition short_group (p : ascii -> bool) (hi : nat) (g : string) : bool :=
  (Nat.leb 1 (String.length g) && Nat.leb (String.length g) hi
   && all_chars p g)%bool.

End Text.

(* ===================================================================== *)
(** ** Exceptions and results *)
(* ===================================================================== *)

(** An HTTP response as axios hands it over. *)
Record HttpResponse : Type := mkResponse {
  status : Z;
  statusText : string;
  data : Js.value
}.

(** The errors that travel through the modelled code.

    - [IDRockAPIError] is the client's own class (message, originalError,
      statusCode); validation failures are raised as
      [IDRockAPIError msg None None].
    - [AxiosError] is axios's rejection: [response] is present when the
      server answered with a status outside 2xx, absent on a network error
      or timeout; its [request] property, set in both cases, is left
      implicit.
    - [StoreError] is a rejection by the audit store ([SecurityLog.create]). *)
Inductive Exn : Type :=
| TypeError (message : string)
| ReferenceError (ident : string)
| AxiosError (response : option HttpResponse) (message : string)
| StoreError (message : string)
| IDRockAPIError (message : string) (originalError : option Exn)
                 (statusCode : option Z).

Inductive Result (A : Type) : Type :=
| Return (a : A)
| Throw (e : Exn).
Arguments Return {A} a.
Arguments Throw {A} e.

(** Property read [v.k]: a [TypeError] on [undefined] and [null]. *)
Definition getprop (v : Js.value) (k : string) : Result Js.value :=
  match v with
  | VUndef => Throw (TypeError ("Cannot read properties of undefined (reading '" ++ k ++ "')"))
  | VNull => Throw (TypeError ("Cannot read properties of null (reading '" ++ k ++ "')"))
  | _ => Return (Js.optchain v k)
  end.

(** ToString as the program runs it: a [TypeError] where the conversion
    finds no primitive. *)
Definition ToString (v : Js.value) : Result string :=
  if Js.printable v then Return (Js.to_string v)
  else Throw (TypeError "Cannot convert object to primitive value").

Definition error_message (e : Exn) : string :=
  match e with
  | TypeError m => m
  | ReferenceError x => x ++ " is not defined"
  | AxiosError _ m => m
  | StoreError m => m
  | IDRockAPIError m _ _ => m
  end.

(* ===================================================================== *)
(** ** Configuration (config/idrock) *)
(* ===================================================================== *)

Module Config.

Record Fallback : Type := mkFallback {
  enabled : bool;
  defaultRiskLevel : string;
  allowProceed : bool;
  logFailures : bool
}.

(** The entries of the configuration object that the modelled code reads. *)
Record Idrock : Type := mkIdrock {
  api_retryAttempts : Z;
  api_retryDelay : Z;
  risk_fallback : Fallback;
  integration_enabled : bool;
  endpoints_verify : string;
  endpoints_history : string;
  endpoints_health : string
}.

(** The exported object; [integration.enabled] is
    [process.env.IDROCK_ENABLED !== 'false']. *)
Definition idrockConfig (IDROCK_ENABLED : bool) : Idrock := {|
  api_retryAttempts := 3;
  api_retryDelay := 1000;
  risk_fallback := {| enabled := true;
                      defaultRiskLevel := "REVIEW";
                      allowProceed := true;
                      logFailures := true |};
  integration_enabled := IDROCK_ENABLED;
  endpoints_verify := "/api/v1/identity/verify";
  endpoints_history := "/api/v1/identity/history";
  endpoints_health := "/health"
|}.

End Config.

(* ===================================================================== *)
(** ** The world the code acts on *)
(* ===================================================================== *)

(** What leaves the process towards the scoring service, and the waits
    between transmissions. *)
Inductive WireEvent : Type :=
| Transmit (method url : string)
| Backoff (ms : Z).

(** [this.stats]; the two time-derived entries (average response time,
    last request time) depend on the wall clock and are read by none of
    the modelled code. *)
Record Stats : Type := mkStats {
  totalRequests : Z;
  successfulRequests : Z;
  failedRequests : Z
}.

Record World : Type := mkWorld {
  wire : list WireEvent;      (* chronological *)
  stats : Stats;              (* the client's counters *)
  audit : list Js.value       (* rows of security_logs, oldest first *)
}.

Definition is_transmit (e : WireEvent) : bool :=
  match e with Transmit _ _ => true | Backoff _ => false end.

(** Number of HTTP requests issued so far. *)
Definition attempts (w : World) : nat :=
  List.length (filter is_transmit (wire w)).

(** The backoff waits so far, in order. *)
Definition backoffs (w : World) : list Z :=
  flat_map (fun e => match e with Backoff d => [d] | _ => [] end) (wire w).

Definition emit (e : WireEvent) (w : World) : World :=
  {| wire := wire w ++ [e]; stats := stats w; audit := audit w |}.

Definition with_stats (f : Stats -> Stats) (w : World) : World :=
  {| wire := wire w; stats := f (stats w); audit := audit w |}.

(** [this.stats.totalRequests++; this.stats.successfulRequests++] *)
Definition count_success (s : Stats) : Stats :=
  {| totalRequests := totalRequests s + 1;
     successfulRequests := successfulRequests s + 1;
     failedRequests := failedRequests s |}.

(** [this.stats.totalRequests++; this.stats.failedRequests++] *)
Definition count_failure (s : Stats) : Stats :=
  {| totalRequests := totalRequests s + 1;
     successfulRequests := successfulRequests s;
     failedRequests := failedRequests s + 1 |}.

Definition fresh_stats : Stats :=
  {| totalRequests := 0; successfulRequests := 0; failedRequests := 0 |}.

Definition fresh_world : World :=
  {| wire := []; stats := fresh_stats; audit := [] |}.

(** What the scoring service does with one transmission: an HTTP answer
    that names no location ([Reply]), none at all (connection failure,
    timeout), or an HTTP answer whose [Location] header names where to go
    next ([Located]: the header is there and is not empty). *)
Inductive HttpReply : Type :=
| Reply (status : Z) (statusText : string) (data : Js.value)
| NoReply
| Located (status : Z) (statusText : string) (data : Js.value)
          (location : string).

(** The limit on redirects of the HTTP adapter.  [axios.create] is given
    no [maxRedirects], so the adapter's own default is in force. *)
Definition maxRedirects : nat := 21.

(** The method of the request that follows a redirect: a POST answered
    301 or 302, and anything but a GET or HEAD answered 303, goes on as a
    GET; otherwise the method is kept. *)
Definition redirect_method (st : Z) (method : string) : string :=
  if ((st =? 301) || (st =? 302)) && (method =? "post")%string then "get"
  else if (st =? 303)
          && negb ((method =? "get")%string || (method =? "head")%string)
       then "get"
  else method.

Definition inspect {A : Type} (a : A) : {b : A | a = b} := exist _ a eq_refl.

(* ===================================================================== *)
(** ** The assessment client (services/idrockClient) *)
(* ===================================================================== *)

(** [this.config] of the SDK. *)
Record SdkConfig : Type := mkSdkConfig {
  retryAttempts : Z;
  retryDelay : Z;
  enableLogging : bool
}.

(** Constructor argument; [None] is an absent key. *)
Record SdkOptions : Type := mkSdkOptions {
  opt_retryAttempts : option Z;
  opt_retryDelay : option Z;
  opt_enableLogging : option bool
}.

(** [config.x || fallback] on an optional number. *)
Definition num_or (o : option Z) (dflt : Z) : Z :=
  match o with
  | Some n => if n =? 0 then dflt else n
  | None => dflt
  end.

(** The constructor of [IDRockNodeSDK], restricted to the settings the
    modelled methods read. *)
Definition IDRockNodeSDK (idrock : Config.Idrock) (config : SdkOptions)
  : SdkConfig := {|
  retryAttempts := num_or (opt_retryAttempts config) (Config.api_retryAttempts idrock);
  retryDelay := num_or (opt_retryDelay config) (Config.api_retryDelay idrock);
  enableLogging := match opt_enableLogging config with
                   | Some false => false
                   | _ => true
                   end
|}.

Definition no_options : SdkOptions :=
  {| opt_retryAttempts := None; opt_retryDelay := None;
     opt_enableLogging := None |}.

(** The axios request config, with the private counter the response
    interceptor stores on it; [None] is [undefined]. *)
Record RequestConfig : Type := mkRequestConfig {
  method : string;
  url : string;
  _retryCount : option Z
}.

(** [!config._retryCount] *)
Definition count_falsy (c : option Z) : bool :=
  match c with
  | None => true
  | Some n => n =? 0
  end.

(** [config._retryCount < n]: [undefined] converts to NaN, and every
    comparison with NaN is false. *)
Definition count_lt (c : option Z) (n : Z) : bool :=
  match c with
  | None => false
  | Some k => k <? n
  end.

(** [(config._retryCount || 0) + 1] *)
Definition count_next (c : option Z) : Z :=
  match c with
  | None => 0 + 1
  | Some k => (if k =? 0 then 0 else k) + 1
  end.

(** [!error.response || error.response.status >= 500] *)
Definition retryable (error : Exn) : bool :=
  match error with
  | AxiosError None _ => true
  | AxiosError (Some r) _ => 500 <=? status r
  | _ => true
  end.

(** How many further retries the interceptor can still grant a config. *)
Definition retry_room (config : RequestConfig) : nat :=
  if count_falsy (_retryCount config) then 1%nat else 0%nat.


(** *** Input validation *)

Definition required : list string :=
  ["userId"; "ipAddress"; "userAgent"; "actionType"].

Definition validActions : list Js.value :=
  [VStr "login"; VStr "checkout"; VStr "sensitive_action"].

(** [/^(?:[0-9]{1,3}\.){3}[0-9]{1,3}$|^(?:[0-9a-fA-F]{1,4}:){7}[0-9a-fA-F]{1,4}$/] *)
Definition ipRegex : Regex.re :=
  Regex.Alt
    (Regex.Seq
       (Regex.times 3 (Regex.Seq (Regex.between 1 3 Regex.digit)
                                 (Regex.Class (Regex.lit "."))))
       (Regex.between 1 3 Regex.digit))
    (Regex.Seq
       (Regex.times 7 (Regex.Seq (Regex.between 1 4 Regex.hexdigit)
                                 (Regex.Class (Regex.lit ":"))))
       (Regex.between 1 4 Regex.hexdigit)).

(** [ipRegex.test(v)] *)
Definition ipRegex_test (v : Js.value) : bool :=
  Regex.matches ipRegex (Js.to_string v).

(** The [for (const field of required)] loop: the first field whose value
    is falsy, if any. *)
Fixpoint first_missing (fields : list string)
         (userData : list (string * Js.value)) : option string :=
  match fields with
  | [] => None
  | field :: rest =>
      if Js.falsy (Js.lookup field userData) then Some field
      else first_missing rest userData
  end.

Definition _validateUserData (userData : list (string * Js.value))
  : Result unit :=
  match first_missing required userData with
  | Some field =>
      Throw (IDRockAPIError ("Missing required field: " ++ field) None None)
  | None =>
      let actionType := Js.lookup "actionType" userData in
      let ipAddress := Js.lookup "ipAddress" userData in
      if negb (Js.includes validActions actionType) then
        Throw (IDRockAPIError
                 ("Invalid action type: " ++ Js.to_string actionType
                  ++ ". Must be one of: "
                  ++ Js.join ", " (map Js.to_string validActions))
                 None None)
      else if negb (ipRegex_test ipAddress) then
        Throw (IDRockAPIError
                 ("Invalid IP address format: " ++ Js.to_string ipAddress)
                 None None)
      else Return tt
  end.

(** *** Error wrapping *)

(** [_handleError(error, operation)]: the wrapped error it returns, or
    the [TypeError] its template literal throws on a [detail] that does
    not convert to a string. *)
Definition _handleError (error : Exn) (operation : string) : Result Exn :=
  match error with
  | IDRockAPIError _ _ _ => Return error
  | AxiosError (Some r) _ =>
      let errorData := data r in
      let detail := Js.optchain errorData "detail" in
      if Js.truthy errorData && Js.truthy detail then
        match ToString (Js.either (Js.optchain detail "message") detail) with
        | Throw failure => Throw failure
        | Return text =>
            Return (IDRockAPIError ("Failed to " ++ operation ++ ": " ++ text)
                                   (Some error) (Some (status r)))
        end
      else
        Return (IDRockAPIError
                  ("Failed to " ++ operation ++ ": HTTP "
                   ++ Js.num_to_string (status r) ++ " " ++ statusText r)
                  (Some error) (Some (status r)))
  | AxiosError None _ =>
      Return (IDRockAPIError
                ("Failed to " ++ operation ++ ": Network error or timeout")
                (Some error) None)
  | _ =>
      Return (IDRockAPIError
                ("Failed to " ++ operation ++ ": " ++ error_message error)
                (Some error) None)
  end.

(** The values a run draws from outside the program: two UUIDs (each
    [uuidv4()] call), the wall clock as an ISO string, and the elapsed
    times [Date.now() - startTime] measured in a handler's [try] and
    [catch] blocks. *)
Record Ambient : Type := mkAmbient {
  uuid_first : string;
  uuid_second : string;
  now_iso : string;
  elapsed_try : Z;
  elapsed_catch : Z
}.

Section Client.

Variable server : nat -> HttpReply.
Variable idrock : Config.Idrock.
Variable sdk : SdkConfig.

(** What axios makes of the final answer: it resolves on a 2xx status
    (its default [validateStatus]) and rejects otherwise. *)
Definition settle (r : HttpResponse) : Result HttpResponse :=
  if (200 <=? status r) && (status r <? 300) then Return r
  else Throw (AxiosError (Some r)
                ("Request failed with status code " ++ Js.num_to_string (status r))).

(** The adapter sends the request and follows redirects: a 3xx answer
    with a [Location] header is answered by a new request to that
    location, until [budget] redirects have been followed. *)
Fixpoint follow (budget : nat) (method url : string) (w : World)
  : World * Result HttpResponse :=
  let w' := emit (Transmit method url) w in
  match server (attempts w) with
  | Reply st txt d => (w', settle (mkResponse st txt d))
  | NoReply => (w', Throw (AxiosError None "Network Error"))
  | Located st txt d location =>
      if (300 <=? st) && (st <? 400) then
        match budget with
        | O => (w', Throw (AxiosError None "Maximum number of redirects exceeded"))
        | S budget' => follow budget' (redirect_method st method) location w'
        end
      else (w', settle (mkResponse st txt d))
  end.

(** One request through the adapter. *)
Definition transmit (config : RequestConfig) (w : World)
  : World * Result HttpResponse :=
  follow maxRedirects (method config) (url config) w.

(** The condition computed by the response interceptor. *)
Definition shouldRetry (config : RequestConfig) (error : Exn) : bool :=
  count_falsy (_retryCount config)
  && count_lt (_retryCount config) (retryAttempts sdk)
  && retryable error.

(** [config._retryCount = (config._retryCount || 0) + 1] *)
Definition bump (config : RequestConfig) : RequestConfig :=
  {| method := method config; url := url config;
     _retryCount := Some (count_next (_retryCount config)) |}.

(** [this.config.retryDelay * Math.pow(2, config._retryCount - 1)], read
    after the counter was bumped. *)
Definition backoff_delay (config : RequestConfig) : Z :=
  match _retryCount config with
  | Some k => retryDelay sdk * 2 ^ (k - 1)
  | None => 0
  end.

(** [this.httpClient(config)]: the request, then the response
    interceptors of [_setupInterceptors].  The fulfilment handler is the
    identity; the rejection handler either re-issues the request after the
    backoff wait or rejects with the same error. *)
Equations? httpClient (config : RequestConfig) (w : World)
  : World * Result HttpResponse by wf (retry_room config) lt :=
httpClient config w with transmit config w => {
  | (w1, Return response) => (w1, Return response);
  | (w1, Throw error) with inspect (shouldRetry config error) => {
      | exist _ true _ =>
          httpClient (bump config)
                     (emit (Backoff (backoff_delay (bump config))) w1);
      | exist _ false _ => (w1, Throw error) } }.
Proof.
  unfold shouldRetry in e.
  apply andb_prop in e; destruct e as [e _].
  apply andb_prop in e; destruct e as [Hf Hl].
  unfold retry_room; simpl.
  destruct (_retryCount config) as [k|]; simpl in *; [|discriminate].
  apply Z.eqb_eq in Hf; subst k; simpl. lia.
Qed.

(** [this.httpClient.post(url, payload)] and [this.httpClient.get(url)]:
    a fresh request config, on which nothing has set [_retryCount]. *)
Definition post (u : string) (w : World) : World * Result HttpResponse :=
  httpClient {| method := "post"; url := u; _retryCount := None |} w.

Definition get (u : string) (w : World) : World * Result HttpResponse :=
  httpClient {| method := "get"; url := u; _retryCount := None |} w.

(** *** The public methods *)

(** The [catch] block shared by the three request methods. *)
Definition fail_with (operation : string) (error : Exn) (w : World)
  : World * Result Js.value :=
  (with_stats count_failure w,
   match _handleError error operation with
   | Return wrappedError => Throw wrappedError
   | Throw failure => Throw failure
   end).

(** The log line before the request: its template literal converts
    [userData.userId] and [userData.actionType] to strings. *)
Definition log_request (userData : list (string * Js.value)) : Result unit :=
  match ToString (Js.lookup "userId" userData) with
  | Throw failure => Throw failure
  | Return _ =>
      match ToString (Js.lookup "actionType" userData) with
      | Throw failure => Throw failure
      | Return _ => Return tt
      end
  end.

(** The log line after the request: its template literal reads
    [response.data.risk_level] and [response.data.confidence_score] and
    converts them to strings. *)
Definition log_response (body : Js.value) : Result unit :=
  match getprop body "risk_level" with
  | Throw failure => Throw failure
  | Return level =>
      match ToString level with
      | Throw failure => Throw failure
      | Return _ =>
          match getprop body "confidence_score" with
          | Throw failure => Throw failure
          | Return score =>
              match ToString score with
              | Throw failure => Throw failure
              | Return _ => Return tt
              end
          end
      end
  end.

Definition verifyIdentity (userData : list (string * Js.value)) (w : World)
  : World * Result Js.value :=
  match _validateUserData userData with
  | Throw error => fail_with "verifyIdentity" error w
  | Return _ =>
      match (if enableLogging sdk then log_request userData else Return tt) with
      | Throw error => fail_with "verifyIdentity" error w
      | Return _ =>
          match post (Config.endpoints_verify idrock) w with
          | (w1, Throw error) => fail_with "verifyIdentity" error w1
          | (w1, Return response) =>
              let w2 := with_stats count_success w1 in
              (* the second log line is still inside the try *)
              match (if enableLogging sdk then log_response (data response)
                     else Return tt) with
              | Throw error => fail_with "verifyIdentity" error w2
              | Return _ => (w2, Return (data response))
              end
          end
      end
  end.

Definition getAssessmentHistory (userId filters : Js.value) (w : World)
  : World * Result Js.value :=
  match get (Config.endpoints_history idrock) w with
  | (w1, Return response) =>
      (with_stats count_success w1, Return (data response))
  | (w1, Throw error) => fail_with "getAssessmentHistory" error w1
  end.

Definition healthCheck (w : World) : World * Result Js.value :=
  match get (Config.endpoints_health idrock) w with
  | (w1, Return response) =>
      (with_stats count_success w1, Return (data response))
  | (w1, Throw error) => fail_with "healthCheck" error w1
  end.

(** [createFallbackResponse(userId, reason = 'service_unavailable')] *)
Definition createFallbackResponse (amb : Ambient) (userId reason : Js.value)
  : Js.value :=
  let reason := match reason with
                | VUndef => VStr "service_unavailable"
                | r => r
                end in
  let fallbackConfig := Config.risk_fallback idrock in
  VObj [
    ("confidence_score", VNum 50);
    ("risk_level", VStr (Config.defaultRiskLevel fallbackConfig));
    ("risk_factors", VArr [
       VObj [ ("factor", VStr "system_fallback");
              ("score", VNum 50);
              ("weight", VNum 1);
              ("details", VStr ("Risk assessment service unavailable: "
                                ++ Js.to_string reason));
              ("proxycheck_data", VObj [("fallback", VBool true)]) ] ]);
    ("recommendations", VArr [
       VObj [ ("action", VStr "manual_review_recommended");
              ("priority", VStr "medium");
              ("message", VStr "Manual review recommended due to service unavailability") ] ]);
    ("metadata", VObj [
       ("processing_time_ms", VNum 0);
       ("api_version", VStr "1.0.0-fallback");
       ("request_id", VStr ("fallback_" ++ substring 0 12 (uuid_first amb)));
       ("mvp_scope", VStr "fallback_mode") ]);
    ("timestamp", VStr (now_iso amb));
    ("request_id", VStr ("fallback_" ++ substring 0 12 (uuid_second amb)));
    ("api_version", VStr "1.0.0-fallback");
    ("fallback", VBool true);
    ("fallback_reason", reason)
  ].

End Client.

(* ===================================================================== *)
(** ** The mediated request (Express) *)
(* ===================================================================== *)

(** The parts of the Express request the middleware reads, and the
    properties it sets on it.  [body] is the parsed JSON body (an object);
    [user_agent] is [req.get('User-Agent')]; the three address entries are
    [req.connection.remoteAddress], [req.socket.remoteAddress] and
    [req.connection.socket]. *)
Record Request : Type := mkRequest {
  body : list (string * Js.value);
  user : Js.value;
  ip : Js.value;
  connection_remoteAddress : Js.value;
  socket_remoteAddress : Js.value;
  connection_socket : Js.value;
  user_agent : Js.value;
  annotations : list (string * Js.value)
}.

(** [req.k = v] *)
Definition annotate (k : string) (v : Js.value) (req : Request) : Request :=
  {| body := body req; user := user req; ip := ip req;
     connection_remoteAddress := connection_remoteAddress req;
     socket_remoteAddress := socket_remoteAddress req;
     connection_socket := connection_socket req;
     user_agent := user_agent req;
     annotations := Js.assign k v (annotations req) |}.

(** [req.k] for a property set by the middleware. *)
Definition annotation (k : string) (req : Request) : Js.value :=
  Js.lookup k (annotations req).

(** How an async middleware call ends: it called [next()], it answered
    itself through [res.status(code).json(body)], or its promise rejected
    with an error nothing caught. *)
Inductive Outcome : Type :=
| Next (req : Request)
| Respond (code : Z) (payload : Js.value)
| Unhandled (error : Exn).

(** Name resolution in a lexical scope: an identifier that no enclosing
    scope declares raises a [ReferenceError], also under [?.]. *)
Fixpoint resolve (scope : list (string * Js.value)) (x : string)
  : Result Js.value :=
  match scope with
  | [] => Throw (ReferenceError x)
  | (y, v) :: rest => if (x =? y)%string then Return v else resolve rest x
  end.

(** [items.map(r => r.message)] *)
Fixpoint messages (items : list Js.value) : Result (list Js.value) :=
  match items with
  | [] => Return []
  | r :: rest =>
      match getprop r "message" with
      | Throw e => Throw e
      | Return m =>
          match messages rest with
          | Throw e => Throw e
          | Return ms => Return (m :: ms)
          end
      end
  end.

(** [recs.map(r => r.message)] on whatever the response carries. *)
Definition map_messages (recs : Js.value) : Result Js.value :=
  match recs with
  | VUndef => Throw (TypeError "Cannot read properties of undefined (reading 'map')")
  | VNull => Throw (TypeError "Cannot read properties of null (reading 'map')")
  | VArr items =>
      match messages items with
      | Throw e => Throw e
      | Return ms => Return (VArr ms)
      end
  | _ => Throw (TypeError "riskAssessment.recommendations.map is not a function")
  end.

Section Mediation.

Variable server : nat -> HttpReply.
Variable idrock : Config.Idrock.
Variable amb : Ambient.

(** Whether the model's validators and the storage layer accept a row,
    given the rows already stored. *)
Variable store_accepts : list Js.value -> Js.value -> bool.

(** [User.findByUsernameOrEmail]: a user object, [null], or a failure. *)
Variable findByUsernameOrEmail : Js.value -> Result Js.value.

(* --------------------------------------------------------------------- *)
(** *** The audit model (models/SecurityLog.js) *)
(* --------------------------------------------------------------------- *)

(** [SecurityLog.create(row)]: one insert, or a rejection.  The generated
    primary key is left out of the row. *)
Definition create (row : Js.value) (w : World) : World * Result Js.value :=
  if store_accepts (audit w) row then
    ({| wire := wire w; stats := stats w; audit := audit w ++ [row] |},
     Return row)
  else (w, Throw (StoreError "SecurityLog.create rejected the row")).

Definition logLoginAttempt (data : list (string * Js.value)) (w : World)
  : World * Result Js.value :=
  let riskAssessment := Js.lookup "riskAssessment" data in
  create (VObj [
    ("event_type", VStr "login_attempt");
    ("user_id", Js.either (Js.lookup "userId" data) VNull);
    ("ip_address", Js.lookup "ipAddress" data);
    ("user_agent", Js.lookup "userAgent" data);
    ("idrock_request_id", Js.either (Js.optchain riskAssessment "request_id") VNull);
    ("risk_level", Js.either (Js.optchain riskAssessment "risk_level") (VStr "UNKNOWN"));
    ("confidence_score", Js.either (Js.optchain riskAssessment "confidence_score") VNull);
    ("action_taken", Js.lookup "actionTaken" data);
    ("success", Js.lookup "success" data);
    ("event_data", VObj [
       ("risk_factors", Js.either (Js.optchain riskAssessment "risk_factors") (VArr []));
       ("recommendations", Js.either (Js.optchain riskAssessment "recommendations") (VArr [])) ]);
    ("error_message", Js.lookup "errorMessage" data);
    ("processing_time_ms", Js.lookup "processingTime" data);
    ("timestamp", VStr (now_iso amb))
  ]) w.

Definition logCheckoutAttempt (data : list (string * Js.value)) (w : World)
  : World * Result Js.value :=
  let riskAssessment := Js.lookup "riskAssessment" data in
  create (VObj [
    ("event_type", VStr "checkout_attempt");
    ("user_id", Js.lookup "userId" data);
    ("ip_address", Js.lookup "ipAddress" data);
    ("user_agent", Js.lookup "userAgent" data);
    ("idrock_request_id", Js.either (Js.optchain riskAssessment "request_id") VNull);
    ("risk_level", Js.either (Js.optchain riskAssessment "risk_level") (VStr "UNKNOWN"));
    ("confidence_score", Js.either (Js.optchain riskAssessment "confidence_score") VNull);
    ("action_taken", Js.lookup "actionTaken" data);
    ("success", Js.lookup "success" data);
    ("event_data", VObj [
       ("order_amount", Js.lookup "orderAmount" data);
       ("risk_factors", Js.either (Js.optchain riskAssessment "risk_factors") (VArr []));
       ("recommendations", Js.either (Js.optchain riskAssessment "recommendations") (VArr [])) ]);
    ("error_message", Js.lookup "errorMessage" data);
    ("processing_time_ms", Js.lookup "processingTime" data);
    ("timestamp", VStr (now_iso amb))
  ]) w.

Definition logRiskAssessment (data : list (string * Js.value)) (w : World)
  : World * Result Js.value :=
  let riskAssessment := Js.lookup "riskAssessment" data in
  let success := match Js.lookup "success" data with
                 | VUndef => VBool true
                 | v => v
                 end in
  create (VObj [
    ("event_type", VStr "risk_assessment");
    ("user_id", Js.either (Js.lookup "userId" data) VNull);
    ("ip_address", Js.lookup "ipAddress" data);
    ("user_agent", Js.lookup "userAgent" data);
    ("idrock_request_id", Js.either (Js.optchain riskAssessment "request_id") VNull);
    ("risk_level", Js.either (Js.optchain riskAssessment "risk_level") (VStr "UNKNOWN"));
    ("confidence_score", Js.either (Js.optchain riskAssessment "confidence_score") VNull);
    ("action_taken", VStr "assessed");
    ("success", success);
    ("event_data", VObj [
       ("risk_factors", Js.either (Js.optchain riskAssessment "risk_factors") (VArr []));
       ("recommendations", Js.either (Js.optchain riskAssessment "recommendations") (VArr []));
       ("metadata", Js.either (Js.optchain riskAssessment "metadata") (VObj [])) ]);
    ("processing_time_ms", Js.lookup "processingTime" data);
    ("timestamp", VStr (now_iso amb))
  ]) w.

(* --------------------------------------------------------------------- *)
(** *** The middleware (middleware/security) *)
(* --------------------------------------------------------------------- *)

(** [this.idrockClient = new IDRockNodeSDK()] *)
Definition idrockClient : SdkConfig := IDRockNodeSDK idrock no_options.

Definition _getClientIP (req : Request) : Js.value :=
  Js.either
    (Js.either
       (Js.either
          (Js.either (ip req) (connection_remoteAddress req))
          (socket_remoteAddress req))
       (if Js.truthy (connection_socket req)
        then Js.optchain (connection_socket req) "remoteAddress"
        else VNull))
    (VStr "127.0.0.1").

Definition _extractLoginUserData (req : Request) : list (string * Js.value) :=
  [ ("userId", Js.either (Js.either (Js.lookup "username" (body req))
                                    (Js.lookup "email" (body req)))
                         (VStr "anonymous"));
    ("ipAddress", _getClientIP req);
    ("userAgent", Js.either (user_agent req) (VStr "unknown"));
    ("actionType", VStr "login");
    ("deviceFingerprint", Js.lookup "deviceFingerprint" (body req));
    ("sessionData", Js.either (Js.lookup "sessionData" (body req)) (VObj []));
    ("additionalContext",
     VObj (Js.spread [ ("loginAttempt", VBool true);
                       ("timestamp", VStr (now_iso amb)) ]
                     (Js.lookup "additionalData" (body req)))) ].

Definition _extractCheckoutUserData (req : Request)
  : list (string * Js.value) :=
  [ ("userId", Js.either (Js.either (Js.optchain (user req) "id")
                                    (Js.lookup "userId" (body req)))
                         (VStr "unknown"));
    ("ipAddress", _getClientIP req);
    ("userAgent", Js.either (user_agent req) (VStr "unknown"));
    ("actionType", VStr "checkout");
    ("amount", Js.either (Js.either (Js.lookup "totalAmount" (body req))
                                    (Js.lookup "amount" (body req)))
                         (VNum 0));
    ("deviceFingerprint", Js.lookup "deviceFingerprint" (body req));
    ("sessionData", Js.either (Js.lookup "sessionData" (body req)) (VObj []));
    ("additionalContext",
     VObj (Js.spread [ ("checkoutAttempt", VBool true);
                       ("paymentMethod", Js.lookup "paymentMethod" (body req));
                       ("itemCount", Js.either (Js.lookup "itemCount" (body req)) (VNum 1));
                       ("timestamp", VStr (now_iso amb)) ]
                     (Js.lookup "additionalData" (body req)))) ].

Definition _resolveUserId (identifier : Js.value) : Js.value :=
  if Js.falsy identifier || Js.strict_eq identifier (VStr "anonymous") then VNull
  else
    match findByUsernameOrEmail identifier with
    | Return found => if Js.truthy found then Js.optchain found "id" else VNull
    | Throw _ => VNull
    end.

(** The client call as the middleware makes it. *)
Definition assess (userData : list (string * Js.value)) (w : World)
  : World * Result Js.value :=
  verifyIdentity server idrock idrockClient userData w.

Definition fallback_for (userId : Js.value) (reason : string) : Js.value :=
  createFallbackResponse idrock amb userId (VStr reason).

Definition service_unavailable : Outcome :=
  Respond 503 (VObj [
    ("error", VStr "Security service temporarily unavailable");
    ("code", VStr "SERVICE_UNAVAILABLE");
    ("message", VStr "Please try again in a few minutes") ]).

Definition verification_required : Outcome :=
  Respond 503 (VObj [
    ("error", VStr "Security verification required");
    ("code", VStr "SECURITY_VERIFICATION_REQUIRED");
    ("message", VStr "Transaction cannot be processed at this time. Please try again later.") ]).

(** **** protectLogin *)

(** The [try] block; the world and the request are returned as the block
    leaves them, whether it completes or throws. *)
Definition protectLogin_try (req : Request) (w : World)
  : World * Request * Result Outcome :=
  if negb (Config.integration_enabled idrock) then (w, req, Return (Next req))
  else
    let userData := _extractLoginUserData req in
    match assess userData w with
    | (w1, Throw error) => (w1, req, Throw error)
    | (w1, Return riskAssessment) =>
        let req1 := annotate "processingTime" (VNum (elapsed_try amb))
                      (annotate "idrockAssessment" riskAssessment req) in
        (* try { ...logRiskAssessment... } catch (logError) { warn } *)
        let w2 := fst (logRiskAssessment
                         [ ("userId", _resolveUserId (Js.lookup "userId" userData));
                           ("ipAddress", Js.lookup "ipAddress" userData);
                           ("userAgent", Js.lookup "userAgent" userData);
                           ("riskAssessment", riskAssessment);
                           ("processingTime", annotation "processingTime" req1) ]
                         w1) in
        match getprop riskAssessment "risk_level" with
        | Throw error => (w2, req1, Throw error)
        | Return level =>
            if Js.strict_eq level (VStr "DENY") then
              (* try { ...logLoginAttempt... } catch (logError) { warn } *)
              let w3 := fst (logLoginAttempt
                               [ ("userId", _resolveUserId (Js.lookup "userId" userData));
                                 ("ipAddress", Js.lookup "ipAddress" userData);
                                 ("userAgent", Js.lookup "userAgent" userData);
                                 ("success", VBool false);
                                 ("riskAssessment", riskAssessment);
                                 ("actionTaken", VStr "blocked");
                                 ("processingTime", annotation "processingTime" req1) ]
                               w2) in
              (w3, req1,
               Return (Respond 403 (VObj [
                 ("error", VStr "Login blocked for security reasons");
                 ("code", VStr "SECURITY_BLOCK");
                 ("riskLevel", level);
                 ("requestId", Js.optchain riskAssessment "request_id");
                 ("message", VStr "Your login attempt has been blocked due to security concerns. Please contact support if you believe this is an error.") ])))
            else if Js.strict_eq level (VStr "REVIEW") then
              let req2 := annotate "requiresAdditionalAuth" (VBool true) req1 in
              match map_messages (Js.optchain riskAssessment "recommendations") with
              | Throw error => (w2, req2, Throw error)
              | Return reasons =>
                  let req3 := annotate "securityReasons" reasons req2 in
                  (w2, req3, Return (Next req3))
              end
            else (* case 'ALLOW', and every value no case matches *)
              (w2, req1, Return (Next req1))
        end
    end.

(** The [catch] block. *)
Definition protectLogin_catch (error : Exn) (req : Request) (w : World)
  : World * Outcome :=
  let processingTime := VNum (elapsed_catch amb) in
  let fb := Config.risk_fallback idrock in
  if Config.enabled fb then
    let username := Js.lookup "username" (body req) in
    let req1 := annotate "processingTime" processingTime
                  (annotate "idrockServiceAvailable" (VBool false)
                     (annotate "idrockAssessment"
                        (fallback_for (Js.either username (VStr "unknown")) "service_error")
                        req)) in
    match logRiskAssessment
            [ ("userId", Js.either username VNull);
              ("ipAddress", _getClientIP req1);
              ("userAgent", user_agent req1);
              ("riskAssessment", annotation "idrockAssessment" req1);
              ("processingTime", processingTime);
              ("success", VBool false) ]
            w with
    | (w1, Throw failure) => (w1, Unhandled failure)
    | (w1, Return _) =>
        if Config.allowProceed fb then
          (w1, Next (annotate "requiresAdditionalAuth" (VBool true) req1))
        else (w1, service_unavailable)
    end
  else (w, service_unavailable).

Definition protectLogin (req : Request) (w : World) : World * Outcome :=
  match protectLogin_try req w with
  | (w1, _, Return outcome) => (w1, outcome)
  | (w1, req1, Throw error) => protectLogin_catch error req1 w1
  end.

(** **** protectCheckout *)

Definition protectCheckout_try (req : Request) (w : World)
  : World * Request * Result Outcome :=
  if negb (Config.integration_enabled idrock) then (w, req, Return (Next req))
  else
    let userData := _extractCheckoutUserData req in
    match assess userData w with
    | (w1, Throw error) => (w1, req, Throw error)
    | (w1, Return riskAssessment) =>
        let req1 := annotate "processingTime" (VNum (elapsed_try amb))
                      (annotate "idrockAssessment" riskAssessment req) in
        match logRiskAssessment
                [ ("userId", Js.lookup "userId" userData);
                  ("ipAddress", Js.lookup "ipAddress" userData);
                  ("userAgent", Js.lookup "userAgent" userData);
                  ("riskAssessment", riskAssessment);
                  ("processingTime", annotation "processingTime" req1) ]
                w1 with
        | (w2, Throw error) => (w2, req1, Throw error)
        | (w2, Return _) =>
            match getprop riskAssessment "risk_level" with
            | Throw error => (w2, req1, Throw error)
            | Return level =>
                if Js.strict_eq level (VStr "DENY") then
                  match logCheckoutAttempt
                          [ ("userId", Js.lookup "userId" userData);
                            ("ipAddress", Js.lookup "ipAddress" userData);
                            ("userAgent", Js.lookup "userAgent" userData);
                            ("orderAmount", Js.lookup "amount" userData);
                            ("success", VBool false);
                            ("riskAssessment", riskAssessment);
                            ("actionTaken", VStr "blocked");
                            ("processingTime", annotation "processingTime" req1) ]
                          w2 with
                  | (w3, Throw error) => (w3, req1, Throw error)
                  | (w3, Return _) =>
                      (w3, req1,
                       Return (Respond 403 (VObj [
                         ("error", VStr "Transaction blocked for security reasons");
                         ("code", VStr "TRANSACTION_BLOCKED");
                         ("riskLevel", level);
                         ("requestId", Js.optchain riskAssessment "request_id");
                         ("message", VStr "Your transaction has been blocked due to security concerns. Please contact support.") ])))
                  end
                else if Js.strict_eq level (VStr "REVIEW") then
                  let req2 := annotate "requiresReview" (VBool true) req1 in
                  match map_messages (Js.optchain riskAssessment "recommendations") with
                  | Throw error => (w2, req2, Throw error)
                  | Return reasons =>
                      let req3 := annotate "securityReasons" reasons req2 in
                      (w2, req3, Return (Next req3))
                  end
                else (w2, req1, Return (Next req1))
            end
        end
    end.

Definition protectCheckout_catch (error : Exn) (req : Request) (w : World)
  : World * Outcome :=
  let processingTime := VNum (elapsed_catch amb) in
  if Config.enabled (Config.risk_fallback idrock) then
    let req1 :=
      annotate "securityReasons"
        (VArr [VStr "Security service temporarily unavailable - manual review required"])
        (annotate "requiresReview" (VBool true)
           (annotate "processingTime" processingTime
              (annotate "idrockServiceAvailable" (VBool false)
                 (annotate "idrockAssessment"
                    (fallback_for (Js.either (Js.optchain (user req) "id") (VStr "unknown"))
                                  "checkout_service_error")
                    req)))) in
    (w, Next req1)
  else (w, verification_required).

Definition protectCheckout (req : Request) (w : World) : World * Outcome :=
  match protectCheckout_try req w with
  | (w1, _, Return outcome) => (w1, outcome)
  | (w1, req1, Throw error) => protectCheckout_catch error req1 w1
  end.

(** **** assessRisk *)

(** The [userData] literal built inside the [try] block. *)
Definition assessRisk_userData (actionType : string) (req : Request)
  : list (string * Js.value) :=
  [ ("userId", Js.either (Js.either (Js.optchain (user req) "id")
                                    (Js.lookup "userId" (body req)))
                         (VStr "anonymous"));
    ("ipAddress", _getClientIP req);
    ("userAgent", Js.either (user_agent req) (VStr "unknown"));
    ("actionType", VStr actionType);
    ("deviceFingerprint", Js.lookup "deviceFingerprint" (body req));
    ("sessionData", Js.lookup "sessionData" (body req));
    ("additionalContext", Js.either (Js.lookup "additionalContext" (body req)) (VObj [])) ].

Definition assessRisk_try (actionType : string) (req : Request) (w : World)
  : World * Request * Result Outcome :=
  if negb (Config.integration_enabled idrock) then (w, req, Return (Next req))
  else
    let userData := assessRisk_userData actionType req in
    match assess userData w with
    | (w1, Throw error) => (w1, req, Throw error)
    | (w1, Return riskAssessment) =>
        let req1 := annotate "riskActionType" (VStr actionType)
                      (annotate "idrockAssessment" riskAssessment req) in
        (w1, req1, Return (Next req1))
    end.

(** The bindings visible from the [catch] block of the returned handler,
    innermost first: the catch parameter, the handler's parameters, the
    parameter of [assessRisk], and the module's top-level declarations.
    [const userData] is declared inside the [try] block, whose scope ends
    with that block.  Host objects are left opaque. *)
Definition assessRisk_catch_scope (actionType : string) (error : Exn)
  : list (string * Js.value) :=
  [ ("error", VObj [("message", VStr (error_message error))]);
    ("req", VObj []); ("res", VObj []); ("next", VObj []);
    ("actionType", VStr actionType);
    ("IDRockNodeSDK", VObj []); ("IDRockAPIError", VObj []);
    ("SecurityLog", VObj []); ("idrockConfig", VObj []);
    ("User", VObj []); ("SecurityMiddleware", VObj []);
    ("securityMiddleware", VObj []) ].

Definition assessRisk_catch (actionType : string) (error : Exn)
           (req : Request) (w : World) : World * Outcome :=
  (* createFallbackResponse(userData?.userId || 'unknown', ...): the
     argument is evaluated first *)
  match resolve (assessRisk_catch_scope actionType error) "userData" with
  | Throw failure => (w, Unhandled failure)
  | Return userData =>
      (w, Next (annotate "idrockAssessment"
                  (fallback_for (Js.either (Js.optchain userData "userId") (VStr "unknown"))
                                "generic_assessment_error")
                  req))
  end.

Definition assessRisk (actionType : string) (req : Request) (w : World)
  : World * Outcome :=
  match assessRisk_try actionType req w with
  | (w1, _, Return outcome) => (w1, outcome)
  | (w1, req1, Throw error) => assessRisk_catch actionType error req1 w1
  end.

End Mediation.

(* ===================================================================== *)
(** ** The fingerprint collector (public/js/idrock-sdk.js) *)
(* ===================================================================== *)

Module Fingerprint.

(** One entry of the array [Promise.allSettled] resolves to. *)
Inductive Settled : Type :=
| Fulfilled (value : Js.value)
| Rejected (reason : Js.value).

(** [result.status === 'fulfilled'] *)
Definition is_fulfilled (result : Settled) : bool :=
  match result with
  | Fulfilled _ => true
  | Rejected _ => false
  end.

(** [result.value] *)
Definition settled_value (result : Settled) : Js.value :=
  match result with
  | Fulfilled v => v
  | Rejected _ => VUndef
  end.

(** ToInt32: wrap to a signed 32-bit integer. *)
Definition to_int32 (n : Z) : Z :=
  let m := n mod 2 ^ 32 in
  if m <? 2 ^ 31 then m else m - 2 ^ 32.

(** [a << 5] *)
Definition shl5 (a : Z) : Z := to_int32 (Z.shiftl (to_int32 a) 5).

(** [a & b] *)
Definition band (a b : Z) : Z := Z.land (to_int32 a) (to_int32 b).

(** [str.charCodeAt(i)]; strings are sequences of 8-bit code units here. *)
Definition charCode (c : ascii) : Z := Z.of_N (N_of_ascii c).

(** One turn of the loop body:
    [hash = ((hash << 5) - hash) + char; hash = hash & hash]. *)
Definition hash_step (hash : Z) (char : Z) : Z :=
  let hash := (shl5 hash - hash) + char in
  band hash hash.

Fixpoint hash_loop (hash : Z) (str : string) : Z :=
  match str with
  | EmptyString => hash
  | String c rest => hash_loop (hash_step hash (charCode c)) rest
  end.

Definition digits36 : list ascii :=
  list_ascii_of_string "0123456789abcdefghijklmnopqrstuvwxyz".

Definition digit36 (d : Z) : ascii := nth (Z.to_nat d) digits36 "0"%char.

(** Radix-36 digits of a non-negative integer, most significant first;
    [budget] bounds the number of digits. *)
Fixpoint to_base36 (budget : nat) (n : Z) (acc : string) : string :=
  match budget with
  | O => acc
  | S budget' =>
      let acc' := String (digit36 (n mod 36)) acc in
      if n / 36 =? 0 then acc' else to_base36 budget' (n / 36) acc'
  end.

(** [n.toString(36)] for [n >= 0]: a number has no more radix-36 digits
    than binary ones. *)
Definition toString36 (n : Z) : string :=
  to_base36 (S (Z.to_nat (Z.log2 n))) n "".

Definition _hashString (str : string) : string :=
  toString36 (Z.abs (hash_loop 0 str)).

(** The [try] block of [_generateFingerprint], from the settled results
    of the six sources (canvas, WebGL, audio, browser features, screen,
    timezone, in that order) on.  [Promise.allSettled] never rejects and
    nothing after it throws, so the [catch] block, which derives a token
    from the clock and a random number, is not entered. *)
Definition _generateFingerprint (components : list Settled) : string :=
  let validComponents :=
    Js.join_values "|" (map settled_value (filter is_fulfilled components)) in
  _hashString validComponents.

(** The collector object: [this.fingerprint], [this.fingerprintPromise]. *)
Record Collector : Type := mkCollector {
  fingerprint : option string;
  fingerprintPromise : option string
}.

(** [collect()]: the first call generates, later calls return the
    memoised promise. *)
Definition collect (components : list Settled) (this : Collector)
  : Collector * string :=
  match fingerprintPromise this with
  | Some token => (this, token)
  | None =>
      let token := _generateFingerprint components in
      ({| fingerprint := Some token; fingerprintPromise := Some token |}, token)
  end.

(** *** The six sources

    Each source is a promise whose executor runs a [try] block and
    resolves in every case: with the output when the block completes,
    with a marker of its own from the [catch] block when anything in it
    throws.  No source rejects. *)

(** What the [try] block of a source ends in: the host values it has
    read, or an exception thrown on the way. *)
Inductive Tried (A : Type) : Type :=
| Computed (a : A)
| Raised (error : Js.value).
Arguments Computed {A} a.
Arguments Raised {A} error.

(** [typeof v] *)
Definition typeof (v : Js.value) : string :=
  match v with
  | VUndef => "undefined"
  | VBool _ => "boolean"
  | VNum _ => "number"
  | VStr _ => "string"
  | VNull | VArr _ | VObj _ => "object"
  end.

(** [items.join(sep)] inside a [try] block: [None] when an element does
    not convert to a string and the join throws. *)
Definition joined (sep : string) (items : list Js.value) : option string :=
  if Js.printable (VArr items) then Some (Js.join_values sep items) else None.

(** The WebGL context: the unmasked renderer and vendor when the
    [WEBGL_debug_renderer_info] extension exists, and the [VERSION] and
    [SHADING_LANGUAGE_VERSION] parameters. *)
Record WebGL : Type := mkWebGL {
  debugInfo : option (Js.value * Js.value);
  version : Js.value;
  shadingLanguageVersion : Js.value
}.

(** How the audio source settles when nothing throws: there is no
    [AudioContext]; the [onaudioprocess] handler resolves first, with the
    samples of the output buffer as they print; or the timer of one
    second does. *)
Inductive Audio : Type :=
| NoAudioContext
| Processed (samples : list string)
| TimedOut.

(** The properties of [navigator] the features source reads. *)
Record Navigator : Type := mkNavigator {
  userAgent : Js.value;
  language : Js.value;
  languages : Js.value;
  platform : Js.value;
  deviceMemory : Js.value;
  hardwareConcurrency : Js.value;
  maxTouchPoints : Js.value;
  doNotTrack : Js.value;
  cookieEnabled : Js.value
}.

(** The properties of [window.screen] and [window] the screen source
    reads. *)
Record Display : Type := mkDisplay {
  width : Js.value;
  height : Js.value;
  availWidth : Js.value;
  availHeight : Js.value;
  colorDepth : Js.value;
  pixelDepth : Js.value;
  devicePixelRatio : Js.value;
  innerWidth : Js.value;
  innerHeight : Js.value;
  outerWidth : Js.value;
  outerHeight : Js.value
}.

(** The device and browser as the six sources see them: the data URL of
    the drawn canvas, the WebGL context if [getContext] returns one, the
    audio outcome, [navigator], the screen and window sizes, and the
    time zone with the offset of the local time. *)
Record Device : Type := mkDevice {
  canvas : Tried string;
  webgl : Tried (option WebGL);
  audio : Tried Audio;
  navigator : Tried Navigator;
  display : Tried Display;
  timezone : Tried (Js.value * Js.value)
}.

Definition _getCanvasFingerprint (d : Device) : string :=
  match canvas d with
  | Computed dataURL => dataURL
  | Raised _ => "canvas_error"
  end.

Definition _getWebGLFingerprint (d : Device) : string :=
  match webgl d with
  | Computed None => "no_webgl"
  | Computed (Some gl) =>
      let renderer := match debugInfo gl with
                      | Some (renderer, _) => renderer
                      | None => VStr ""
                      end in
      let vendor := match debugInfo gl with
                    | Some (_, vendor) => vendor
                    | None => VStr ""
                    end in
      match joined "|" [renderer; vendor; version gl; shadingLanguageVersion gl] with
      | Some webglInfo => webglInfo
      | None => "webgl_error"
      end
  | Raised _ => "webgl_error"
  end.

Definition _getAudioFingerprint (d : Device) : string :=
  match audio d with
  | Computed NoAudioContext => "no_audio_context"
  | Computed (Processed samples) => Js.join "," (firstn 50 samples)
  | Computed TimedOut => "audio_timeout"
  | Raised _ => "audio_error"
  end.

Definition _getBrowserFeatures (d : Device) : string :=
  match navigator d with
  | Computed n =>
      let listed :=
        if Js.truthy (languages n) then
          match languages n with
          | VArr items =>
              match joined "," items with
              | Some text => Some (VStr text)
              | None => None
              end
          | _ => None   (* [navigator.languages.join] is no function *)
          end
        else Some (VStr "") in
      match listed with
      | Some listed =>
          match joined "|" [ userAgent n; language n; listed; platform n;
                             Js.either (deviceMemory n) (VStr "unknown");
                             Js.either (hardwareConcurrency n) (VStr "unknown");
                             Js.either (maxTouchPoints n) (VNum 0);
                             VStr (typeof (doNotTrack n));
                             cookieEnabled n ] with
          | Some features => features
          | None => "browser_features_error"
          end
      | None => "browser_features_error"
      end
  | Raised _ => "browser_features_error"
  end.

Definition _getScreenFingerprint (d : Device) : string :=
  match display d with
  | Computed s =>
      match joined "|" [ width s; height s; availWidth s; availHeight s;
                         colorDepth s; pixelDepth s;
                         Js.either (devicePixelRatio s) (VNum 1);
                         innerWidth s; innerHeight s;
                         outerWidth s; outerHeight s ] with
      | Some screenData => screenData
      | None => "screen_error"
      end
  | Raised _ => "screen_error"
  end.

Definition _getTimezoneFingerprint (d : Device) : string :=
  match timezone d with
  | Computed (zone, offset) =>
      if Js.printable zone && Js.printable offset
      then (Js.to_string zone ++ "|" ++ Js.to_string offset)%string
      else "timezone_error"
  | Raised _ => "timezone_error"
  end.

(** What [Promise.allSettled] resolves to on a device: the six sources in
    the order of the array literal, every one fulfilled. *)
Definition settled (d : Device) : list Settled :=
  [ Fulfilled (VStr (_getCanvasFingerprint d));
    Fulfilled (VStr (_getWebGLFingerprint d));
    Fulfilled (VStr (_getAudioFingerprint d));
    Fulfilled (VStr (_getBrowserFeatures d));
    Fulfilled (VStr (_getScreenFingerprint d));
    Fulfilled (VStr (_getTimezoneFingerprint d)) ].

(** The token [_generateFingerprint] produces on a device. *)
Definition token (d : Device) : string := _generateFingerprint (settled d).

(** Two [try] blocks end alike when both complete with the same values,
    or both throw, whatever they throw. *)
Inductive alike {A : Type} : Tried A -> Tried A -> Prop :=
| alike_computed (a : A) : alike (Computed a) (Computed a)
| alike_raised (e1 e2 : Js.value) : alike (Raised e1) (Raised e2).

(** Two runs in which the same sources succeed, on the same device and
    browser state. *)
Definition same_successes (d1 d2 : Device) : Prop :=
  alike (canvas d1) (canvas d2) /\ alike (webgl d1) (webgl d2)
  /\ alike (audio d1) (audio d2) /\ alike (navigator d1) (navigator d2)
  /\ alike (display d1) (display d2) /\ alike (timezone d1) (timezone d2).

(** Every source has failed. *)
Definition all_raised (d : Device) : Prop :=
  (exists e, canvas d = Raised e) /\ (exists e, webgl d = Raised e)
  /\ (exists e, audio d = Raised e) /\ (exists e, navigator d = Raised e)
  /\ (exists e, display d = Raised e) /\ (exists e, timezone d = Raised e).

(** Decoding of a radix-36 numeral. *)
Definition digit36_value (c : ascii) : Z :=
  let n := Z.of_N (N_of_ascii c) in
  if (48 <=? n) && (n <=? 57) then n - 48 else n - 97 + 10.

Fixpoint of_base36 (acc : Z) (s : string) : Z :=
  match s with
  | EmptyString => acc
  | String c rest => of_base36 (acc * 36 + digit36_value c) rest
  end.

End Fingerprint.

(* ===================================================================== *)
(** ** Textual IP addresses, as the specification words them *)
(* ===================================================================== *)

(** The specification asks for a "syntactically valid IPv4/IPv6 address".
    This module writes that notion down independently of the client's
    pattern, after the usual textual grammars: an IPv4 address is four
    dot-separated decimal octets (0 to 255); an IPv6 address is eight
    colon-separated groups of one to four hexadecimal digits, where one
    run of zero groups may be elided as [::] and the last two groups may
    be written as an IPv4 address. *)
Module SpecIP.

Import Text.

Definition is_digit := Regex.is_digit.
Definition is_hex := Regex.is_hex.

Fixpoint decimal (acc : Z) (s : string) : Z :=
  match s with
  | EmptyString => acc
  | String c rest => decimal (acc * 10 + (Z.of_N (N_of_ascii c) - 48)) rest
  end.

Definition dec_octet (s : string) : bool :=
  (Nat.leb 1 (String.length s) && Nat.leb (String.length s) 3
   && all_chars is_digit s && (decimal 0 s <=? 255))%bool.

Definition ipv4 (s : string) : bool :=
  match split "." s with
  | [a; b; c; d] => dec_octet a && dec_octet b && dec_octet c && dec_octet d
  | _ => false
  end.

Definition h16 (s : string) : bool :=
  (Nat.leb 1 (String.length s) && Nat.leb (String.length s) 4
   && all_chars is_hex s)%bool.

(** Number of 16-bit groups a colon-separated list stands for, when each
    field is a hexadecimal group, the last one possibly an IPv4 address. *)
Fixpoint groups (fields : list string) : option nat :=
  match fields with
  | [] => Some 0%nat
  | [last] => if h16 last then Some 1%nat
              else if ipv4 last then Some 2%nat else None
  | field :: rest =>
      if h16 field then option_map S (groups rest) else None
  end.

(** Cut [s] at its first [::]. *)
Fixpoint cut_elision (s : string) : option (string * string) :=
  match s with
  | String ":" (String ":" rest) => Some (EmptyString, rest)
  | String c rest =>
      match cut_elision rest with
      | Some (l, r) => Some (String c l, r)
      | None => None
      end
  | EmptyString => None
  end.

Definition fields_of (s : string) : list string :=
  match s with
  | EmptyString => []
  | _ => split ":" s
  end.

Definition ipv6 (s : string) : bool :=
  match cut_elision s with
  | None =>
      match groups (split ":" s) with
      | Some n => Nat.eqb n 8
      | None => false
      end
  | Some (l, r) =>
      match groups (fields_of l), groups (fields_of r) with
      | Some n, Some m =>
          (all_chars (fun c => is_hex c || Ascii.eqb c ":") l
           && Nat.leb (n + m) 7)%bool
      | _, _ => false
      end
  end.

Definition syntactically_valid (s : string) : bool := ipv4 s || ipv6 s.

End SpecIP.

(** The format the client's pattern accepts, read off the fields of the
    address: four dot-separated groups of one to three decimal digits, or
    eight colon-separated groups of one to four hexadecimal digits. *)
Definition dotted_quad (s : string) : bool :=
  let fields := Text.split "." s in
  (Nat.eqb (List.length fields) 4
   && forallb (Text.short_group Regex.is_digit 3) fields)%bool.

Definition colon_octet (s : string) : bool :=
  let fields := Text.split ":" s in
  (Nat.eqb (List.length fields) 8
   && forallb (Text.short_group Regex.is_hex 4) fields)%bool.

Definition basic_ip_format (s : string) : bool :=
  dotted_quad s || colon_octet s.

(* ===================================================================== *)
(** ** Vocabulary of the properties *)
(* ===================================================================== *)

(** An identity context that validation turns down: a required field is
    missing or empty (falsy), the action type is outside the closed set,
    or the address, printed as a string, has neither of the two basic
    formats. *)
Definition rejected_context (userData : list (string * Js.value)) : Prop :=
  (exists field, In field required
                 /\ Js.falsy (Js.lookup field userData) = true)
  \/ Js.includes validActions (Js.lookup "actionType" userData) = false
  \/ basic_ip_format (Js.to_string (Js.lookup "ipAddress" userData)) = false.

(** The error raised by validation: the client's own error class with
    neither an underlying error nor a status code. *)
Definition invalid_input (r : Result Js.value) : Prop :=
  exists message, r = Throw (IDRockAPIError message None None).

(** [totalRequests = successfulRequests + failedRequests] *)
Definition balanced (s : Stats) : Prop :=
  totalRequests s = successfulRequests s + failedRequests s.

(** The rows of the audit log with [event_type] [risk_assessment]. *)
Definition is_risk_assessment (row : Js.value) : bool :=
  Js.strict_eq (Js.optchain row "event_type") (VStr "risk_assessment").

Definition risk_events (w : World) : list Js.value :=
  filter is_risk_assessment (audit w).

(** The correlation id of an audit row. *)
Definition correlation_id (row : Js.value) : Js.value :=
  Js.optchain row "idrock_request_id".

(** The keys of a fallback assessment that hold a clock reading or a
    fresh identifier. *)
Definition volatile_keys : list string := ["timestamp"; "request_id"].

Definition volatile (k : string) : bool :=
  existsb (String.eqb k) volatile_keys.


(** The middleware ended the request itself or handed it on. *)
Definition handled_outcome (o : Outcome) : Prop :=
  match o with
  | Unhandled _ => False
  | _ => True
  end.

(** The answer is a redirect that the adapter follows: a 3xx status with
    a [Location] header. *)
Definition redirects (reply : HttpReply) : bool :=
  match reply with
  | Located st _ _ _ => (300 <=? st) && (st <? 400)
  | _ => false
  end.

(** The audit store accepts whatever it is given. *)
Definition accepting (store : list Js.value -> Js.value -> bool) : Prop :=
  forall log row, store log row = true.

(* ===================================================================== *)
(** ** Sample inputs *)
(* ===================================================================== *)

Module Sample.

(** The shipped configuration with the integration switched on, and the
    client the middleware builds from it. *)
Definition config : Config.Idrock := Config.idrockConfig true.
Definition sdk : SdkConfig := IDRockNodeSDK config no_options.

Definition ambient : Ambient :=
  {| uuid_first := "3f2b8c1e-7a4d-4e9b-9c51-0d6e2f8a1b73";
     uuid_second := "a91d04c7-52be-4f30-8e66-1c7b9d20e4f5";
     now_iso := "2025-09-08T12:00:00.000Z";
     elapsed_try := 42;
     elapsed_catch := 57 |}.

Definition identity (ipAddress actionType : string)
  : list (string * Js.value) :=
  [ ("userId", VStr "u1"); ("ipAddress", VStr ipAddress);
    ("userAgent", VStr "Mozilla/5.0"); ("actionType", VStr actionType) ].

(** A scoring service that answers every request with 503. *)
Definition always_503 : nat -> HttpReply :=
  fun _ => Reply 503 "Service Unavailable" VNull.

(** A scoring service that is never reached. *)
Definition unreachable : nat -> HttpReply := fun _ => NoReply.

(** A scoring service that answers 200 with the given JSON body. *)
Definition answers (payload : Js.value) : nat -> HttpReply :=
  fun _ => Reply 200 "OK" payload.

(** A scoring service that has moved: it answers the first request with
    a 307 to another path, and every later one 200 with the given body. *)
Definition moved (payload : Js.value) : nat -> HttpReply :=
  fun n => match n with
           | O => Located 307 "Temporary Redirect" VNull "/api/v2/identity/verify"
           | S _ => Reply 200 "OK" payload
           end.

(** A scoring service that answers every request 422 with a [detail]
    that has an own [toString] property. *)
Definition unprintable_422 : nat -> HttpReply :=
  fun _ => Reply 422 "Unprocessable Entity"
                 (VObj [("detail", VObj [("toString", VNull)])]).

Definition assessment (level : string) (score : Z) : Js.value :=
  VObj [ ("confidence_score", VNum score);
         ("risk_level", VStr level);
         ("risk_factors", VArr []);
         ("recommendations", VArr [VObj [("action", VStr "monitor");
                                         ("priority", VStr "low");
                                         ("message", VStr "Standard monitoring")]]);
         ("request_id", VStr "req_7f3a9c") ].

(** An audit store that accepts every row, one that accepts none, and an
    identity resolver that knows nobody. *)
Definition store_ok : list Js.value -> Js.value -> bool := fun _ _ => true.
Definition store_down : list Js.value -> Js.value -> bool := fun _ _ => false.
Definition nobody : Js.value -> Result Js.value := fun _ => Return VNull.

Definition request (username ip : string) : Request :=
  {| body := [("username", VStr username); ("password", VStr "hunter2")];
     user := VUndef;
     ip := VStr ip;
     connection_remoteAddress := VStr ip;
     socket_remoteAddress := VStr ip;
     connection_socket := VUndef;
     user_agent := VStr "Mozilla/5.0";
     annotations := [] |}.

(** A laptop as the six fingerprint sources see it, its WebGL context
    lost, and the same laptop in a second run, in which the WebGL source
    throws something else. *)
Definition laptop : Fingerprint.Device :=
  {| Fingerprint.canvas := Fingerprint.Computed "data:image/png;base64,iVBOR";
     Fingerprint.webgl := Fingerprint.Raised (VStr "context lost");
     Fingerprint.audio := Fingerprint.Computed Fingerprint.TimedOut;
     Fingerprint.navigator :=
       Fingerprint.Computed
         {| Fingerprint.userAgent := VStr "Mozilla/5.0";
            Fingerprint.language := VStr "pt-PT";
            Fingerprint.languages := VArr [VStr "pt-PT"; VStr "en"];
            Fingerprint.platform := VStr "Linux x86_64";
            Fingerprint.deviceMemory := VNum 8;
            Fingerprint.hardwareConcurrency := VNum 4;
            Fingerprint.maxTouchPoints := VNum 0;
            Fingerprint.doNotTrack := VNull;
            Fingerprint.cookieEnabled := VBool true |};
     Fingerprint.display :=
       Fingerprint.Computed
         {| Fingerprint.width := VNum 1920; Fingerprint.height := VNum 1080;
            Fingerprint.availWidth := VNum 1920;
            Fingerprint.availHeight := VNum 1040;
            Fingerprint.colorDepth := VNum 24; Fingerprint.pixelDepth := VNum 24;
            Fingerprint.devicePixelRatio := VNum 1;
            Fingerprint.innerWidth := VNum 1280;
            Fingerprint.innerHeight := VNum 720;
            Fingerprint.outerWidth := VNum 1280;
            Fingerprint.outerHeight := VNum 800 |};
     Fingerprint.timezone :=
       Fingerprint.Computed (VStr "Europe/Lisbon", VNum (-60)) |}.

Definition laptop_again : Fingerprint.Device :=
  {| Fingerprint.canvas := Fingerprint.canvas laptop;
     Fingerprint.webgl := Fingerprint.Raised (VObj [("name", VStr "TypeError")]);
     Fingerprint.audio := Fingerprint.audio laptop;
     Fingerprint.navigator := Fingerprint.navigator laptop;
     Fingerprint.display := Fingerprint.display laptop;
     Fingerprint.timezone := Fingerprint.timezone laptop |}.


(** A headless browser in which every fingerprint source throws. *)
Definition headless : Fingerprint.Device :=
  {| Fingerprint.canvas := Fingerprint.Raised (VStr "SecurityError");
     Fingerprint.webgl := Fingerprint.Raised (VStr "context lost");
     Fingerprint.audio := Fingerprint.Raised (VStr "NotSupportedError");
     Fingerprint.navigator := Fingerprint.Raised VUndef;
     Fingerprint.display := Fingerprint.Raised VUndef;
     Fingerprint.timezone := Fingerprint.Raised (VStr "RangeError") |}.

End Sample.

(* ===================================================================== *)
(** ** Sequences of client calls *)
(* ===================================================================== *)

(** One call of a public request method of the client. *)
Inductive ClientCall : Type :=
| CallVerify (userData : list (string * Js.value))
| CallHistory (userId filters : Js.value)
| CallHealth.

Definition client_call (server : nat -> HttpReply) (idrock : Config.Idrock)
           (sdk : SdkConfig) (call : ClientCall) (w : World)
  : World * Result Js.value :=
  match call with
  | CallVerify userData => verifyIdentity server idrock sdk userData w
  | CallHistory userId filters =>
      getAssessmentHistory server idrock sdk userId filters w
  | CallHealth => healthCheck server idrock sdk w
  end.

(** The calls made one after the other on the same client, whatever each
    returns or throws. *)
Fixpoint client_session (server : nat -> HttpReply) (idrock : Config.Idrock)
         (sdk : SdkConfig) (calls : list ClientCall) (w : World) : World :=
  match calls with
  | [] => w
  | call :: rest =>
      client_session server idrock sdk rest
        (fst (client_call server idrock sdk call w))
  end.

(** [undefined] or [null]. *)
Definition nullish (v : Js.value) : bool :=
  match v with
  | VUndef | VNull => true
  | _ => false
  end.

(** A 2xx status. *)
Definition ok_status (st : Z) : bool := (200 <=? st) && (st <? 300).

(** The response the adapter hands to axios for a reply: none for a lost
    request, none for a redirect, which it follows instead. *)
Definition answer (reply : HttpReply) : option HttpResponse :=
  match reply with
  | Reply st txt d => Some (mkResponse st txt d)
  | NoReply => None
  | Located st txt d _ =>
      if (300 <=? st) && (st <? 400) then None else Some (mkResponse st txt d)
  end.

(** A response body the log line of [verifyIdentity] can print: it has
    properties, and its [risk_level] and [confidence_score] convert to
    strings. *)
Definition loggable (body : Js.value) : bool :=
  negb (nullish body)
  && Js.printable (Js.optchain body "risk_level")
  && Js.printable (Js.optchain body "confidence_score").

(** The text [_handleError] puts after the colon when the failed
    response carries a [detail]: [errorData.detail.message ||
    errorData.detail]; and whether the response carries a [detail] whose
    text has no string conversion. *)
Definition failure_detail (r : HttpResponse) : Js.value :=
  let detail := Js.optchain (data r) "detail" in
  Js.either (Js.optchain detail "message") detail.

Definition unprintable_detail (r : HttpResponse) : bool :=
  Js.truthy (data r) && Js.truthy (Js.optchain (data r) "detail")
  && negb (Js.printable (failure_detail r)).

(** The errors that reach the [catch] block of a request method: the
    validation error, a [TypeError] of a log line, or what the request
    was rejected with. *)
Definition caught_in (server : nat -> HttpReply) (w w1 : World) (error : Exn)
  : Prop :=
  (exists msg, error = IDRockAPIError msg None None)
  \/ (exists msg, error = TypeError msg)
  \/ (exists msg, error = AxiosError None msg)
  \/ exists n r msg,
       error = AxiosError (Some r) msg
       /\ (attempts w <= n < attempts w1)%nat
       /\ answer (server n) = Some r /\ ok_status (status r) = false.

(** What one call leaves on the wire: its request first, then the
    requests that follow redirects, at most [maxRedirects] of them, and
    none when the first reply is no redirect. *)
Definition sent_with_redirects (server : nat -> HttpReply) (method url : string)
           (w w' : World) : Prop :=
  exists hops,
    wire w' = (wire w ++ Transmit method url :: hops)%list
    /\ (List.length hops <= maxRedirects)%nat
    /\ Forall (fun e => is_transmit e = true) hops
    /\ (redirects (server (attempts w)) = false -> hops = []).

(* ===================================================================== *)
(** ** What the audit model declares (models/SecurityLog.js) *)
(* ===================================================================== *)

(** [validate.isIn] of the [event_type] column. *)
Definition declared_event_types : list Js.value :=
  [ VStr "login_attempt"; VStr "checkout_attempt"; VStr "risk_assessment";
    VStr "security_alert"; VStr "auth_failure" ].

(** [validate.isIn] of the [action_taken] column. *)
Definition declared_actions : list Js.value :=
  [ VStr "allowed"; VStr "blocked"; VStr "requires_review";
    VStr "additional_auth_required"; VStr "error_fallback"; VStr "assessed";
    VStr "alert_generated" ].

(** A row that meets the declarations on [event_type], [action_taken]
    and [ip_address] (which is [allowNull: false]). *)
Definition well_declared (row : Js.value) : bool :=
  Js.includes declared_event_types (Js.optchain row "event_type")
  && Js.includes declared_actions (Js.optchain row "action_taken")
  && negb (nullish (Js.optchain row "ip_address")).

(** [w'] has the audit log of [w] with at most [n] further rows, each
    satisfying [P], at its end. *)
Definition grows (P : Js.value -> Prop) (n : nat) (w w' : World) : Prop :=
  exists new,
    audit w' = (audit w ++ new)%list
    /\ (List.length new <= n)%nat
    /\ Forall P new.

(** [grows] restricted to rows that meet the declarations. *)
Definition declared (row : Js.value) : Prop := well_declared row = true.

(* ===================================================================== *)
(** ** The string hash as a polynomial *)
(* ===================================================================== *)

(** Horner evaluation at 31 over the integers, without wrap-around:
    [h * 31^n + c_1 * 31^(n-1) + ... + c_n] for the code units [c_i]. *)
Fixpoint horner (h : Z) (str : string) : Z :=
  match str with
  | EmptyString => h
  | String c rest => horner (31 * h + Fingerprint.charCode c) rest
  end.

(** Successive calls of [collect()] on one collector, each with what the
    sources would settle to at that moment; the tokens returned, in
    order. *)
Fixpoint collect_all (runs : list (list Fingerprint.Settled))
         (this : Fingerprint.Collector) : list string :=
  match runs with
  | [] => []
  | components :: rest =>
      let (this', token) := Fingerprint.collect components this in
      token :: collect_all rest this'
  end.

(** [new FingerprintCollector()] *)
Definition new_collector : Fingerprint.Collector :=
  {| Fingerprint.fingerprint := None; Fingerprint.fingerprintPromise := None |}.

(* ===================================================================== *)
(** ** The account model (models/User.js) *)
(* ===================================================================== *)

Module User.

(** One element of [risk_level_history]. *)
Record Entry : Type := mkEntry {
  score : Z;
  timestamp : string
}.

(** The fields of a [User] instance the security methods read and write.
    Dates are milliseconds since the epoch, [None] is [null].  Scores are
    integers, as the [security_score_avg] column is. *)
Record t : Type := mkUser {
  id : Js.value;
  last_login_at : option Z;
  last_login_ip : Js.value;
  failed_login_attempts : Z;
  locked_until : option Z;
  security_score_avg : option Z;
  risk_level_history : option (list Entry)
}.

(** The lock period, [15 * 60 * 1000] milliseconds. *)
Definition lock_period : Z := 15 * 60 * 1000.

(** [updateLoginInfo(ipAddress)] called at time [now]: the instance as
    handed to [save()]. *)
Definition updateLoginInfo (now : Z) (ipAddress : Js.value) (this : t) : t :=
  {| id := id this;
     last_login_at := Some now;
     last_login_ip := ipAddress;
     failed_login_attempts := 0;
     locked_until := None;
     security_score_avg := security_score_avg this;
     risk_level_history := risk_level_history this |}.

(** [handleFailedLogin()] called at time [now]. *)
Definition handleFailedLogin (now : Z) (this : t) : t :=
  let attempts := failed_login_attempts this + 1 in
  {| id := id this;
     last_login_at := last_login_at this;
     last_login_ip := last_login_ip this;
     failed_login_attempts := attempts;
     locked_until := if 5 <=? attempts then Some (now + lock_period)
                     else locked_until this;
     security_score_avg := security_score_avg this;
     risk_level_history := risk_level_history this |}.

(** [isLocked()] evaluated at time [now]:
    [this.locked_until && new Date() < this.locked_until]. *)
Definition isLocked (now : Z) (this : t) : Js.value :=
  match locked_until this with
  | None => VNull
  | Some limit => VBool (now <? limit)
  end.

(** [array.slice(-n)] *)
Definition slice_last {A : Type} (n : nat) (items : list A) : list A :=
  skipn (List.length items - n) items.

(** [scores.reduce((a, b) => a + b, 0)] *)
Definition sum (scores : list Z) : Z := fold_left Z.add scores 0.

(** [Math.round(total / count)] for an integer [total] and a positive
    [count]: the nearest integer, halves rounded up. *)
Definition round_div (total count : Z) : Z := (2 * total + count) / (2 * count).

(** [updateSecurityScore(newScore)] with [now_iso] the clock reading.
    [history] is the array with the new entry pushed; the average is
    taken over it, the stored history is its last ten entries. *)
Definition updateSecurityScore (now_iso : string) (newScore : Z) (this : t) : t :=
  let history :=
    (match risk_level_history this with
     | Some entries => entries
     | None => []
     end ++ [ {| score := newScore; timestamp := now_iso |} ])%list in
  let scores := map score history in
  {| id := id this;
     last_login_at := last_login_at this;
     last_login_ip := last_login_ip this;
     failed_login_attempts := failed_login_attempts this;
     locked_until := locked_until this;
     security_score_avg :=
       Some (round_div (sum scores) (Z.of_nat (List.length scores)));
     risk_level_history := Some (slice_last 10 history) |}.

(** [handleFailedLogin()] at each of the given times in turn. *)
Fixpoint failures (times : list Z) (this : t) : t :=
  match times with
  | [] => this
  | now :: rest => failures rest (handleFailedLogin now this)
  end.

(** [updateSecurityScore] for each of the given scores in turn, each
    with the clock reading of its call. *)
Fixpoint scored (updates : list (string * Z)) (this : t) : t :=
  match updates with
  | [] => this
  | (now_iso, newScore) :: rest =>
      scored rest (updateSecurityScore now_iso newScore this)
  end.

(** Every recorded score lies between 0 and 100. *)
Definition history_in_range (this : t) : Prop :=
  match risk_level_history this with
  | Some entries => Forall (fun e => 0 <= score e <= 100) entries
  | None => True
  end.

(** The stored history holds at most ten entries. *)
Definition history_bounded (this : t) : Prop :=
  match risk_level_history this with
  | Some entries => (List.length entries <= 10)%nat
  | None => True
  end.

End User.

(* ===================================================================== *)
(** ** The global error handler (middleware/errorHandler.js) *)
(* ===================================================================== *)

Module ErrorHandler.

(** The local [error] object; [details] is [undefined] where the literal
    has no such key. *)
Record Shape : Type := mkShape {
  status : Z;
  message : string;
  code : string;
  details : Js.value
}.

(** [items.map(e => ({ field: e.path, message: e.message }))] *)
Fixpoint field_errors (items : list Js.value) : Result (list Js.value) :=
  match items with
  | [] => Return []
  | e :: rest =>
      match getprop e "path" with
      | Throw failure => Throw failure
      | Return path =>
          match field_errors rest with
          | Throw failure => Throw failure
          | Return mapped =>
              Return (VObj [("field", path); ("message", Js.optchain e "message")]
                        :: mapped)
          end
      end
  end.

(** [err.errors.map(...)] on whatever [err.errors] is. *)
Definition map_field_errors (errors : Js.value) : Result Js.value :=
  match errors with
  | VUndef => Throw (TypeError "Cannot read properties of undefined (reading 'map')")
  | VNull => Throw (TypeError "Cannot read properties of null (reading 'map')")
  | VArr items =>
      match field_errors items with
      | Throw failure => Throw failure
      | Return mapped => Return (VArr mapped)
      end
  | _ => Throw (TypeError "err.errors.map is not a function")
  end.

(** [errorHandler(err, req, res, next)]: the status and the JSON body it
    answers with.  [now_iso] is the clock reading, [originalUrl] and
    [method] are read from the request. *)
Definition errorHandler (now_iso : string) (err originalUrl method : Js.value)
  : Result (Z * Js.value) :=
  match getprop err "name" with
  | Throw failure => Throw failure
  | Return name =>
      let error :=
        {| status := 500; message := "Internal Server Error";
           code := "INTERNAL_ERROR"; details := VUndef |} in
      let error :=
        if Js.strict_eq name (VStr "ValidationError") then
          {| status := 400; message := "Validation Error";
             code := "VALIDATION_ERROR";
             details := Js.either (Js.optchain err "errors")
                                  (Js.optchain err "message") |}
        else error in
      let error :=
        if Js.strict_eq name (VStr "JsonWebTokenError") then
          {| status := 401; message := "Invalid token";
             code := "INVALID_TOKEN"; details := VUndef |}
        else error in
      match (if Js.strict_eq name (VStr "SequelizeValidationError") then
               match map_field_errors (Js.optchain err "errors") with
               | Throw failure => Throw failure
               | Return mapped =>
                   Return {| status := 400; message := "Database validation error";
                             code := "DATABASE_VALIDATION_ERROR";
                             details := mapped |}
               end
             else Return error) with
      | Throw failure => Throw failure
      | Return error =>
          let error :=
            if Js.strict_eq name (VStr "IDRockAPIError") then
              {| status := 503; message := "Security service error";
                 code := "SECURITY_SERVICE_ERROR";
                 details := Js.optchain err "message" |}
            else error in
          Return (status error,
                  VObj ([ ("error", VStr (message error));
                          ("code", VStr (code error)) ]
                        ++ (if Js.truthy (details error)
                            then [("details", details error)] else [])
                        ++ [ ("timestamp", VStr now_iso);
                             ("path", originalUrl);
                             ("method", method) ]))
      end
  end.

(** The errors the handler can answer: [err] has properties, and when it
    is a [SequelizeValidationError] its [errors] is an array without
    holes. *)
Definition answerable (err : Js.value) : Prop :=
  nullish err = false
  /\ (Js.strict_eq (Js.optchain err "name") (VStr "SequelizeValidationError") = true ->
      exists items,
        Js.optchain err "errors" = VArr items
        /\ Forall (fun e => nullish e = false) items).

(** The status, message and code of each of the five answers. *)
Definition answers : list (Z * Js.value * Js.value) :=
  [ (500, VStr "Internal Server Error", VStr "INTERNAL_ERROR");
    (400, VStr "Validation Error", VStr "VALIDATION_ERROR");
    (401, VStr "Invalid token", VStr "INVALID_TOKEN");
    (400, VStr "Database validation error", VStr "DATABASE_VALIDATION_ERROR");
    (503, VStr "Security service error", VStr "SECURITY_SERVICE_ERROR") ].

End ErrorHandler.

(* ===================================================================== *)
(** ** The browser SDK (public/js/idrock-sdk.js, class IDRockSDK) *)
(* ===================================================================== *)

Module Browser.

(** What a rejected promise or a [throw] carries in the page: an [Error]
    made by the SDK, a value thrown by the host (a rejected [fetch], a
    failed [response.json()], a failing collector), or an engine error. *)
Inductive Thrown : Type :=
| NewError (message : string)
| Value (reason : Js.value)
| Native (e : Exn).

Inductive Attempt (A : Type) : Type :=
| Done (a : A)
| Fails (t : Thrown).
Arguments Done {A} a.
Arguments Fails {A} t.

(** [this.config] *)
Record Config : Type := mkConfig {
  apiEndpoint : Js.value;
  timeout : Js.value;
  retryAttempts : Js.value;
  debug : Js.value;
  enableFingerprinting : bool;
  enableSessionTracking : bool
}.

(** [this.stats] *)
Record Stats : Type := mkStats {
  collectionsCount : Z;
  requestsCount : Z;
  errorsCount : Z
}.

(** An SDK instance.  [sent] is not a field of the object: it records
    the calls of [fetch] the instance has made, the URL and the value
    whose [JSON.stringify] is the body. *)
Record Sdk : Type := mkSdk {
  config : Config;
  fingerprintCollector : Fingerprint.Collector;
  stats : Stats;
  sent : list (string * Js.value)
}.

(** [new IDRockSDK(config)], with [config = {}] by default. *)
Definition IDRockSDK (options : Js.value) : Attempt Sdk :=
  let options := match options with
                 | VUndef => VObj []
                 | given => given
                 end in
  match getprop options "apiEndpoint" with
  | Throw e => Fails (Native e)
  | Return endpoint =>
      Done {| config :=
                {| apiEndpoint := Js.either endpoint (VStr "/api/security");
                   timeout := Js.either (Js.optchain options "timeout") (VNum 5000);
                   retryAttempts :=
                     Js.either (Js.optchain options "retryAttempts") (VNum 3);
                   debug := Js.either (Js.optchain options "debug") (VBool false);
                   enableFingerprinting :=
                     negb (Js.strict_eq (Js.optchain options "enableFingerprinting")
                                        (VBool false));
                   enableSessionTracking :=
                     negb (Js.strict_eq (Js.optchain options "enableSessionTracking")
                                        (VBool false)) |};
              fingerprintCollector :=
                {| Fingerprint.fingerprint := None;
                   Fingerprint.fingerprintPromise := None |};
              stats := {| collectionsCount := 0; requestsCount := 0;
                          errorsCount := 0 |};
              sent := [] |}
  end.

(** What the page offers at the time of one call: [navigator.userAgent],
    the clock, what the six fingerprint sources settle to, what
    [SessionDataCollector.collect()] returns or throws, the token the
    fallback derives from the clock and [Math.random()], and
    [window.location.href]. *)
Record Env : Type := mkEnv {
  userAgent : Js.value;
  now_iso : string;
  components : list Fingerprint.Settled;
  session_data : Attempt Js.value;
  fallback_token : string;
  href : Js.value
}.

Definition count_collection (s : Stats) : Stats :=
  {| collectionsCount := collectionsCount s + 1;
     requestsCount := requestsCount s;
     errorsCount := errorsCount s |}.

Definition count_request (s : Stats) : Stats :=
  {| collectionsCount := collectionsCount s;
     requestsCount := requestsCount s + 1;
     errorsCount := errorsCount s |}.

Definition count_error (s : Stats) : Stats :=
  {| collectionsCount := collectionsCount s;
     requestsCount := requestsCount s;
     errorsCount := errorsCount s + 1 |}.

Definition _getFallbackData (env : Env) (actionType additionalData : Js.value)
  : Js.value :=
  VObj [ ("action_type", actionType);
         ("timestamp", VStr (now_iso env));
         ("user_agent", Js.either (userAgent env) (VStr "unknown"));
         ("device_fingerprint", VStr (fallback_token env));
         ("session_data", VObj [ ("timestamp", VStr (now_iso env));
                                 ("fallback", VBool true);
                                 ("url", href env) ]);
         ("additional_data", additionalData);
         ("fallback", VBool true) ].

(** [collectRiskData(actionType, additionalData = {})] *)
Definition collectRiskData (env : Env) (actionType additionalData : Js.value)
           (this : Sdk) : Sdk * Js.value :=
  let additionalData := match additionalData with
                        | VUndef => VObj []
                        | given => given
                        end in
  let counted := count_collection (stats this) in
  let riskData := [ ("action_type", actionType);
                    ("timestamp", VStr (now_iso env));
                    ("user_agent", userAgent env);
                    ("additional_data", additionalData) ] in
  let (collector, riskData) :=
    if enableFingerprinting (config this) then
      let (collector, token) :=
        Fingerprint.collect (components env) (fingerprintCollector this) in
      (collector, Js.assign "device_fingerprint" (VStr token) riskData)
    else (fingerprintCollector this, riskData) in
  let collected :=
    if enableSessionTracking (config this) then
      match session_data env with
      | Done session => Done (Js.assign "session_data" session riskData)
      | Fails t => Fails t
      end
    else Done riskData in
  match collected with
  | Done riskData =>
      ({| config := config this; fingerprintCollector := collector;
          stats := counted; sent := sent this |},
       VObj riskData)
  | Fails _ =>
      ({| config := config this; fingerprintCollector := collector;
          stats := count_error counted; sent := sent this |},
       _getFallbackData env actionType additionalData)
  end.

(** A [Response]: its status, its status text, and what
    [response.json()] resolves to or rejects with. *)
Record Response : Type := mkResponse {
  status : Z;
  statusText : string;
  json : Attempt Js.value
}.

(** [response.ok] *)
Definition ok (response : Response) : bool := ok_status (status response).

(** What one call of [fetch] settles to. *)
Inductive FetchReply : Type :=
| Responded (response : Response)
| Rejects (reason : Js.value).

(** [_makeRequest(url, options)]: one call of [fetch]; the abort timer
    shows as a rejection named [AbortError]. *)
Definition _makeRequest (net : nat -> FetchReply) (url : string)
           (payload : Js.value) (this : Sdk) : Sdk * Attempt Response :=
  let issued := {| config := config this;
                   fingerprintCollector := fingerprintCollector this;
                   stats := stats this;
                   sent := (sent this ++ [(url, payload)])%list |} in
  match net (List.length (sent this)) with
  | Responded response => (issued, Done response)
  | Rejects reason =>
      match getprop reason "name" with
      | Throw e => (issued, Fails (Native e))
      | Return name =>
          if Js.strict_eq name (VStr "AbortError")
          then (issued, Fails (NewError "Request timeout"))
          else (issued, Fails (Value reason))
      end
  end.

Definition with_stats (f : Stats -> Stats) (this : Sdk) : Sdk :=
  {| config := config this;
     fingerprintCollector := fingerprintCollector this;
     stats := f (stats this);
     sent := sent this |}.

(** [sendToBackend(riskData, endpoint = '/assess')] *)
Definition sendToBackend (net : nat -> FetchReply) (riskData endpoint : Js.value)
           (this : Sdk) : Sdk * Attempt Js.value :=
  let endpoint := match endpoint with
                  | VUndef => VStr "/assess"
                  | given => given
                  end in
  let counted := with_stats count_request this in
  let url := (Js.to_string (apiEndpoint (config this)) ++ Js.to_string endpoint)%string in
  let fail (this : Sdk) (t : Thrown) : Sdk * Attempt Js.value :=
    (with_stats count_error this, Fails t) in
  match _makeRequest net url riskData counted with
  | (this1, Fails t) => fail this1 t
  | (this1, Done response) =>
      if negb (ok response) then
        fail this1 (NewError ("HTTP " ++ Js.num_to_string (status response)
                              ++ ": " ++ statusText response))
      else
        match json response with
        | Fails t => fail this1 t
        | Done result => (this1, Done result)
        end
  end.

(** [assessLogin(username, additionalData = {})] *)
Definition assessLogin (net : nat -> FetchReply) (env : Env)
           (username additionalData : Js.value) (this : Sdk)
  : Sdk * Attempt Js.value :=
  let additionalData := match additionalData with
                        | VUndef => VObj []
                        | given => given
                        end in
  let (this1, riskData) :=
    collectRiskData env (VStr "login")
      (VObj (Js.spread [("username", username)] additionalData)) this in
  sendToBackend net riskData (VStr "/login-assess") this1.

(** [assessCheckout(orderData)] *)
Definition assessCheckout (net : nat -> FetchReply) (env : Env)
           (orderData : Js.value) (this : Sdk) : Sdk * Attempt Js.value :=
  match getprop orderData "totalAmount" with
  | Throw e => (this, Fails (Native e))
  | Return totalAmount =>
      let (this1, riskData) :=
        collectRiskData env (VStr "checkout")
          (VObj [ ("order_amount", totalAmount);
                  ("payment_method", Js.optchain orderData "paymentMethod");
                  ("shipping_address", Js.optchain orderData "shippingAddress");
                  ("item_count",
                   Js.either (Js.optchain orderData "itemCount") (VNum 1)) ])
          this in
      sendToBackend net riskData (VStr "/checkout-assess") this1
  end.

(** One call of a public method. *)
Inductive Call : Type :=
| CallCollect (env : Env) (actionType additionalData : Js.value)
| CallSend (riskData endpoint : Js.value)
| CallLogin (env : Env) (username additionalData : Js.value)
| CallCheckout (env : Env) (orderData : Js.value).

Definition call (net : nat -> FetchReply) (c : Call) (this : Sdk) : Sdk :=
  match c with
  | CallCollect env actionType additionalData =>
      fst (collectRiskData env actionType additionalData this)
  | CallSend riskData endpoint => fst (sendToBackend net riskData endpoint this)
  | CallLogin env username additionalData =>
      fst (assessLogin net env username additionalData this)
  | CallCheckout env orderData => fst (assessCheckout net env orderData this)
  end.

(** The calls made one after the other on one instance. *)
Fixpoint calls (net : nat -> FetchReply) (cs : list Call) (this : Sdk) : Sdk :=
  match cs with
  | [] => this
  | c :: rest => calls net rest (call net c this)
  end.

(** The counters agree with what the instance did: one [fetch] per
    counted request, and no more errors than operations. *)
Definition consistent (this : Sdk) : Prop :=
  requestsCount (stats this) = Z.of_nat (List.length (sent this))
  /\ 0 <= errorsCount (stats this)
     <= collectionsCount (stats this) + requestsCount (stats this)
  /\ 0 <= collectionsCount (stats this).

End Browser.

Module BrowserSample.
Import Browser.

Definition page : Env :=
  {| userAgent := VStr "Mozilla/5.0";
     now_iso := "2025-09-08T12:00:00.000Z";
     components := [ Fingerprint.Fulfilled (VStr "canvas_error");
                     Fingerprint.Fulfilled (VStr "no_webgl");
                     Fingerprint.Fulfilled (VStr "Europe/Lisbon|-60") ];
     session_data := Done (VObj [("timestamp", VStr "2025-09-08T12:00:00.000Z")]);
     fallback_token := "fallback_1757332800000_k3j9x0q2a";
     href := VStr "https://shop.example/checkout" |}.

(** A page on which the session collector throws. *)
Definition bare_page : Env :=
  {| userAgent := VStr "Mozilla/5.0";
     now_iso := "2025-09-08T12:00:00.000Z";
     components := components page;
     session_data := Fails (Native (TypeError "matchMedia is not a function"));
     fallback_token := "fallback_1757332800000_k3j9x0q2a";
     href := VStr "https://shop.example/checkout" |}.

Definition backend_ok : nat -> FetchReply :=
  fun _ => Responded {| status := 200; statusText := "OK";
                        json := Done (VObj [("success", VBool true)]) |}.

Definition backend_down : nat -> FetchReply :=
  fun _ => Responded {| status := 503; statusText := "Service Unavailable";
                        json := Done VNull |}.

Definition stalled : nat -> FetchReply :=
  fun _ => Rejects (VObj [("name", VStr "AbortError")]).

(** [new IDRockSDK({ retryAttempts: 5 })] *)
Definition sdk : Sdk :=
  {| config := {| apiEndpoint := VStr "/api/security";
                  timeout := VNum 5000;
                  retryAttempts := VNum 5;
                  debug := VBool false;
                  enableFingerprinting := true;
                  enableSessionTracking := true |};
     fingerprintCollector := {| Fingerprint.fingerprint := None;
                                Fingerprint.fingerprintPromise := None |};
     stats := {| collectionsCount := 0; requestsCount := 0; errorsCount := 0 |};
     sent := [] |}.

End BrowserSample.

(* ===================================================================== *)
(** ** The routes behind the handlers (routes/security.js, routes/orders.js) *)
(* ===================================================================== *)

(** A route: the middleware runs first, and the route handler runs on
    the request it hands on, if it does. *)
Definition mounted (run : World * Outcome) (handler : Request -> Outcome)
  : World * Outcome :=
  match run with
  | (w, Next req) => (w, handler req)
  | (w, other) => (w, other)
  end.

(** The handler of [POST /assess]. *)
Definition assess_handler (amb : Ambient) (req : Request) : Outcome :=
  Respond 200 (VObj [ ("assessment", annotation "idrockAssessment" req);
                      ("action_type", annotation "riskActionType" req);
                      ("timestamp", VStr (now_iso amb)) ]).

(** [riskAssessment.recommendations?.map(r => r.message) || []] *)
Definition reasons_or_none (riskAssessment : Js.value) : Result Js.value :=
  match getprop riskAssessment "recommendations" with
  | Throw error => Throw error
  | Return VUndef | Return VNull => Return (VArr [])
  | Return (VArr items) =>
      match messages items with
      | Throw error => Throw error
      | Return reasons => Return (VArr reasons)
      end
  | Return _ =>
      Throw (TypeError "riskAssessment.recommendations?.map is not a function")
  end.

(** The handler of [POST /login-assess]. *)
Definition login_assess_handler (amb : Ambient) (req : Request) : Outcome :=
  let riskAssessment := annotation "idrockAssessment" req in
  let answer :=
    match getprop riskAssessment "risk_level" with
    | Throw error => Throw error
    | Return level =>
        match reasons_or_none riskAssessment with
        | Throw error => Throw error
        | Return reasons =>
            Return (VObj [
              ("assessment", riskAssessment);
              ("recommendations", VObj [
                 ("proceed", VBool (Js.strict_eq level (VStr "ALLOW")));
                 ("require_additional_auth",
                  VBool (Js.strict_eq level (VStr "REVIEW")));
                 ("block", VBool (Js.strict_eq level (VStr "DENY")));
                 ("reasons", reasons) ]);
              ("timestamp", VStr (now_iso amb)) ])
        end
    end in
  match answer with
  | Return payload => Respond 200 payload
  | Throw error =>
      Respond 500 (VObj [ ("error", VStr "Login assessment failed");
                          ("message", VStr (error_message error)) ])
  end.

(** [POST /api/security/assess] and [POST /api/security/login-assess]. *)
Definition assess_endpoint (server : nat -> HttpReply) (idrock : Config.Idrock)
           (amb : Ambient) (req : Request) (w : World) : World * Outcome :=
  mounted (assessRisk server idrock amb "generic" req w) (assess_handler amb).

Definition login_assess_endpoint (server : nat -> HttpReply)
           (idrock : Config.Idrock) (amb : Ambient) (req : Request) (w : World)
  : World * Outcome :=
  mounted (assessRisk server idrock amb "login" req w) (login_assess_handler amb).

(** The handler of [POST /checkout].  [errors] is what the validators of
    the route found, [order_id] the identifier made from the clock and
    [Math.random()]. *)
Definition checkout_handler (errors : list Js.value) (order_id : string)
           (amb : Ambient) (req : Request) : Outcome :=
  if negb (match errors with [] => true | _ => false end) then
    Respond 400 (VObj [ ("error", VStr "Validation failed");
                        ("details", VArr errors) ])
  else
    let totalAmount := Js.lookup "totalAmount" (body req) in
    let paymentMethod := Js.lookup "paymentMethod" (body req) in
    let items := Js.lookup "items" (body req) in
    let riskAssessment := annotation "idrockAssessment" req in
    if Js.truthy (annotation "requiresReview" req) then
      Respond 202 (VObj [
        ("status", VStr "review_required");
        ("message", VStr "Transaction requires additional review");
        ("security_reasons",
         Js.either (annotation "securityReasons" req) (VArr []));
        ("risk_assessment",
         if Js.truthy riskAssessment then
           VObj [ ("risk_level", Js.optchain riskAssessment "risk_level");
                  ("confidence_score", Js.optchain riskAssessment "confidence_score");
                  ("request_id", Js.optchain riskAssessment "request_id") ]
         else VNull);
        ("next_steps",
         VArr [ VStr "Transaction will be reviewed manually";
                VStr "You will receive confirmation within 24 hours";
                VStr "Payment will not be charged until approval" ]) ])
    else
      let response :=
        [ ("message", VStr "Checkout successful");
          ("order", VObj [ ("id", VStr order_id);
                           ("status", VStr "confirmed");
                           ("total_amount", totalAmount);
                           ("payment_method", paymentMethod);
                           ("items", items);
                           ("created_at", VStr (now_iso amb)) ]) ] in
      let response :=
        if Js.truthy riskAssessment then
          Js.assign "security"
            (VObj [ ("risk_level", Js.optchain riskAssessment "risk_level");
                    ("confidence_score", Js.optchain riskAssessment "confidence_score");
                    ("request_id", Js.optchain riskAssessment "request_id");
                    ("service_available",
                     VBool (negb (Js.strict_eq (annotation "idrockServiceAvailable" req)
                                               (VBool false)))) ])
            response
        else response in
      Respond 200 (VObj response).

(** [POST /api/orders/checkout] *)
Definition checkout_endpoint (server : nat -> HttpReply) (idrock : Config.Idrock)
           (amb : Ambient) (store : list Js.value -> Js.value -> bool)
           (validationResult : Request -> list Js.value) (order_id : string)
           (req : Request) (w : World) : World * Outcome :=
  mounted (protectCheckout server idrock amb store req w)
          (fun req' => checkout_handler (validationResult req') order_id amb req').

(** The order was confirmed. *)
Definition confirmed (o : Outcome) : Prop :=
  exists payload,
    o = Respond 200 payload
    /\ Js.optchain (Js.optchain payload "order") "status" = VStr "confirmed".

(* ===================================================================== *)
(** ** Strings *)
(* ===================================================================== *)

Module StringFacts.

Lemma append_assoc (s t u : string) : ((s ++ t) ++ u = s ++ (t ++ u))%string.
Proof. induction s as [|c s IH]; simpl; [reflexivity | rewrite IH; reflexivity]. Qed.

Lemma append_nil_r (s : string) : (s ++ "" = s)%string.
Proof. induction s as [|c s IH]; simpl; [reflexivity | rewrite IH; reflexivity]. Qed.

Lemma length_append (s t : string) :
  String.length (s ++ t) = (String.length s + String.length t)%nat.
Proof. induction s as [|c s IH]; simpl; [reflexivity | rewrite IH; reflexivity]. Qed.

Lemma append_empty s t :
  (s ++ t)%string = EmptyString -> s = EmptyString /\ t = EmptyString.
Proof. destruct s; simpl; [auto | discriminate]. Qed.

End StringFacts.

(* ===================================================================== *)
(** ** The HTTP layer: retries *)
(* ===================================================================== *)

(** The defining equation of [httpClient], in one piece. *)
Lemma httpClient_body server sdk config w :
  httpClient server sdk config w =
  match transmit server config w with
  | (w1, Return response) => (w1, Return response)
  | (w1, Throw error) =>
      if shouldRetry sdk config error
      then httpClient server sdk (bump config)
             (emit (Backoff (backoff_delay sdk (bump config))) w1)
      else (w1, Throw error)
  end.
Proof.
  funelim (httpClient server sdk config w).
  - rewrite Heq. reflexivity.
  - rewrite Heq, e. reflexivity.
  - rewrite Heq, e. reflexivity.
Qed.

(** A transmission is one more attempt. *)
Lemma attempts_emit_transmit m u w :
  attempts (emit (Transmit m u) w) = S (attempts w).
Proof.
  unfold attempts, emit; simpl.
  rewrite filter_app, length_app; simpl. lia.
Qed.

(** A wait is no attempt. *)
Lemma attempts_emit_backoff d w :
  attempts (emit (Backoff d) w) = attempts w.
Proof.
  unfold attempts, emit; simpl.
  rewrite filter_app, length_app; simpl. lia.
Qed.

(** A transmission is no wait. *)
Lemma backoffs_emit_transmit m u w :
  backoffs (emit (Transmit m u) w) = backoffs w.
Proof.
  unfold backoffs, emit; simpl.
  rewrite flat_map_app; simpl. apply app_nil_r.
Qed.

(** Whatever the service answers, sending a request and following its
    redirects leaves transmissions on the wire and nothing else: at least
    one and at most one more than the redirects allowed; the counters and
    the audit log are not touched. *)
Lemma follow_effect server budget : forall m u w,
  let w' := fst (follow server budget m u w) in
  stats w' = stats w /\ audit w' = audit w /\ backoffs w' = backoffs w
  /\ (S (attempts w) <= attempts w' <= attempts w + S budget)%nat
  /\ exists rest,
       wire w' = (wire w ++ Transmit m u :: rest)%list
       /\ Forall (fun e => is_transmit e = true) rest.
Proof.
  assert (Hone : forall (b : nat) m u w,
            stats (emit (Transmit m u) w) = stats w
            /\ audit (emit (Transmit m u) w) = audit w
            /\ backoffs (emit (Transmit m u) w) = backoffs w
            /\ (S (attempts w) <= attempts (emit (Transmit m u) w)
                <= attempts w + S b)%nat
            /\ exists rest,
                 wire (emit (Transmit m u) w) = (wire w ++ Transmit m u :: rest)%list
                 /\ Forall (fun e => is_transmit e = true) rest).
  { intros b m u w. rewrite backoffs_emit_transmit, attempts_emit_transmit.
    repeat split; try lia. exists []. split; [reflexivity | constructor]. }
  induction budget as [|budget IH]; intros m u w; cbn [follow].
  - destruct (server (attempts w)) as [st txt d| |st txt d location]; cbn [fst];
      try apply Hone.
    destruct ((300 <=? st) && (st <? 400)); cbn [fst]; apply Hone.
  - destruct (server (attempts w)) as [st txt d| |st txt d location]; cbn [fst];
      try apply Hone.
    destruct ((300 <=? st) && (st <? 400)); cbn [fst]; [|apply Hone].
    specialize (IH (redirect_method st m) location (emit (Transmit m u) w)).
    cbv zeta in IH. destruct IH as (H1 & H2 & H3 & H4 & rest & H5 & H6).
    rewrite attempts_emit_transmit, backoffs_emit_transmit in *.
    repeat split; try assumption; try lia.
    exists (Transmit (redirect_method st m) location :: rest). split.
    + rewrite H5. cbn [emit wire]. rewrite <- app_assoc. reflexivity.
    + constructor; [reflexivity | exact H6].
Qed.

Lemma transmit_effect server config w :
  let w' := fst (transmit server config w) in
  stats w' = stats w /\ audit w' = audit w /\ backoffs w' = backoffs w
  /\ (S (attempts w) <= attempts w' <= attempts w + S maxRedirects)%nat.
Proof.
  destruct (follow_effect server maxRedirects (method config) (url config) w)
    as (H1 & H2 & H3 & H4 & _).
  unfold transmit. auto.
Qed.

(** When the first answer is no redirect, the request is the only one. *)
Lemma transmit_direct server config w :
  redirects (server (attempts w)) = false ->
  transmit server config w
  = (emit (Transmit (method config) (url config)) w,
     match server (attempts w) with
     | Reply st txt d | Located st txt d _ => settle (mkResponse st txt d)
     | NoReply => Throw (AxiosError None "Network Error")
     end).
Proof.
  unfold transmit, maxRedirects, redirects. cbn [follow].
  destruct (server (attempts w)) as [st txt d| |st txt d location];
    try reflexivity.
  intros ->. reflexivity.
Qed.

(** On a config whose counter is still [undefined] the interceptor's
    condition is false whatever the error and the configured maximum:
    [undefined < n] does not hold. *)
Lemma shouldRetry_undefined sdk m u error :
  shouldRetry sdk {| method := m; url := u; _retryCount := None |} error = false.
Proof. reflexivity. Qed.

(** After a retry was granted the counter is 1, and the interceptor never
    grants another: [!config._retryCount] is false. *)
Lemma shouldRetry_once sdk config error error' :
  shouldRetry sdk config error = true ->
  shouldRetry sdk (bump config) error' = false.
Proof.
  unfold shouldRetry, bump; simpl.
  destruct (_retryCount config) as [k|]; simpl; [|discriminate].
  destruct (k =? 0) eqn:E; simpl; [reflexivity|discriminate].
Qed.

(** A request issued through [post] or [get] is transmitted exactly once. *)
Lemma fresh_request_once server sdk m u w :
  httpClient server sdk {| method := m; url := u; _retryCount := None |} w
  = transmit server {| method := m; url := u; _retryCount := None |} w.
Proof.
  rewrite httpClient_body.
  destruct (transmit server _ w) as [w1 [response|error]]; [reflexivity|].
  rewrite shouldRetry_undefined. reflexivity.
Qed.

(** The counters are not on the wire. *)
Lemma attempts_with_stats f w : attempts (with_stats f w) = attempts w.
Proof. reflexivity. Qed.

Lemma backoffs_with_stats f w : backoffs (with_stats f w) = backoffs w.
Proof. reflexivity. Qed.

(** C1 (the code departs from the claim).  With the shipped settings
    (three retries, 1000 ms base delay) and a scoring service that answers
    every request with 503, [verifyIdentity] transmits once, waits never,
    and fails with the wrapped 503: zero retries instead of three. *)
Theorem verifyIdentity_503_is_not_retried :
  let run := verifyIdentity Sample.always_503 Sample.config Sample.sdk
               (Sample.identity "192.168.1.100" "login") fresh_world in
  retryAttempts Sample.sdk = 3
  /\ attempts (fst run) = 1%nat
  /\ backoffs (fst run) = []
  /\ snd run = Throw (IDRockAPIError
                        "Failed to verifyIdentity: HTTP 503 Service Unavailable"
                        (Some (AxiosError
                                 (Some (mkResponse 503 "Service Unavailable" VNull))
                                 "Request failed with status code 503"))
                        (Some 503)).
Proof. vm_compute. repeat split. Qed.

(* ===================================================================== *)
(** ** The address pattern *)
(* ===================================================================== *)

Module RegexFacts.
Import Regex StringFacts.

(** [nullable] decides membership of the empty string. *)
Lemma nullable_spec r : nullable r = true <-> lang r EmptyString.
Proof.
  induction r as [| |p|a IHa b IHb|a IHa b IHb]; simpl.
  - split; [discriminate | inversion 1].
  - split; [constructor | reflexivity].
  - split; [discriminate | inversion 1].
  - rewrite andb_true_iff, IHa, IHb. split.
    + intros [Ha Hb]. change EmptyString with (EmptyString ++ EmptyString)%string.
      constructor; assumption.
    + intros H. inversion H as [| |a' b' s t Hs Ht Heq Heq'| |]; subst.
      apply append_empty in Heq' as [-> ->]. auto.
  - rewrite orb_true_iff, IHa, IHb. split.
    + intros [H|H]; [apply lang_alt_l | apply lang_alt_r]; assumption.
    + intros H. inversion H; subst; auto.
Qed.

Lemma lang_void s : ~ lang Void s.
Proof. inversion 1. Qed.

Lemma lang_eps_inv s : lang Eps s -> s = EmptyString.
Proof. inversion 1. reflexivity. Qed.

Lemma lang_seq_inv a b s :
  lang (Seq a b) s -> exists u v, s = (u ++ v)%string /\ lang a u /\ lang b v.
Proof. inversion 1; subst. eauto. Qed.

Lemma lang_alt_inv a b s : lang (Alt a b) s -> lang a s \/ lang b s.
Proof. inversion 1; subst; auto. Qed.

Lemma lang_class_inv p s :
  lang (Class p) s -> exists c, s = String c EmptyString /\ p c = true.
Proof. inversion 1; subst. eauto. Qed.

(** The simplifying constructors denote what the plain ones do. *)
Lemma seq_spec a b s : lang (seq a b) s <-> lang (Seq a b) s.
Proof.
  split.
  - intros H.
    destruct a; simpl in H; try (exfalso; exact (lang_void _ H));
      destruct b; simpl in H; try (exfalso; exact (lang_void _ H));
      try exact H;
      change s with (EmptyString ++ s)%string; constructor;
      first [exact H | constructor].
  - intros H. apply lang_seq_inv in H as (u & v & -> & Hu & Hv).
    destruct a; try (exfalso; exact (lang_void _ Hu));
      destruct b; try (exfalso; exact (lang_void _ Hv)); simpl;
      try (constructor; assumption);
      apply lang_eps_inv in Hu; subst u; exact Hv.
Qed.

Lemma alt_spec a b s : lang (alt a b) s <-> lang (Alt a b) s.
Proof.
  split.
  - intros H.
    destruct a; simpl in H;
      try (apply lang_alt_r; exact H);
      destruct b; simpl in H; try exact H; try (apply lang_alt_l; exact H).
  - intros H. apply lang_alt_inv in H as [H|H].
    + destruct a; try (exfalso; exact (lang_void _ H));
        destruct b; simpl; try exact H; apply lang_alt_l; exact H.
    + destruct b; try (exfalso; exact (lang_void _ H));
        destruct a; simpl; try exact H; apply lang_alt_r; exact H.
Qed.

(** The derivative by [c] denotes the strings that, put after [c], are in
    the language. *)
Lemma deriv_spec c r : forall s, lang (deriv c r) s <-> lang r (String c s).
Proof.
  induction r as [| |p|a IHa b IHb|a IHa b IHb]; intros s; simpl.
  - split; inversion 1.
  - split; inversion 1.
  - destruct (p c) eqn:E; split; intros H.
    + apply lang_eps_inv in H; subst. constructor. exact E.
    + apply lang_class_inv in H as (c' & Heq & Hp). inversion Heq; subst. constructor.
    + exfalso; exact (lang_void _ H).
    + apply lang_class_inv in H as (c' & Heq & Hp). inversion Heq; subst. congruence.
  - destruct (nullable a) eqn:En.
    + rewrite alt_spec. split; intros H.
      * apply lang_alt_inv in H as [H|H].
        -- apply seq_spec, lang_seq_inv in H as (u & v & -> & Hu & Hv).
           apply IHa in Hu.
           change (String c (u ++ v)) with (String c u ++ v)%string.
           constructor; assumption.
        -- apply IHb in H. apply nullable_spec in En.
           change (String c s) with (EmptyString ++ String c s)%string.
           constructor; assumption.
      * apply lang_seq_inv in H as (u & v & Heq & Hu & Hv).
        destruct u as [|c' u]; simpl in Heq.
        -- subst v. apply lang_alt_r. apply IHb. exact Hv.
        -- inversion Heq; subst. apply lang_alt_l. apply seq_spec.
           constructor; [apply IHa|]; assumption.
    + rewrite seq_spec. split; intros H.
      * apply lang_seq_inv in H as (u & v & -> & Hu & Hv).
        apply IHa in Hu.
        change (String c (u ++ v)) with (String c u ++ v)%string.
        constructor; assumption.
      * apply lang_seq_inv in H as (u & v & Heq & Hu & Hv).
        destruct u as [|c' u]; simpl in Heq.
        -- apply nullable_spec in Hu. congruence.
        -- inversion Heq; subst. constructor; [apply IHa|]; assumption.
  - rewrite alt_spec. split; intros H.
    + apply lang_alt_inv in H as [H|H];
        [apply lang_alt_l, IHa | apply lang_alt_r, IHb]; exact H.
    + apply lang_alt_inv in H as [H|H];
        [apply lang_alt_l, IHa | apply lang_alt_r, IHb]; exact H.
Qed.

(** The matcher decides the language. *)
Lemma matches_spec s : forall r, matches r s = true <-> lang r s.
Proof.
  induction s as [|c s IH]; intros r; simpl.
  - apply nullable_spec.
  - rewrite IH. apply deriv_spec.
Qed.

End RegexFacts.
Module FormatFacts.
Import Regex Text RegexFacts StringFacts.

(** [all_chars] over a concatenation. *)
Lemma all_chars_app p s t :
  all_chars p (s ++ t) = (all_chars p s && all_chars p t)%bool.
Proof.
  induction s as [|c s IH]; simpl; [reflexivity|].
  rewrite IH. apply andb_assoc.
Qed.

(** [p{n}] *)
Lemma lang_times_class p n : forall s,
  lang (times n (Class p)) s
  <-> String.length s = n /\ all_chars p s = true.
Proof.
  induction n as [|n IH]; intros s; simpl.
  - split.
    + intros H. apply lang_eps_inv in H; subst. auto.
    + intros [Hl _]. destruct s; [constructor | discriminate].
  - split.
    + intros H. apply lang_seq_inv in H as (u & v & -> & Hu & Hv).
      apply lang_class_inv in Hu as (c & -> & Hp).
      apply IH in Hv as [Hl Ha]. simpl. rewrite Hp, Ha, Hl. auto.
    + intros [Hl Ha]. destruct s as [|c s]; [discriminate|].
      simpl in *. apply andb_true_iff in Ha as [Hp Ha].
      change (String c s) with (String c EmptyString ++ s)%string.
      constructor; [constructor; exact Hp | apply IH; split; [lia | exact Ha]].
Qed.

(** [p{0,n}] *)
Lemma lang_upto_class p n : forall s,
  lang (upto n (Class p)) s
  <-> (String.length s <= n)%nat /\ all_chars p s = true.
Proof.
  induction n as [|n IH]; intros s; simpl.
  - split.
    + intros H. apply lang_eps_inv in H; subst. auto.
    + intros [Hl _]. destruct s; [constructor | simpl in Hl; lia].
  - split.
    + intros H. apply lang_alt_inv in H as [H|H].
      * apply lang_eps_inv in H; subst. simpl. split; [lia | reflexivity].
      * apply lang_seq_inv in H as (u & v & -> & Hu & Hv).
        apply lang_class_inv in Hu as (c & -> & Hp).
        apply IH in Hv as [Hl Ha]. simpl. rewrite Hp, Ha. split; [lia | reflexivity].
    + intros [Hl Ha]. destruct s as [|c s].
      * apply lang_alt_l. constructor.
      * simpl in *. apply andb_true_iff in Ha as [Hp Ha].
        apply lang_alt_r.
        change (String c s) with (String c EmptyString ++ s)%string.
        constructor; [constructor; exact Hp | apply IH; split; [lia | exact Ha]].
Qed.

(** A string at least [n] long splits after [n] characters. *)
Lemma take_prefix n : forall s,
  (n <= String.length s)%nat ->
  exists u v, s = (u ++ v)%string /\ String.length u = n.
Proof.
  induction n as [|n IH]; intros s Hl.
  - exists EmptyString, s. auto.
  - destruct s as [|c s]; [simpl in Hl; lia|].
    destruct (IH s) as (u & v & -> & Hu); [simpl in Hl; lia|].
    exists (String c u), v. simpl. auto.
Qed.

(** [p{lo,hi}] *)
Lemma lang_between_class p lo hi s :
  (lo <= hi)%nat ->
  lang (between lo hi (Class p)) s
  <-> (lo <= String.length s)%nat /\ (String.length s <= hi)%nat
      /\ all_chars p s = true.
Proof.
  intros Hle. unfold between. split.
  - intros H. apply lang_seq_inv in H as (u & v & -> & Hu & Hv).
    apply lang_times_class in Hu as [Hlu Hau].
    apply lang_upto_class in Hv as [Hlv Hav].
    rewrite length_append, all_chars_app, Hau, Hav. repeat split; lia.
  - intros (Hlo & Hhi & Ha).
    destruct (take_prefix lo s Hlo) as (u & v & -> & Hu).
    rewrite all_chars_app in Ha. apply andb_true_iff in Ha as [Hau Hav].
    rewrite length_append in Hhi.
    constructor.
    + apply lang_times_class. auto.
    + apply lang_upto_class. split; [lia | exact Hav].
Qed.

(** [[p]{1,hi}] accepts exactly the short groups of the class. *)
Lemma short_group_lang p hi g :
  (1 <= hi)%nat ->
  short_group p hi g = true <-> lang (between 1 hi (Class p)) g.
Proof.
  intros Hhi. rewrite lang_between_class by exact Hhi.
  unfold short_group. rewrite !andb_true_iff, !Nat.leb_le. tauto.
Qed.

(** A literal accepts its one character. *)
Lemma lang_lit sep s :
  lang (Class (lit (String sep EmptyString))) s <-> s = String sep EmptyString.
Proof.
  split.
  - intros H. apply lang_class_inv in H as (c & -> & Hp).
    simpl in Hp. apply Ascii.eqb_eq in Hp. subst. reflexivity.
  - intros ->. constructor. simpl. apply Ascii.eqb_refl.
Qed.

(** [(?:G sep){n} G]: [n + 1] groups with [sep] between them. *)
Lemma lang_groups sep G n : forall s,
  lang (Seq (times n (Seq G (Class (lit (String sep EmptyString))))) G) s
  <-> exists fields,
        List.length fields = S n
        /\ Forall (lang G) fields
        /\ s = unsplit sep fields.
Proof.
  induction n as [|n IH]; intros s.
  - simpl. split.
    + intros H. apply lang_seq_inv in H as (u & v & -> & Hu & Hv).
      apply lang_eps_inv in Hu; subst. exists [v]. auto.
    + intros (fields & Hl & Hf & ->).
      destruct fields as [|g [|g' rest]]; try discriminate.
      inversion Hf; subst. simpl.
      change g with (EmptyString ++ g)%string. constructor; [constructor | assumption].
  - split.
    + intros H. apply lang_seq_inv in H as (u & v & -> & Hu & Hv).
      simpl in Hu. apply lang_seq_inv in Hu as (u1 & u2 & -> & Hu1 & Hu2).
      apply lang_seq_inv in Hu1 as (g & d & -> & Hg & Hd).
      apply lang_lit in Hd; subst d.
      assert (Hrest : lang (Seq (times n (Seq G (Class (lit (String sep EmptyString))))) G)
                           (u2 ++ v)).
      { constructor; assumption. }
      apply IH in Hrest as (fields & Hl & Hf & Heq).
      exists (g :: fields). repeat split.
      * simpl. lia.
      * constructor; assumption.
      * destruct fields as [|f fields]; [discriminate|].
        change (unsplit sep (g :: f :: fields))
          with (g ++ String sep (unsplit sep (f :: fields)))%string.
        rewrite <- Heq, !append_assoc. reflexivity.
    + intros (fields & Hl & Hf & ->).
      destruct fields as [|g fields]; [discriminate|].
      inversion Hf as [|? ? Hg Hrest]; subst.
      assert (Hl' : List.length fields = S n) by (simpl in Hl; lia).
      assert (H : lang (Seq (times n (Seq G (Class (lit (String sep EmptyString))))) G)
                       (unsplit sep fields)).
      { apply IH. exists fields. auto. }
      apply lang_seq_inv in H as (u & v & Heq & Hu & Hv).
      destruct fields as [|f fields]; [discriminate|].
      change (unsplit sep (g :: f :: fields))
        with (g ++ String sep (unsplit sep (f :: fields)))%string.
      rewrite Heq.
      replace (g ++ String sep (u ++ v))%string
        with (((g ++ String sep EmptyString) ++ u) ++ v)%string.
      * constructor; [|exact Hv]. simpl. constructor; [|exact Hu].
        constructor; [exact Hg | apply lang_lit; reflexivity].
      * rewrite !append_assoc. reflexivity.
Qed.

(** A string without separator is its own single field. *)
Lemma split_no_sep sep g : no_sep sep g = true -> split sep g = [g].
Proof.
  unfold no_sep. induction g as [|c g IH]; simpl; [reflexivity|].
  intros H. apply andb_true_iff in H as [Hc Hg].
  apply negb_true_iff in Hc. rewrite Hc, (IH Hg). reflexivity.
Qed.

(** The first field ends at the first separator. *)
Lemma split_field sep g rest :
  no_sep sep g = true ->
  split sep (g ++ String sep rest) = g :: split sep rest.
Proof.
  unfold no_sep. induction g as [|c g IH]; simpl.
  - intros _. rewrite Ascii.eqb_refl. reflexivity.
  - intros H. apply andb_true_iff in H as [Hc Hg].
    apply negb_true_iff in Hc. rewrite Hc, (IH Hg). reflexivity.
Qed.

(** [split] undoes [unsplit] on fields without separator. *)
Lemma split_unsplit sep fields :
  fields <> [] ->
  Forall (fun g => no_sep sep g = true) fields ->
  split sep (unsplit sep fields) = fields.
Proof.
  induction fields as [|g fields IH]; [congruence|].
  intros _ Hf. inversion Hf as [|? ? Hg Hrest]; subst.
  destruct fields as [|f fields].
  - simpl. apply split_no_sep. exact Hg.
  - change (unsplit sep (g :: f :: fields))
      with (g ++ String sep (unsplit sep (f :: fields)))%string.
    rewrite split_field by exact Hg.
    rewrite IH; [reflexivity | discriminate | exact Hrest].
Qed.

(** [unsplit] undoes [split]. *)
Lemma unsplit_split sep s : unsplit sep (split sep s) = s.
Proof.
  induction s as [|c s IH]; simpl; [reflexivity|].
  destruct (Ascii.eqb c sep) eqn:E.
  - apply Ascii.eqb_eq in E; subst c.
    destruct (split sep s) as [|f fields] eqn:Es.
    + simpl in IH. subst s. discriminate.
    + change (unsplit sep (EmptyString :: f :: fields))
        with (EmptyString ++ String sep (unsplit sep (f :: fields)))%string.
      rewrite IH. reflexivity.
  - destruct (split sep s) as [|f fields] eqn:Es.
    + simpl in IH. subst s. reflexivity.
    + destruct fields as [|f' fields].
      * simpl in *. rewrite IH. reflexivity.
      * change (unsplit sep (String c f :: f' :: fields))
          with (String c f ++ String sep (unsplit sep (f' :: fields)))%string.
        change (unsplit sep (f :: f' :: fields))
          with (f ++ String sep (unsplit sep (f' :: fields)))%string in IH.
        rewrite <- IH. reflexivity.
Qed.
End FormatFacts.
Module IpFormatFacts.
Import Regex Text RegexFacts FormatFacts.

(** Characters of a class that excludes the separator are no separators. *)
Lemma class_no_sep p sep g :
  p sep = false -> all_chars p g = true -> no_sep sep g = true.
Proof.
  intros Hsep. unfold no_sep. induction g as [|c g IH]; simpl; [reflexivity|].
  intros H. apply andb_true_iff in H as [Hc Hg]. rewrite (IH Hg), andb_true_r.
  apply negb_true_iff. destruct (Ascii.eqb c sep) eqn:E; [|reflexivity].
  apply Ascii.eqb_eq in E. congruence.
Qed.

(** A pattern [(?:[p]{1,hi}sep){n}[p]{1,hi}] accepts exactly the strings
    whose [sep]-separated fields are [n + 1] short groups of the class. *)
Lemma grouped_format p hi n sep s :
  (1 <= hi)%nat -> p sep = false ->
  matches (Seq (times n (Seq (between 1 hi (Class p))
                             (Class (lit (String sep EmptyString)))))
               (between 1 hi (Class p))) s = true
  <-> List.length (split sep s) = S n
      /\ forallb (short_group p hi) (split sep s) = true.
Proof.
  intros Hhi Hsep. rewrite matches_spec, lang_groups. split.
  - intros (fields & Hl & Hf & ->).
    assert (Hshort : Forall (fun g => short_group p hi g = true) fields).
    { eapply Forall_impl; [|exact Hf]. intros g Hg.
      apply short_group_lang; assumption. }
    assert (Hno : Forall (fun g => no_sep sep g = true) fields).
    { eapply Forall_impl; [|exact Hshort]. intros g Hg.
      unfold short_group in Hg. apply andb_true_iff in Hg as [_ Hg].
      eapply class_no_sep; eassumption. }
    rewrite split_unsplit; [|destruct fields; discriminate | exact Hno].
    split; [exact Hl|]. apply forallb_forall. apply Forall_forall. exact Hshort.
  - intros [Hl Hf]. exists (split sep s). split; [exact Hl|]. split.
    + apply Forall_forall. intros g Hg.
      apply short_group_lang; [exact Hhi|].
      rewrite forallb_forall in Hf. apply Hf. exact Hg.
    + symmetry. apply unsplit_split.
Qed.

(** The client's pattern and the format read off the fields agree on
    every value. *)
Lemma ipRegex_is_basic_format v :
  ipRegex_test v = basic_ip_format (Js.to_string v).
Proof.
  unfold ipRegex_test, basic_ip_format, dotted_quad, colon_octet, ipRegex.
  generalize (Js.to_string v) as s. intros s.
  apply eq_true_iff_eq.
  rewrite matches_spec, orb_true_iff, !andb_true_iff, !Nat.eqb_eq.
  rewrite <- (grouped_format is_digit 3 3 "."%char s) by (lia || reflexivity).
  rewrite <- (grouped_format is_hex 4 7 ":"%char s) by (lia || reflexivity).
  rewrite !matches_spec. split.
  - intros H. apply lang_alt_inv in H. exact H.
  - intros [H|H]; [apply lang_alt_l | apply lang_alt_r]; exact H.
Qed.

(** The format is weaker than validity on dotted quads and stricter on
    IPv6: every valid IPv4 address has the format, and so have quads with
    octets above 255, while compressed IPv6 addresses have not. *)
Lemma valid_ipv4_has_format s : SpecIP.ipv4 s = true -> basic_ip_format s = true.
Proof.
  unfold SpecIP.ipv4, basic_ip_format, dotted_quad. intros H.
  destruct (split "." s) as [|a [|b [|c [|d [|e rest]]]]]; try discriminate.
  apply orb_true_iff. left.
  do 3 (apply andb_true_iff in H as [H ?]).
  cbn [List.length Nat.eqb forallb andb].
  assert (Hoct : forall g, SpecIP.dec_octet g = true ->
                           short_group is_digit 3 g = true).
  { intros g Hg. unfold SpecIP.dec_octet in Hg. unfold short_group.
    apply andb_true_iff in Hg as [Hg _]. exact Hg. }
  rewrite !Hoct by assumption. reflexivity.
Qed.

(** The IPv6 loopback address is valid and lacks the format. *)
Lemma compressed_ipv6_lacks_format :
  SpecIP.syntactically_valid "::1" = true /\ basic_ip_format "::1" = false.
Proof. split; reflexivity. Qed.

End IpFormatFacts.

(* ===================================================================== *)
(** ** The client: validation *)
(* ===================================================================== *)

(** The loop over the required fields stops at a falsy one. *)
Lemma first_missing_finds fields userData field :
  In field fields -> Js.falsy (Js.lookup field userData) = true ->
  exists found, first_missing fields userData = Some found.
Proof.
  induction fields as [|f rest IH]; simpl; [tauto|].
  intros [-> | Hin] Hfalsy.
  - rewrite Hfalsy. eauto.
  - destruct (Js.falsy (Js.lookup f userData)); eauto.
Qed.

(** If the loop runs through, every required field is truthy. *)
Lemma first_missing_none fields userData :
  first_missing fields userData = None ->
  forall field, In field fields -> Js.falsy (Js.lookup field userData) = false.
Proof.
  induction fields as [|f rest IH]; simpl; [tauto|].
  destruct (Js.falsy (Js.lookup f userData)) eqn:E; [discriminate|].
  intros Hnone field [<- | Hin]; auto.
Qed.

(** Validation throws its own error on every rejected context. *)
Lemma validate_rejects userData :
  rejected_context userData ->
  exists message,
    _validateUserData userData = Throw (IDRockAPIError message None None).
Proof.
  unfold _validateUserData.
  intros [[field [Hin Hfalsy]] | [Haction | Hip]].
  - destruct (first_missing_finds _ _ _ Hin Hfalsy) as [found ->]. eauto.
  - destruct (first_missing required userData); [eauto|].
    rewrite Haction; simpl. eauto.
  - destruct (first_missing required userData); [eauto|].
    destruct (Js.includes validActions _); simpl; [|eauto].
    rewrite IpFormatFacts.ipRegex_is_basic_format, Hip; simpl. eauto.
Qed.

(** Validation accepts exactly the contexts that are not rejected. *)
Lemma validate_accepts_iff userData :
  _validateUserData userData = Return tt <-> ~ rejected_context userData.
Proof.
  split.
  - intros Hok Hrej. destruct (validate_rejects _ Hrej) as [m Hm]. congruence.
  - intros Hnot. unfold _validateUserData.
    destruct (first_missing required userData) as [field|] eqn:Hmiss.
    + exfalso. apply Hnot. left.
      revert Hmiss. generalize required. intros fields.
      induction fields as [|f rest IH]; simpl; [discriminate|].
      destruct (Js.falsy (Js.lookup f userData)) eqn:E.
      * intros _. exists f. simpl. auto.
      * intros H. destruct (IH H) as [g [Hin Hg]]. exists g. simpl. auto.
    + destruct (Js.includes validActions _) eqn:Ha; simpl.
      * destruct (ipRegex_test _) eqn:Hi; simpl; [reflexivity|].
        exfalso. apply Hnot. right. right.
        rewrite <- IpFormatFacts.ipRegex_is_basic_format. exact Hi.
      * exfalso. apply Hnot. right. left. exact Ha.
Qed.

(** C2 (amended).  An identity context with a missing or empty required
    field, an action type outside login, checkout and sensitive_action, or
    an address that fails the client's format check makes [verifyIdentity]
    fail at once with the invalid-input error: nothing is put on the wire,
    and the call is counted as one failure. *)
Theorem invalid_context_never_reaches_network server idrock sdk userData w :
  rejected_context userData ->
  let run := verifyIdentity server idrock sdk userData w in
  invalid_input (snd run)
  /\ wire (fst run) = wire w
  /\ attempts (fst run) = attempts w
  /\ stats (fst run) = count_failure (stats w).
Proof.
  intros Hrej. destruct (validate_rejects _ Hrej) as [message Hm].
  unfold verifyIdentity. rewrite Hm. simpl.
  repeat split. exists message. reflexivity.
Qed.

(** An instance: the address [not-an-ip]. *)
Lemma invalid_context_never_reaches_network_witness :
  rejected_context (Sample.identity "not-an-ip" "login")
  /\ invalid_input
       (snd (verifyIdentity Sample.always_503 Sample.config Sample.sdk
               (Sample.identity "not-an-ip" "login") fresh_world))
  /\ attempts
       (fst (verifyIdentity Sample.always_503 Sample.config Sample.sdk
               (Sample.identity "not-an-ip" "login") fresh_world))
     = 0%nat.
Proof.
  assert (H : rejected_context (Sample.identity "not-an-ip" "login")).
  { right. right. vm_compute. reflexivity. }
  split; [exact H|].
  destruct (invalid_context_never_reaches_network
              Sample.always_503 Sample.config Sample.sdk
              (Sample.identity "not-an-ip" "login") fresh_world H)
    as [Hinv [_ [Hatt _]]].
  split; [exact Hinv | exact Hatt].
Defined.

(** C2 (as stated, refuted).  The dotted quad 999.999.999.999 is no
    syntactically valid IP address, each of its octets being above 255;
    the client's format check lets it through and the request goes out. *)
Lemma out_of_range_octets_reach_network :
  SpecIP.syntactically_valid "999.999.999.999" = false
  /\ _validateUserData (Sample.identity "999.999.999.999" "login") = Return tt
  /\ wire (fst (verifyIdentity (Sample.answers (Sample.assessment "ALLOW" 85))
                  Sample.config Sample.sdk
                  (Sample.identity "999.999.999.999" "login") fresh_world))
     = [Transmit "post" "/api/v1/identity/verify"]
  /\ snd (verifyIdentity (Sample.answers (Sample.assessment "ALLOW" 85))
            Sample.config Sample.sdk
            (Sample.identity "999.999.999.999" "login") fresh_world)
     = Return (Sample.assessment "ALLOW" 85).
Proof. vm_compute. repeat split. Qed.

(* ===================================================================== *)
(** ** The client: counters *)
(* ===================================================================== *)

(** Both ways of counting keep the balance. *)
Lemma balanced_success s : balanced s -> balanced (count_success s).
Proof. unfold balanced, count_success; simpl. lia. Qed.

Lemma balanced_failure s : balanced s -> balanced (count_failure s).
Proof. unfold balanced, count_failure; simpl. lia. Qed.

(** The HTTP layer does not touch the counters. *)
Lemma stats_after_transmit server config w :
  stats (fst (transmit server config w)) = stats w.
Proof. apply transmit_effect. Qed.

(** The [catch] block counts a failure and throws. *)
Lemma fail_with_throws operation error w :
  exists thrown,
    fail_with operation error w = (with_stats count_failure w, Throw thrown).
Proof.
  unfold fail_with. destruct (_handleError error operation); eauto.
Qed.

Ltac caught :=
  match goal with
  | |- context [fail_with ?op ?e ?w] =>
      let thrown := fresh "thrown" in
      let H := fresh "Hcaught" in
      destruct (fail_with_throws op e w) as [thrown H]; rewrite H; clear H
  end.

(** [getAssessmentHistory] and [healthCheck] count every call once. *)
Lemma getAssessmentHistory_counts_once server idrock sdk userId filters w :
  let run := getAssessmentHistory server idrock sdk userId filters w in
  match snd run with
  | Return _ => stats (fst run) = count_success (stats w)
  | Throw _ => stats (fst run) = count_failure (stats w)
  end.
Proof.
  unfold getAssessmentHistory, get. rewrite fresh_request_once.
  match goal with |- context [transmit server ?c w] =>
    pose proof (stats_after_transmit server c w) as Hs;
    destruct (transmit server c w) as [w1 [response|error]]
  end; [|caught]; simpl in *; rewrite Hs; reflexivity.
Qed.

(** The same for [healthCheck]. *)
Lemma healthCheck_counts_once server idrock sdk w :
  let run := healthCheck server idrock sdk w in
  match snd run with
  | Return _ => stats (fst run) = count_success (stats w)
  | Throw _ => stats (fst run) = count_failure (stats w)
  end.
Proof.
  unfold healthCheck, get. rewrite fresh_request_once.
  match goal with |- context [transmit server ?c w] =>
    pose proof (stats_after_transmit server c w) as Hs;
    destruct (transmit server c w) as [w1 [response|error]]
  end; [|caught]; simpl in *; rewrite Hs; reflexivity.
Qed.

(** What [verifyIdentity] does to the counters: one success, one failure,
    or, when the log line after a counted success throws, both. *)
Lemma verifyIdentity_counts server idrock sdk userData w :
  let run := verifyIdentity server idrock sdk userData w in
  match snd run with
  | Return _ => stats (fst run) = count_success (stats w)
  | Throw _ => stats (fst run) = count_failure (stats w)
               \/ stats (fst run) = count_failure (count_success (stats w))
  end.
Proof.
  unfold verifyIdentity, post.
  destruct (_validateUserData userData); [|caught; left; reflexivity].
  destruct (if enableLogging sdk then log_request userData else Return tt);
    [|caught; left; reflexivity].
  rewrite fresh_request_once.
  match goal with |- context [transmit server ?c w] =>
    pose proof (stats_after_transmit server c w) as Hs;
    destruct (transmit server c w) as [w1 [response|error]]
  end; cbn [fst] in Hs.
  - destruct (if enableLogging sdk then log_response (data response) else Return tt);
      [|caught]; cbn [fst snd with_stats stats]; rewrite Hs; auto.
  - caught. cbn [fst snd with_stats stats]. rewrite Hs. auto.
Qed.

(** The three request methods keep the counters balanced. *)
Lemma client_keeps_balance server idrock sdk userData userId filters w :
  balanced (stats w) ->
  balanced (stats (fst (verifyIdentity server idrock sdk userData w)))
  /\ balanced (stats (fst (getAssessmentHistory server idrock sdk userId filters w)))
  /\ balanced (stats (fst (healthCheck server idrock sdk w))).
Proof.
  intros Hb. repeat split.
  - pose proof (verifyIdentity_counts server idrock sdk userData w) as H.
    simpl in H.
    destruct (snd (verifyIdentity server idrock sdk userData w));
      [rewrite H | destruct H as [-> | ->]];
      auto using balanced_success, balanced_failure.
  - pose proof (getAssessmentHistory_counts_once server idrock sdk userId filters w) as H.
    simpl in H.
    destruct (snd (getAssessmentHistory server idrock sdk userId filters w));
      rewrite H; auto using balanced_success, balanced_failure.
  - pose proof (healthCheck_counts_once server idrock sdk w) as H.
    simpl in H.
    destruct (snd (healthCheck server idrock sdk w));
      rewrite H; auto using balanced_success, balanced_failure.
Qed.

(** With logging off, [verifyIdentity] counts every call once. *)
Lemma verifyIdentity_counts_once server idrock sdk userData w :
  enableLogging sdk = false ->
  let run := verifyIdentity server idrock sdk userData w in
  match snd run with
  | Return _ => stats (fst run) = count_success (stats w)
  | Throw _ => stats (fst run) = count_failure (stats w)
  end.
Proof.
  intros Hoff. unfold verifyIdentity, post. rewrite Hoff.
  destruct (_validateUserData userData); [|caught; reflexivity].
  rewrite fresh_request_once.
  match goal with |- context [transmit server ?c w] =>
    pose proof (stats_after_transmit server c w) as Hs;
    destruct (transmit server c w) as [w1 [response|error]]
  end; cbn [fst] in Hs; [|caught];
    cbn [fst snd with_stats stats]; rewrite Hs; reflexivity.
Qed.

(** C10 (the code departs from the claim).  When the scoring service
    answers 200 with the JSON body [null], the log line that follows the
    success counters throws inside the [try] block, and the [catch] block
    counts the same call again: one call moves [totalRequests] by two,
    counted both as a success and as a failure. *)
Theorem verifyIdentity_counts_null_body_twice :
  let run := verifyIdentity (Sample.answers VNull) Sample.config Sample.sdk
               (Sample.identity "192.168.1.100" "login") fresh_world in
  attempts (fst run) = 1%nat
  /\ stats (fst run) = {| totalRequests := 2;
                          successfulRequests := 1;
                          failedRequests := 1 |}
  /\ snd run = Throw (IDRockAPIError
                        "Failed to verifyIdentity: Cannot read properties of null (reading 'risk_level')"
                        (Some (TypeError "Cannot read properties of null (reading 'risk_level')"))
                        None).
Proof. vm_compute. repeat split. Qed.

(* ===================================================================== *)
(** ** The client: fallback synthesis *)
(* ===================================================================== *)

(** The reason a fallback assessment records: the argument, or the
    default when the argument is [undefined]. *)
Lemma fallback_reason_default idrock amb userId :
  Js.optchain (createFallbackResponse idrock amb userId VUndef) "fallback_reason"
  = VStr "service_unavailable".
Proof. reflexivity. Qed.

(** C4 (amended).  For every user id and reason the fallback assessment
    has the configured default risk level (REVIEW in the shipped
    configuration), confidence score 50, exactly one synthetic factor whose
    details document the reason, and, at the top level of the object, the
    flag [fallback = true] and the [fallback_reason]; its [metadata] marks
    [mvp_scope = fallback_mode] and has no [fallback] entry. *)
Theorem fallback_response_contents idrock amb userId reason :
  let r := createFallbackResponse idrock amb userId reason in
  let why := match reason with
             | VUndef => VStr "service_unavailable"
             | _ => reason
             end in
  Js.optchain r "risk_level"
    = VStr (Config.defaultRiskLevel (Config.risk_fallback idrock))
  /\ (forall on, Config.defaultRiskLevel
                   (Config.risk_fallback (Config.idrockConfig on)) = "REVIEW")
  /\ Js.optchain r "confidence_score" = VNum 50
  /\ (exists factor,
        Js.optchain r "risk_factors" = VArr [factor]
        /\ Js.optchain factor "factor" = VStr "system_fallback"
        /\ Js.optchain factor "details"
           = VStr ("Risk assessment service unavailable: " ++ Js.to_string why))
  /\ Js.optchain r "fallback" = VBool true
  /\ Js.optchain r "fallback_reason" = why
  /\ Js.optchain (Js.optchain r "metadata") "mvp_scope" = VStr "fallback_mode"
  /\ Js.optchain (Js.optchain r "metadata") "fallback" = VUndef.
Proof.
  destruct reason; simpl; repeat split;
    eexists; repeat split; reflexivity.
Qed.

(** C4 (as stated, refuted).  The [metadata] of a fallback assessment
    carries no [fallback] flag: reading [metadata.fallback] gives
    [undefined], not [true]. *)
Lemma fallback_metadata_has_no_flag :
  Js.optchain
    (Js.optchain (createFallbackResponse Sample.config Sample.ambient
                    (VStr "u1") (VStr "service_error")) "metadata")
    "fallback" = VUndef
  /\ Js.optchain
       (Js.optchain (createFallbackResponse Sample.config Sample.ambient
                       (VStr "u1") (VStr "service_error")) "metadata")
       "fallback" <> VBool true.
Proof. split; [reflexivity | discriminate]. Qed.

(** A key that is not volatile is neither [timestamp] nor [request_id]. *)
Lemma volatile_false k :
  volatile k = false ->
  (k =? "timestamp")%string = false /\ (k =? "request_id")%string = false.
Proof.
  unfold volatile; simpl. intros H.
  apply orb_false_elim in H as [H1 H2].
  apply orb_false_elim in H2 as [H2 _]. auto.
Qed.

(** The user id does not enter the fallback assessment at all. *)
Lemma fallback_ignores_user idrock amb user1 user2 reason :
  createFallbackResponse idrock amb user1 reason
  = createFallbackResponse idrock amb user2 reason.
Proof. reflexivity. Qed.

(** C5.  Fallback synthesis is a total function of its arguments and of
    the two fresh identifiers and the clock reading it draws: it always
    returns an object, and two calls with the same user id and reason
    agree on the risk level, the confidence score, the factor list and
    every other entry, except for [timestamp] and [request_id] (at the top
    level and inside [metadata]). *)
Theorem fallback_synthesis_is_pure idrock amb1 amb2 userId reason :
  let r1 := createFallbackResponse idrock amb1 userId reason in
  let r2 := createFallbackResponse idrock amb2 userId reason in
  (exists fields1 fields2, r1 = VObj fields1 /\ r2 = VObj fields2)
  /\ Js.optchain r1 "risk_level" = Js.optchain r2 "risk_level"
  /\ Js.optchain r1 "confidence_score" = Js.optchain r2 "confidence_score"
  /\ Js.optchain r1 "risk_factors" = Js.optchain r2 "risk_factors"
  /\ (forall k, volatile k = false -> k <> "metadata" ->
                Js.optchain r1 k = Js.optchain r2 k)
  /\ (forall k, volatile k = false ->
                Js.optchain (Js.optchain r1 "metadata") k
                = Js.optchain (Js.optchain r2 "metadata") k).
Proof.
  simpl. split; [eexists; eexists; split; reflexivity|].
  repeat split.
  - intros k Hv Hm. destruct (volatile_false k Hv) as [Ht Hr].
    rewrite Ht, Hr.
    destruct (k =? "metadata")%string eqn:E.
    + apply String.eqb_eq in E. contradiction.
    + reflexivity.
  - intros k Hv. destruct (volatile_false k Hv) as [_ Hr].
    rewrite Hr. reflexivity.
Qed.

(** An instance: the [fallback_reason] of two calls under different
    identifiers and clocks. *)
Lemma fallback_synthesis_is_pure_witness :
  volatile "fallback_reason" = false
  /\ "fallback_reason" <> "metadata"
  /\ Js.optchain (createFallbackResponse Sample.config Sample.ambient
                    (VStr "u1") (VStr "service_error")) "fallback_reason"
     = Js.optchain (createFallbackResponse Sample.config
                      {| uuid_first := "0b0e7d52-91c4-4a7e-b1f0-5d2c8e4a9f10";
                         uuid_second := "c3d4e5f6-0718-4293-a4b5-c6d7e8f90a1b";
                         now_iso := "2025-09-09T08:30:00.000Z";
                         elapsed_try := 3;
                         elapsed_catch := 4 |}
                      (VStr "u1") (VStr "service_error")) "fallback_reason".
Proof.
  assert (Hv : volatile "fallback_reason" = false) by reflexivity.
  assert (Hm : "fallback_reason" <> "metadata") by discriminate.
  repeat (split; [assumption|]).
  destruct (fallback_synthesis_is_pure Sample.config Sample.ambient
              {| uuid_first := "0b0e7d52-91c4-4a7e-b1f0-5d2c8e4a9f10";
                 uuid_second := "c3d4e5f6-0718-4293-a4b5-c6d7e8f90a1b";
                 now_iso := "2025-09-09T08:30:00.000Z";
                 elapsed_try := 3;
                 elapsed_catch := 4 |}
              (VStr "u1") (VStr "service_error"))
    as (_ & _ & _ & _ & Hkeys & _).
  exact (Hkeys "fallback_reason" Hv Hm).
Defined.

(* ===================================================================== *)
(** ** The middleware *)
(* ===================================================================== *)

(** Reading a property after writing it. *)
Lemma lookup_assign_same k v fields : Js.lookup k (Js.assign k v fields) = v.
Proof.
  induction fields as [|[k' v'] rest IH]; simpl.
  - rewrite String.eqb_refl. reflexivity.
  - destruct (k =? k')%string eqn:E; simpl.
    + rewrite String.eqb_refl. reflexivity.
    + rewrite E. exact IH.
Qed.

(** Writing a property leaves the others alone. *)
Lemma lookup_assign_other k k' v fields :
  (k =? k')%string = false ->
  Js.lookup k (Js.assign k' v fields) = Js.lookup k fields.
Proof.
  intros Hne. induction fields as [|[k'' v''] rest IH]; simpl.
  - rewrite Hne. reflexivity.
  - destruct (k' =? k'')%string eqn:E; simpl.
    + apply String.eqb_eq in E; subst k''. rewrite Hne. reflexivity.
    + destruct (k =? k'')%string; [reflexivity | exact IH].
Qed.

Lemma annotation_same k v req : annotation k (annotate k v req) = v.
Proof. apply lookup_assign_same. Qed.

Lemma annotation_other k k' v req :
  (k =? k')%string = false ->
  annotation k (annotate k' v req) = annotation k req.
Proof. apply lookup_assign_other. Qed.

(** The HTTP layer does not touch the audit log. *)
Lemma audit_after_transmit server config w :
  audit (fst (transmit server config w)) = audit w.
Proof. apply transmit_effect. Qed.

(** Nor does [verifyIdentity]. *)
Lemma verifyIdentity_audit server idrock sdk userData w :
  audit (fst (verifyIdentity server idrock sdk userData w)) = audit w.
Proof.
  unfold verifyIdentity, post.
  destruct (_validateUserData userData); [|caught; reflexivity].
  destruct (if enableLogging sdk then log_request userData else Return tt);
    [|caught; reflexivity].
  rewrite fresh_request_once.
  match goal with |- context [transmit server ?c w] =>
    pose proof (audit_after_transmit server c w) as Ha;
    destruct (transmit server c w) as [w1 [response|error]]
  end; cbn [fst] in Ha; [|caught; exact Ha].
  destruct (if enableLogging sdk then log_response (data response) else Return tt);
    [|caught]; exact Ha.
Qed.

(** On a rejected context [verifyIdentity] counts one failure and throws
    the validation error, the world being otherwise untouched. *)
Lemma verifyIdentity_rejected server idrock sdk userData w :
  rejected_context userData ->
  exists message,
    verifyIdentity server idrock sdk userData w
    = (with_stats count_failure w, Throw (IDRockAPIError message None None)).
Proof.
  intros Hrej. destruct (validate_rejects _ Hrej) as [message Hm].
  exists message. unfold verifyIdentity. rewrite Hm. reflexivity.
Qed.

(** A value one property of which can be read is neither [undefined] nor
    [null]. *)
Lemma getprop_defined a k x :
  getprop a k = Return x -> forall k', getprop a k' = Return (Js.optchain a k').
Proof. destruct a; simpl; intros H k'; try discriminate; reflexivity. Qed.

(** What the middleware's client returns is neither [undefined] nor
    [null]: its log line has read a property of it. *)
Lemma assess_defined server idrock userData w w1 a :
  assess server idrock userData w = (w1, Return a) ->
  forall k, getprop a k = Return (Js.optchain a k).
Proof.
  unfold assess, verifyIdentity.
  destruct (_validateUserData userData); [|caught; discriminate].
  change (enableLogging (idrockClient idrock)) with true. cbv iota.
  destruct (log_request userData); [|caught; discriminate].
  destruct (post server (idrockClient idrock) (Config.endpoints_verify idrock) w)
    as [w2 [response|error]]; [|caught; discriminate].
  destruct (log_response (data response)) eqn:E; [|caught; discriminate].
  unfold log_response in E.
  destruct (getprop (data response) "risk_level") eqn:Eg; [|discriminate].
  intros H; inversion H; subst.
  eapply getprop_defined; eauto.
Qed.

(** On an accepting store [logRiskAssessment] appends one
    [risk_assessment] row, whose correlation id is the assessment's
    [request_id] or [null]. *)
Lemma logRiskAssessment_accepts amb store data w :
  accepting store ->
  exists row,
    logRiskAssessment amb store data w
    = ({| wire := wire w; stats := stats w; audit := (audit w ++ [row])%list |}, Return row)
    /\ is_risk_assessment row = true
    /\ correlation_id row
       = Js.either (Js.optchain (Js.lookup "riskAssessment" data) "request_id") VNull.
Proof.
  intros Hstore. unfold logRiskAssessment, create. rewrite Hstore.
  eexists. split; [reflexivity|]. split; reflexivity.
Qed.




(** The client call writes no event. *)
Lemma assess_risk_events server idrock userData w :
  risk_events (fst (assess server idrock userData w)) = risk_events w.
Proof. unfold risk_events, assess. rewrite verifyIdentity_audit. reflexivity. Qed.




(** The fallback path of [protectCheckout], unlike that of [protectLogin],
    writes no [risk_assessment] event. *)
Lemma checkout_fallback_logs_nothing server idrock amb store req w w1 e :
  assess server idrock (_extractCheckoutUserData amb req) w = (w1, Throw e) ->
  risk_events (fst (protectCheckout server idrock amb store req w)) = risk_events w.
Proof.
  intros Hassess.
  pose proof (assess_risk_events server idrock (_extractCheckoutUserData amb req) w) as Hev.
  rewrite Hassess in Hev; simpl in Hev.
  unfold protectCheckout, protectCheckout_try.
  destruct (Config.integration_enabled idrock); simpl negb; cbv iota; [|reflexivity].
  rewrite Hassess. unfold protectCheckout_catch.
  destruct (Config.enabled (Config.risk_fallback idrock)); exact Hev.
Qed.


Ltac split_matches :=
  repeat match goal with
         | |- context [match ?x with _ => _ end] =>
             lazymatch x with
             | context [match _ with _ => _ end] => fail
             | _ => destruct x eqn:?
             end
         end; cbn [fst snd].

(** Whenever the client call throws, the handler of [assessRisk] ends
    unhandled on the [ReferenceError] of its [catch] block. *)
Lemma assessRisk_client_error server idrock amb actionType req w w1 e :
  Config.integration_enabled idrock = true ->
  assess server idrock (assessRisk_userData actionType req) w = (w1, Throw e) ->
  assessRisk server idrock amb actionType req w
  = (w1, Unhandled (ReferenceError "userData")).
Proof.
  intros Hon Hassess.
  unfold assessRisk, assessRisk_try. rewrite Hon. simpl negb. cbv iota.
  rewrite Hassess. reflexivity.
Qed.

(** The action type [generic] is outside the closed set. *)
Lemma generic_context_rejected req :
  rejected_context (assessRisk_userData "generic" req).
Proof. right. left. reflexivity. Qed.

(** C6 (the code departs from the claim).  The handler that
    [assessRisk('generic')] returns, the one mounted on the generic
    assessment route, never reaches a terminal state when the integration
    is on: the client turns the action type down, the [catch] block reads
    [userData], which is out of scope there, and the resulting
    [ReferenceError] leaves the handler unhandled, for every request and
    whatever the scoring service would answer. *)
Theorem assessRisk_generic_is_never_handled server amb req w :
  assessRisk server Sample.config amb "generic" req w
  = (with_stats count_failure w, Unhandled (ReferenceError "userData")).
Proof.
  destruct (verifyIdentity_rejected server Sample.config
              (idrockClient Sample.config) _ w (generic_context_rejected req))
    as [message Hm].
  eapply assessRisk_client_error; [reflexivity | exact Hm].
Qed.

(** [protectCheckout] ends every request itself or hands it on. *)
Lemma protectCheckout_always_handled server idrock amb store req w :
  handled_outcome (snd (protectCheckout server idrock amb store req w)).
Proof.
  unfold protectCheckout, protectCheckout_try, protectCheckout_catch,
         verification_required.
  split_matches; exact I.
Qed.

(** So does [protectLogin], as long as the audit store accepts the
    fallback row. *)
Lemma protectLogin_handled_when_stored server idrock amb store find req w :
  accepting store ->
  handled_outcome (snd (protectLogin server idrock amb store find req w)).
Proof.
  intros Hstore.
  unfold protectLogin, protectLogin_try, protectLogin_catch, service_unavailable.
  split_matches; try exact I.
  all: match goal with
       | H : logRiskAssessment ?x ?s ?d ?w0 = (_, Throw _) |- _ =>
           destruct (logRiskAssessment_accepts x s d w0 Hstore) as (row & Hl & _);
           rewrite Hl in H; discriminate
       end.
Qed.

(** When the audit store turns the fallback row down, the rejection of the
    insert leaves [protectLogin] unhandled. *)
Lemma protectLogin_unhandled_when_store_down :
  snd (protectLogin Sample.always_503 Sample.config Sample.ambient
         Sample.store_down Sample.nobody
         (Sample.request "alice" "192.168.1.100") fresh_world)
  = Unhandled (StoreError "SecurityLog.create rejected the row").
Proof. vm_compute. reflexivity. Qed.



(* ===================================================================== *)
(** ** The middleware: what the claims say *)
(* ===================================================================== *)










(* ===================================================================== *)
(** ** The fingerprint collector *)
(* ===================================================================== *)

Module FingerprintFacts.
Import Fingerprint StringFacts.

(** ToInt32 lands in the signed 32-bit range, is the identity there, and
    depends on its argument modulo 2^32 only. *)
Lemma to_int32_range n : - 2 ^ 31 <= to_int32 n < 2 ^ 31.
Proof.
  unfold to_int32.
  pose proof (Z.mod_pos_bound n (2 ^ 32) ltac:(lia)) as Hm.
  destruct (n mod 2 ^ 32 <? 2 ^ 31) eqn:E.
  - apply Z.ltb_lt in E. lia.
  - apply Z.ltb_ge in E. lia.
Qed.

Lemma to_int32_mod n : to_int32 n mod 2 ^ 32 = n mod 2 ^ 32.
Proof.
  unfold to_int32.
  destruct (n mod 2 ^ 32 <? 2 ^ 31).
  - apply Z.mod_mod. lia.
  - replace (n mod 2 ^ 32 - 2 ^ 32) with (n mod 2 ^ 32 + (-1) * 2 ^ 32) by lia.
    rewrite Z.mod_add by lia. apply Z.mod_mod. lia.
Qed.

Lemma to_int32_congr a b :
  a mod 2 ^ 32 = b mod 2 ^ 32 -> to_int32 a = to_int32 b.
Proof. unfold to_int32. intros ->. reflexivity. Qed.

Lemma to_int32_small n : - 2 ^ 31 <= n < 2 ^ 31 -> to_int32 n = n.
Proof.
  intros Hn. unfold to_int32.
  destruct (Z_lt_le_dec n 0) as [Hneg|Hpos].
  - replace (n mod 2 ^ 32) with (n + 2 ^ 32).
    + destruct (n + 2 ^ 32 <? 2 ^ 31) eqn:E; [apply Z.ltb_lt in E|]; lia.
    + apply Z.mod_unique with (q := -1); lia.
  - rewrite Z.mod_small by lia.
    destruct (n <? 2 ^ 31) eqn:E; [reflexivity | apply Z.ltb_ge in E; lia].
Qed.

(** The loop body is the multiply-by-31 string hash on signed 32-bit
    integers. *)
Lemma hash_step_is_times_31 hash char :
  hash_step hash char = to_int32 (31 * hash + char).
Proof.
  unfold hash_step, band, shl5.
  rewrite Z.land_diag, Z.shiftl_mul_pow2 by lia.
  apply to_int32_congr.
  rewrite Zplus_mod, Zminus_mod, to_int32_mod.
  rewrite (Zmult_mod (to_int32 hash)), to_int32_mod, <- Zmult_mod.
  rewrite <- Zminus_mod, <- Zplus_mod.
  f_equal. change (2 ^ 5) with 32. lia.
Qed.

Lemma hash_step_range hash char :
  - 2 ^ 31 <= hash_step hash char < 2 ^ 31.
Proof. rewrite hash_step_is_times_31. apply to_int32_range. Qed.

(** The hash is not collision resistant, nor claimed to be. *)
Lemma hash_collision : _hashString "Aa" = _hashString "BB".
Proof. reflexivity. Qed.

(** Each radix-36 digit decodes to its value. *)
Lemma digit36_roundtrip r :
  0 <= r < 36 -> digit36_value (digit36 r) = r.
Proof.
  intros Hr. unfold digit36.
  assert (H : exists k, (k < 36)%nat /\ r = Z.of_nat k).
  { exists (Z.to_nat r). lia. }
  destruct H as [k [Hk ->]]. rewrite Nat2Z.id.
  do 36 (destruct k as [|k]; [reflexivity|]). lia.
Qed.

(** Decoding a concatenation. *)
Lemma of_base36_app a s t :
  of_base36 a (s ++ t) = of_base36 (of_base36 a s) t.
Proof. revert a. induction s as [|c s IH]; simpl; auto. Qed.

(** The digit budget of [toString36] is never exhausted: the numeral it
    produces, put in front of [acc], decodes to the number. *)
Lemma to_base36_decodes budget :
  forall n acc a, 0 <= n < 2 ^ Z.of_nat budget -> (0 < budget)%nat ->
  exists ds,
    to_base36 budget n acc = ds ++ acc
    /\ of_base36 a ds = a * 36 ^ Z.of_nat (String.length ds) + n.
Proof.
  induction budget as [|budget IH]; intros n acc a Hn Hb; [lia|].
  cbn [to_base36].
  assert (Hr : 0 <= n mod 36 < 36) by (apply Z.mod_pos_bound; lia).
  assert (Hq : 0 <= n / 36) by (apply Z.div_pos; lia).
  assert (Hdiv : n = 36 * (n / 36) + n mod 36) by (apply Z.div_mod; lia).
  destruct (n / 36 =? 0) eqn:E.
  - apply Z.eqb_eq in E.
    exists (String (digit36 (n mod 36)) EmptyString). split; [reflexivity|].
    cbn [of_base36 String.length]. rewrite digit36_roundtrip by assumption.
    change (36 ^ Z.of_nat 1) with 36. lia.
  - apply Z.eqb_neq in E.
    assert (Hq2 : n / 36 < 2 ^ Z.of_nat budget).
    { rewrite Nat2Z.inj_succ, Z.pow_succ_r in Hn by lia. lia. }
    assert (Hb' : (0 < budget)%nat).
    { destruct budget; [simpl in Hq2; lia | lia]. }
    destruct (IH (n / 36) (String (digit36 (n mod 36)) acc) a
                 (conj Hq Hq2) Hb') as (ds & Hds & Hval).
    exists (ds ++ String (digit36 (n mod 36)) EmptyString). split.
    + rewrite Hds. rewrite append_assoc. reflexivity.
    + rewrite of_base36_app, Hval. cbn [of_base36].
      rewrite digit36_roundtrip by assumption.
      rewrite length_append. cbn [String.length].
      rewrite Nat2Z.inj_add. change (Z.of_nat 1) with 1.
      rewrite Z.pow_add_r by lia. change (36 ^ 1) with 36. lia.
Qed.

(** [toString36] prints every non-negative integer in full. *)
Lemma toString36_decodes n : 0 <= n -> of_base36 0 (toString36 n) = n.
Proof.
  intros Hn. unfold toString36.
  assert (Hbound : 0 <= n < 2 ^ Z.of_nat (S (Z.to_nat (Z.log2 n)))).
  { split; [assumption|].
    rewrite Nat2Z.inj_succ, Z2Nat.id by apply Z.log2_nonneg.
    destruct (Z.eq_dec n 0) as [->|Hnz]; [reflexivity|].
    apply Z.log2_spec. lia. }
  destruct (to_base36_decodes _ n EmptyString 0 Hbound ltac:(lia))
    as (ds & Hds & Hval).
  rewrite Hds, append_nil_r, Hval. lia.
Qed.

(** Wrapping before or after a step of the polynomial is the same. *)
Lemma to_int32_step x c :
  to_int32 (31 * to_int32 x + c) = to_int32 (31 * x + c).
Proof.
  apply to_int32_congr.
  rewrite Zplus_mod, Zmult_mod, to_int32_mod, <- Zmult_mod, <- Zplus_mod.
  reflexivity.
Qed.

(** The loop computes the polynomial, wrapped. *)
Lemma hash_loop_horner str : forall h,
  hash_loop (to_int32 h) str = to_int32 (horner h str).
Proof.
  induction str as [|c rest IH]; intros h; cbn [hash_loop horner]; [reflexivity|].
  rewrite hash_step_is_times_31, to_int32_step. apply IH.
Qed.

(** The six settled results are all kept, and joined in their order. *)
Lemma settled_joined d :
  Js.join_values "|" (map settled_value (filter is_fulfilled (settled d)))
  = (_getCanvasFingerprint d ++ "|" ++ _getWebGLFingerprint d ++ "|"
     ++ _getAudioFingerprint d ++ "|" ++ _getBrowserFeatures d ++ "|"
     ++ _getScreenFingerprint d ++ "|" ++ _getTimezoneFingerprint d)%string.
Proof. reflexivity. Qed.

(** Sources that end alike resolve with the same string. *)
Lemma same_successes_outputs d1 d2 :
  same_successes d1 d2 ->
  _getCanvasFingerprint d1 = _getCanvasFingerprint d2
  /\ _getWebGLFingerprint d1 = _getWebGLFingerprint d2
  /\ _getAudioFingerprint d1 = _getAudioFingerprint d2
  /\ _getBrowserFeatures d1 = _getBrowserFeatures d2
  /\ _getScreenFingerprint d1 = _getScreenFingerprint d2
  /\ _getTimezoneFingerprint d1 = _getTimezoneFingerprint d2.
Proof.
  intros (Hc & Hw & Ha & Hn & Hs & Ht).
  unfold _getCanvasFingerprint, _getWebGLFingerprint, _getAudioFingerprint,
         _getBrowserFeatures, _getScreenFingerprint, _getTimezoneFingerprint.
  repeat split;
    match goal with
    | H : alike (?field d1) (?field d2) |- context [?field d1] =>
        inversion H; reflexivity
    end.
Qed.

(** C9.  The collector joins the outputs of its six sources in the order
    they are declared (canvas, WebGL, audio, browser features, screen,
    time zone) with [|] between them and hashes the result: the token is
    the radix-36 numeral of the absolute value of the multiply-by-31
    polynomial of the joined string, wrapped to 32 bits.  Every source
    takes part: one whose [try] block throws contributes its marker.  So
    two runs in which the same sources succeed with the same readings
    produce the same token, whatever the failing sources threw. *)
Theorem fingerprint_is_deterministic d1 d2 :
  same_successes d1 d2 ->
  let joined :=
    (_getCanvasFingerprint d1 ++ "|" ++ _getWebGLFingerprint d1 ++ "|"
     ++ _getAudioFingerprint d1 ++ "|" ++ _getBrowserFeatures d1 ++ "|"
     ++ _getScreenFingerprint d1 ++ "|" ++ _getTimezoneFingerprint d1)%string in
  of_base36 0 (token d1) = Z.abs (to_int32 (horner 0 joined))
  /\ token d1 = toString36 (Z.abs (to_int32 (horner 0 joined)))
  /\ token d1 = token d2.
Proof.
  intros Hsame. cbv zeta.
  assert (Htoken : forall d,
            token d
            = toString36
                (Z.abs (to_int32 (horner 0
                   (_getCanvasFingerprint d ++ "|" ++ _getWebGLFingerprint d ++ "|"
                    ++ _getAudioFingerprint d ++ "|" ++ _getBrowserFeatures d ++ "|"
                    ++ _getScreenFingerprint d ++ "|"
                    ++ _getTimezoneFingerprint d)%string)))).
  { intros d. unfold token, _generateFingerprint, _hashString.
    rewrite settled_joined. f_equal. f_equal.
    exact (hash_loop_horner _ 0). }
  split; [|split].
  - rewrite Htoken. apply toString36_decodes. apply Z.abs_nonneg.
  - apply Htoken.
  - rewrite !Htoken.
    destruct (same_successes_outputs d1 d2 Hsame) as (-> & -> & -> & -> & -> & ->).
    reflexivity.
Qed.

(** An instance: two runs on one laptop, in which the WebGL source threw
    for different reasons. *)
Lemma fingerprint_is_deterministic_witness :
  same_successes Sample.laptop Sample.laptop_again
  /\ token Sample.laptop = token Sample.laptop_again.
Proof.
  assert (H : same_successes Sample.laptop Sample.laptop_again).
  { unfold same_successes. cbn. repeat split; constructor. }
  split; [exact H|].
  exact (proj2 (proj2 (fingerprint_is_deterministic _ _ H))).
Defined.

End FingerprintFacts.

(* ===================================================================== *)
(** ** Scenarios *)
(* ===================================================================== *)

(** A login scored 85 (ALLOW) proceeds unmodified, and its assessment is
    logged once under the service's request id. *)
Example scenario_login_allowed :
  let run := protectLogin (Sample.answers (Sample.assessment "ALLOW" 85))
               Sample.config Sample.ambient Sample.store_ok Sample.nobody
               (Sample.request "u1" "192.168.1.100") fresh_world in
  (exists req', snd run = Next req'
                /\ annotation "idrockAssessment" req' = Sample.assessment "ALLOW" 85
                /\ annotation "requiresAdditionalAuth" req' = VUndef)
  /\ map correlation_id (risk_events (fst run)) = [VStr "req_7f3a9c"]
  /\ attempts (fst run) = 1%nat.
Proof. vm_compute. split; [eexists; repeat split | split; reflexivity]. Qed.

(** A checkout with verdict DENY is answered 403 with the request id; the
    protected action is bypassed, and both the assessment and the blocked
    attempt are logged. *)
Example scenario_checkout_blocked :
  let run := protectCheckout (Sample.answers (Sample.assessment "DENY" 12))
               Sample.config Sample.ambient Sample.store_ok
               (Sample.request "u1" "45.76.97.227") fresh_world in
  (exists payload, snd run = Respond 403 payload
                   /\ Js.optchain payload "requestId" = VStr "req_7f3a9c"
                   /\ Js.optchain payload "riskLevel" = VStr "DENY")
  /\ map (fun row => Js.optchain row "event_type") (audit (fst run))
     = [VStr "risk_assessment"; VStr "checkout_attempt"].
Proof. vm_compute. split; [eexists; repeat split | reflexivity]. Qed.

(** A scoring service that keeps answering 503: the client gives up after
    the first answer, and the login proceeds on a fallback assessment. *)
Example scenario_service_down :
  let run := protectLogin Sample.always_503 Sample.config Sample.ambient
               Sample.store_ok Sample.nobody
               (Sample.request "u1" "192.168.1.100") fresh_world in
  (exists req', snd run = Next req'
                /\ Js.optchain (annotation "idrockAssessment" req') "risk_level"
                   = VStr "REVIEW"
                /\ Js.optchain (annotation "idrockAssessment" req') "fallback"
                   = VBool true
                /\ annotation "requiresAdditionalAuth" req' = VBool true)
  /\ attempts (fst run) = 1%nat
  /\ stats (fst run) = {| totalRequests := 1; successfulRequests := 0;
                          failedRequests := 1 |}.
Proof. vm_compute. split; [eexists; repeat split | split; reflexivity]. Qed.

(** A REVIEW verdict without a [recommendations] array: the assessment is
    logged, reading the reasons throws, and the fallback path logs a
    second [risk_assessment] event for the same request. *)
Example scenario_review_without_reasons :
  let verdict := VObj [("risk_level", VStr "REVIEW"); ("confidence_score", VNum 45);
                       ("request_id", VStr "req_7f3a9c")] in
  let run := protectLogin (Sample.answers verdict)
               Sample.config Sample.ambient Sample.store_ok Sample.nobody
               (Sample.request "u1" "192.168.1.100") fresh_world in
  map correlation_id (risk_events (fst run))
  = [VStr "req_7f3a9c"; VStr "fallback_a91d04c7-52b"].
Proof. vm_compute. reflexivity. Qed.

(** The login assessment route when the scoring service answers 503: the
    handler rejects with the [ReferenceError] of its [catch] block. *)
Example scenario_assess_route_service_down :
  snd (assessRisk Sample.always_503 Sample.config Sample.ambient "login"
         (Sample.request "u1" "192.168.1.100") fresh_world)
  = Unhandled (ReferenceError "userData").
Proof. vm_compute. reflexivity. Qed.
(* ===================================================================== *)
(** ** More on the client *)
(* ===================================================================== *)

(** What comes back from a request that was sent and followed: a
    response the service gave during the call, with a 2xx status when
    the call resolves and another status when it rejects with a
    response. *)
Lemma follow_outcome server budget : forall m u w,
  let run := follow server budget m u w in
  match snd run with
  | Return r =>
      exists n, (attempts w <= n < attempts (fst run))%nat
                /\ answer (server n) = Some r /\ ok_status (status r) = true
  | Throw e =>
      (exists msg, e = AxiosError None msg)
      \/ exists n r msg,
           e = AxiosError (Some r) msg
           /\ (attempts w <= n < attempts (fst run))%nat
           /\ answer (server n) = Some r /\ ok_status (status r) = false
  end.
Proof.
  assert (Hsettle : forall m u w st txt d,
            answer (server (attempts w)) = Some (mkResponse st txt d) ->
            match settle (mkResponse st txt d) with
            | Return r =>
                exists n, (attempts w <= n < attempts (emit (Transmit m u) w))%nat
                          /\ answer (server n) = Some r /\ ok_status (status r) = true
            | Throw e =>
                (exists msg, e = AxiosError None msg)
                \/ exists n r msg,
                     e = AxiosError (Some r) msg
                     /\ (attempts w <= n < attempts (emit (Transmit m u) w))%nat
                     /\ answer (server n) = Some r /\ ok_status (status r) = false
            end).
  { intros m u w st txt d Hans. unfold settle. cbn [status].
    fold (ok_status st). destruct (ok_status st) eqn:Hok.
    - exists (attempts w). rewrite attempts_emit_transmit. repeat split; auto; lia.
    - right. exists (attempts w). do 2 eexists. rewrite attempts_emit_transmit.
      repeat split; eauto; lia. }
  induction budget as [|budget IH]; intros m u w; cbn [follow].
  - destruct (server (attempts w)) as [st txt d| |st txt d location] eqn:Hsrv;
      cbn [fst snd].
    + apply Hsettle. rewrite Hsrv. reflexivity.
    + left. eauto.
    + destruct ((300 <=? st) && (st <? 400)) eqn:H3; cbn [fst snd].
      * left. eauto.
      * apply Hsettle. rewrite Hsrv. cbn [answer]. rewrite H3. reflexivity.
  - destruct (server (attempts w)) as [st txt d| |st txt d location] eqn:Hsrv;
      cbn [fst snd].
    + apply Hsettle. rewrite Hsrv. reflexivity.
    + left. eauto.
    + destruct ((300 <=? st) && (st <? 400)) eqn:H3; cbn [fst snd].
      * specialize (IH (redirect_method st m) location (emit (Transmit m u) w)).
        cbv zeta in IH. rewrite attempts_emit_transmit in IH.
        destruct (snd (follow server budget (redirect_method st m) location
                         (emit (Transmit m u) w))) as [r|e].
        -- destruct IH as (n & Hn & Hans & Hok). exists n.
           repeat split; auto; lia.
        -- destruct IH as [Hnet | (n & r & msg & He & Hn & Hans & Hok)];
             [left; exact Hnet|].
           right. exists n, r, msg. repeat split; auto; lia.
      * apply Hsettle. rewrite Hsrv. cbn [answer]. rewrite H3. reflexivity.
Qed.

(** A request through the client: what it leaves on the wire. *)
Lemma transmit_sent server config w :
  sent_with_redirects server (method config) (url config) w
                      (fst (transmit server config w)).
Proof.
  unfold sent_with_redirects.
  destruct (follow_effect server maxRedirects (method config) (url config) w)
    as (_ & _ & _ & Hatt & hops & Hwire & Hall).
  fold (transmit server config w) in *.
  exists hops. split; [exact Hwire|]. split; [|split; [exact Hall|]].
  - assert (Hlen : attempts (fst (transmit server config w))
                   = (attempts w + S (List.length hops))%nat).
    { unfold attempts. rewrite Hwire, filter_app, length_app. cbn [filter is_transmit].
      cbn [List.length]. f_equal. f_equal.
      clear - Hall. induction Hall as [|e l He _ IH]; [reflexivity|].
      cbn [filter]. rewrite He. cbn [List.length]. rewrite IH. reflexivity. }
    lia.
  - intros Hdirect. rewrite (transmit_direct server config w Hdirect) in Hwire.
    cbn [fst emit wire] in Hwire.
    apply app_inv_head in Hwire. inversion Hwire. reflexivity.
Qed.

(** The same request when the first reply is no redirect: what it
    resolves or rejects with. *)
Lemma transmit_direct_outcome server config w :
  redirects (server (attempts w)) = false ->
  snd (transmit server config w)
  = match answer (server (attempts w)) with
    | Some r => settle r
    | None => Throw (AxiosError None "Network Error")
    end.
Proof.
  intros Hdirect. rewrite (transmit_direct server config w Hdirect). cbn [snd].
  unfold redirects, answer in *.
  destruct (server (attempts w)) as [st txt d| |st txt d location]; try reflexivity.
  rewrite Hdirect. reflexivity.
Qed.

Lemma settle_returns r r' :
  settle r = Return r' <-> r' = r /\ ok_status (status r) = true.
Proof.
  unfold settle. fold (ok_status (status r)).
  destruct (ok_status (status r)); split.
  - intros H; inversion H; auto.
  - intros [-> _]. reflexivity.
  - discriminate.
  - intros [_ H]; discriminate.
Qed.

(** The log line after the request prints exactly the loggable bodies. *)
Lemma log_response_loggable body :
  log_response body = Return tt <-> loggable body = true.
Proof.
  unfold log_response, loggable, ToString.
  destruct body; cbn [getprop nullish negb andb];
    try (split; discriminate);
    destruct (Js.printable (Js.optchain _ "risk_level")); cbn [andb];
    try (split; discriminate);
    destruct (Js.printable (Js.optchain _ "confidence_score"));
    split; try discriminate; reflexivity.
Qed.

Lemma log_response_total body :
  loggable body = false -> exists failure, log_response body = Throw failure.
Proof.
  intros Hno. destruct (log_response body) as [[]|failure] eqn:E; [|eauto].
  apply log_response_loggable in E. congruence.
Qed.

(** An accepted context names a valid action, which prints. *)
Lemma accepted_action_prints userData :
  _validateUserData userData = Return tt ->
  Js.printable (Js.lookup "actionType" userData) = true.
Proof.
  unfold _validateUserData.
  destruct (first_missing required userData); [discriminate|].
  destruct (Js.includes validActions (Js.lookup "actionType" userData)) eqn:Hin;
    [|discriminate].
  intros _. destruct (Js.lookup "actionType" userData); try reflexivity;
    discriminate Hin.
Qed.

Lemma log_request_prints userData :
  _validateUserData userData = Return tt ->
  log_request userData
  = if Js.printable (Js.lookup "userId" userData) then Return tt
    else Throw (TypeError "Cannot convert object to primitive value").
Proof.
  intros Hok. unfold log_request, ToString.
  rewrite (accepted_action_prints userData Hok).
  destruct (Js.printable (Js.lookup "userId" userData)); reflexivity.
Qed.

(** X1.  An identity context that validation does not reject reaches the
    service unless the first log line fails.  With logging on and a
    [userId] that does not convert to a string, [verifyIdentity] sends
    nothing and throws the wrapped [TypeError].  Otherwise it puts its
    POST to the verify endpoint on the wire, followed only by the
    requests that follow redirects; what it returns is the body of a 2xx
    response the service gave during the call; and when the first
    reply is no redirect, that POST is the only request and a value is
    returned exactly when the reply is a 2xx response whose body (with
    logging on) the second log line can print. *)
Theorem accepted_context_reaches_the_service server idrock sdk userData w :
  ~ rejected_context userData ->
  let run := verifyIdentity server idrock sdk userData w in
  if negb (enableLogging sdk) || Js.printable (Js.lookup "userId" userData)
  then
    sent_with_redirects server "post" (Config.endpoints_verify idrock) w (fst run)
    /\ (forall d,
          snd run = Return d ->
          exists n r,
            (attempts w <= n < attempts (fst run))%nat
            /\ answer (server n) = Some r /\ ok_status (status r) = true
            /\ data r = d
            /\ (enableLogging sdk = true -> loggable d = true))
    /\ (redirects (server (attempts w)) = false ->
        forall d,
          snd run = Return d
          <-> exists st txt,
                answer (server (attempts w)) = Some (mkResponse st txt d)
                /\ ok_status st = true
                /\ (enableLogging sdk = true -> loggable d = true))
  else
    wire (fst run) = wire w
    /\ exists message original,
         snd run = Throw (IDRockAPIError message (Some original) None).
Proof.
  intros Hacc. apply validate_accepts_iff in Hacc.
  unfold verifyIdentity, post. rewrite Hacc.
  destruct (enableLogging sdk) eqn:Hlog; cbn [negb orb].
  - rewrite (log_request_prints userData Hacc).
    destruct (Js.printable (Js.lookup "userId" userData)).
    + rewrite fresh_request_once.
      match goal with |- context [transmit server ?c w] =>
        pose proof (transmit_sent server c w) as Hsent;
        pose proof (transmit_direct_outcome server c w) as Hdirect;
        pose proof (follow_outcome server maxRedirects (method c) (url c) w) as Hout;
        fold (transmit server c w) in Hout;
        destruct (transmit server c w) as [w1 [response|error]]
      end; cbn [method url fst snd] in *.
      * destruct (log_response (data response)) as [[]|failure] eqn:Eresp.
        -- cbn [fst snd with_stats wire]. split; [exact Hsent|]. split.
           ++ intros d H; inversion H; subst.
              destruct Hout as (n & Hn & Hans & Hok). exists n, response.
              rewrite attempts_with_stats.
              split; [lia|]. split; [exact Hans|]. split; [exact Hok|].
              split; [reflexivity|].
              intros _. apply log_response_loggable. exact Eresp.
           ++ intros Hno d. specialize (Hdirect Hno). split.
              ** intros H; inversion H; subst.
                 destruct (answer (server (attempts w))) as [r|]; [|discriminate].
                 symmetry in Hdirect. apply settle_returns in Hdirect.
                 destruct Hdirect as [-> Hok]. destruct r as [st txt d'].
                 exists st, txt. split; [reflexivity|]. split; [exact Hok|].
                 intros _. apply log_response_loggable. exact Eresp.
              ** intros (st & txt & Hans & Hok & _). rewrite Hans in Hdirect.
                 symmetry in Hdirect. apply settle_returns in Hdirect.
                 destruct Hdirect as [-> _]. reflexivity.
        -- caught. cbn [fst snd with_stats wire]. split; [exact Hsent|]. split.
           ++ intros d H; discriminate H.
           ++ intros Hno d. specialize (Hdirect Hno). split; [discriminate|].
              intros (st & txt & Hans & Hok & Hlogg). rewrite Hans in Hdirect.
              symmetry in Hdirect. apply settle_returns in Hdirect.
              destruct Hdirect as [-> _]. cbn [data] in Eresp.
              specialize (Hlogg eq_refl). apply log_response_loggable in Hlogg.
              congruence.
      * caught. cbn [fst snd with_stats wire]. split; [exact Hsent|]. split.
        -- intros d H; discriminate H.
        -- intros Hno d. specialize (Hdirect Hno). split; [discriminate|].
           intros (st & txt & Hans & Hok & _). rewrite Hans in Hdirect.
           unfold settle in Hdirect. cbn [status] in Hdirect.
           fold (ok_status st) in Hdirect. rewrite Hok in Hdirect. discriminate.
    + unfold fail_with. cbn. split; [reflexivity|]. eauto.
  - cbn [orb]. rewrite fresh_request_once.
    match goal with |- context [transmit server ?c w] =>
      pose proof (transmit_sent server c w) as Hsent;
      pose proof (transmit_direct_outcome server c w) as Hdirect;
      pose proof (follow_outcome server maxRedirects (method c) (url c) w) as Hout;
      fold (transmit server c w) in Hout;
      destruct (transmit server c w) as [w1 [response|error]]
    end; cbn [method url fst snd] in *.
    + cbn [fst snd with_stats wire]. split; [exact Hsent|]. split.
      * intros d H; inversion H; subst.
        destruct Hout as (n & Hn & Hans & Hok). exists n, response.
        rewrite attempts_with_stats.
        split; [lia|]. split; [exact Hans|]. split; [exact Hok|].
        split; [reflexivity|]. discriminate.
      * intros Hno d. specialize (Hdirect Hno). split.
        -- intros H; inversion H; subst.
           destruct (answer (server (attempts w))) as [r|]; [|discriminate].
           symmetry in Hdirect. apply settle_returns in Hdirect.
           destruct Hdirect as [-> Hok]. destruct r as [st txt d'].
           exists st, txt. split; [reflexivity|]. split; [exact Hok|].
           discriminate.
        -- intros (st & txt & Hans & Hok & _). rewrite Hans in Hdirect.
           symmetry in Hdirect. apply settle_returns in Hdirect.
           destruct Hdirect as [-> _]. reflexivity.
    + caught. cbn [fst snd with_stats wire]. split; [exact Hsent|]. split.
      * intros d H; discriminate H.
      * intros Hno d. specialize (Hdirect Hno). split; [discriminate|].
        intros (st & txt & Hans & Hok & _). rewrite Hans in Hdirect.
        unfold settle in Hdirect. cbn [status] in Hdirect.
        fold (ok_status st) in Hdirect. rewrite Hok in Hdirect. discriminate.
Qed.

Lemma accepted_context_reaches_the_service_witness :
  ~ rejected_context (Sample.identity "192.168.1.100" "login")
  /\ wire (fst (verifyIdentity (Sample.moved (Sample.assessment "ALLOW" 85))
                  Sample.config Sample.sdk
                  (Sample.identity "192.168.1.100" "login") fresh_world))
     = [Transmit "post" "/api/v1/identity/verify";
        Transmit "post" "/api/v2/identity/verify"]
  /\ sent_with_redirects (Sample.moved (Sample.assessment "ALLOW" 85)) "post"
       "/api/v1/identity/verify" fresh_world
       (fst (verifyIdentity (Sample.moved (Sample.assessment "ALLOW" 85))
               Sample.config Sample.sdk
               (Sample.identity "192.168.1.100" "login") fresh_world)).
Proof.
  assert (H : ~ rejected_context (Sample.identity "192.168.1.100" "login")).
  { apply validate_accepts_iff. vm_compute. reflexivity. }
  split; [exact H|]. split; [vm_compute; reflexivity|].
  exact (proj1 (accepted_context_reaches_the_service
                  (Sample.moved (Sample.assessment "ALLOW" 85))
                  Sample.config Sample.sdk
                  (Sample.identity "192.168.1.100" "login") fresh_world H)).
Defined.

(** What [_handleError] makes of an error, by where it came from: the
    client's error class, with a status code only for a failed response
    and for an error of the client's own that had one; or the
    [TypeError] of its template literal over an unprintable [detail]. *)
Lemma handleError_shape error operation :
  match _handleError error operation with
  | Return wrapped =>
      exists message original code,
        wrapped = IDRockAPIError message original code
        /\ (forall st, code = Some st ->
              (exists r m, error = AxiosError (Some r) m /\ status r = st)
              \/ (exists m o, error = IDRockAPIError m o (Some st)))
  | Throw failure =>
      failure = TypeError "Cannot convert object to primitive value"
      /\ exists r m, error = AxiosError (Some r) m /\ unprintable_detail r = true
  end.
Proof.
  destruct error as [m|x|[r|] m|m|m o c]; cbn [_handleError].
  - do 3 eexists. split; [reflexivity|]. discriminate.
  - do 3 eexists. split; [reflexivity|]. discriminate.
  - unfold unprintable_detail, failure_detail, ToString.
    destruct (Js.truthy (data r) && Js.truthy (Js.optchain (data r) "detail"))
      eqn:Ht.
    + destruct (Js.printable _) eqn:Hp.
      * do 3 eexists. split; [reflexivity|].
        intros st H; inversion H; subst; left; eauto.
      * split; [reflexivity|]. exists r, m. split; [reflexivity|].
        rewrite Ht, Hp. reflexivity.
    + do 3 eexists. split; [reflexivity|].
      intros st H; inversion H; subst; left; eauto.
  - do 3 eexists. split; [reflexivity|]. discriminate.
  - do 3 eexists. split; [reflexivity|]. discriminate.
  - do 3 eexists. split; [reflexivity|].
    intros st H; subst. right. eauto.
Qed.

(** What the [catch] block throws, given what it caught. *)
Lemma fail_with_outcome server w w1 operation error w2 e :
  caught_in server w w1 error ->
  snd (fail_with operation error w2) = Throw e ->
  (exists message original code,
     e = IDRockAPIError message original code
     /\ forall st, code = Some st ->
          exists n txt d,
            (attempts w <= n < attempts w1)%nat
            /\ answer (server n) = Some (mkResponse st txt d)
            /\ ok_status st = false)
  \/ (e = TypeError "Cannot convert object to primitive value"
      /\ exists n r,
           (attempts w <= n < attempts w1)%nat
           /\ answer (server n) = Some r
           /\ ok_status (status r) = false
           /\ unprintable_detail r = true).
Proof.
  intros Hsrc. unfold fail_with. cbn [snd].
  pose proof (handleError_shape error operation) as Hshape.
  destruct (_handleError error operation) as [wrapped|failure];
    intros H; inversion H; subst.
  - left. destruct Hshape as (m & o & c & -> & Hcode). exists m, o, c.
    split; [reflexivity|]. intros st Hst.
    destruct (Hcode st Hst) as [(r & msg & He & Hr) | (msg & o' & He)];
      destruct Hsrc as [(msg' & He') | [(msg' & He') | [(msg' & He')
                        | (n & r' & msg' & He' & Hn & Hans & Hok)]]];
      rewrite He in He'; inversion He'; subst.
    destruct r' as [st' txt d]. cbn [status] in *. exists n, txt, d. auto.
  - right. destruct Hshape as (-> & r & msg & He & Hun).
    split; [reflexivity|].
    destruct Hsrc as [(msg' & He') | [(msg' & He') | [(msg' & He')
                      | (n & r' & msg' & He' & Hn & Hans & Hok)]]];
      rewrite He in He'; inversion He'; subst.
    exists n, r'. auto.
Qed.

Lemma validation_error_shape userData error :
  _validateUserData userData = Throw error ->
  exists msg, error = IDRockAPIError msg None None.
Proof.
  unfold _validateUserData.
  destruct (first_missing required userData); [intros H; inversion H; eauto|].
  destruct (negb (Js.includes validActions _)); [intros H; inversion H; eauto|].
  destruct (negb (ipRegex_test _)); [intros H; inversion H; eauto | discriminate].
Qed.

Lemma log_request_error_shape userData error :
  log_request userData = Throw error -> exists msg, error = TypeError msg.
Proof.
  unfold log_request, ToString.
  repeat match goal with
         | |- context [if ?b then _ else _] => destruct b
         end; intros H; inversion H; eauto.
Qed.

Lemma log_response_error_shape body error :
  log_response body = Throw error -> exists msg, error = TypeError msg.
Proof.
  unfold log_response, ToString.
  destruct body; cbn [getprop];
    try (intros H; inversion H; eauto; fail);
    repeat match goal with
           | |- context [if ?b then _ else _] => destruct b
           end; intros H; inversion H; eauto.
Qed.

(** What a request through the client is rejected with. *)
Lemma transmit_failure server config w error :
  snd (transmit server config w) = Throw error ->
  caught_in server w (fst (transmit server config w)) error.
Proof.
  intros H.
  pose proof (follow_outcome server maxRedirects (method config) (url config) w) as Hout.
  fold (transmit server config w) in Hout. cbv zeta in Hout. rewrite H in Hout.
  unfold caught_in. destruct Hout as [Hnet | Hresp]; auto.
Qed.

(** X2.  What a request method of the client throws is an
    [IDRockAPIError], unless the error handler's own message fails to
    build.  The [IDRockAPIError] carries a status code only when the
    scoring service gave, during the call, a response with that status,
    outside 2xx.  The one other error is the [TypeError] of the
    handler's template literal, and it escapes only when the service
    gave, during the call, a response outside 2xx whose [detail] (or
    its [message]) has no string conversion. *)
Theorem client_failures_are_wrapped server idrock sdk call w e :
  let run := client_call server idrock sdk call w in
  snd run = Throw e ->
  (exists message original code,
     e = IDRockAPIError message original code
     /\ forall st, code = Some st ->
          exists n txt d,
            (attempts w <= n < attempts (fst run))%nat
            /\ answer (server n) = Some (mkResponse st txt d)
            /\ ok_status st = false)
  \/ (e = TypeError "Cannot convert object to primitive value"
      /\ exists n r,
           (attempts w <= n < attempts (fst run))%nat
           /\ answer (server n) = Some r
           /\ ok_status (status r) = false
           /\ unprintable_detail r = true).
Proof.
  cbv zeta.
  assert (Hfst : forall op error w2, fst (fail_with op error w2)
                                     = with_stats count_failure w2)
    by reflexivity.
  destruct call as [userData|userId filters|]; cbn [client_call].
  - unfold verifyIdentity, post.
    destruct (_validateUserData userData) as [[]|ve] eqn:Hval.
    + destruct (if enableLogging sdk then log_request userData else Return tt)
        as [[]|le] eqn:Hlogreq.
      * rewrite fresh_request_once.
        match goal with |- context [transmit server ?c w] =>
          pose proof (transmit_failure server c w) as Hf;
          destruct (transmit server c w) as [w1 [response|error]]
        end; cbn [fst snd] in Hf.
        -- destruct (if enableLogging sdk then log_response (data response)
                     else Return tt) as [[]|re] eqn:Hlogresp; [discriminate|].
           rewrite Hfst, attempts_with_stats.
           apply fail_with_outcome. right. left.
           destruct (enableLogging sdk); [|discriminate].
           eapply log_response_error_shape; eauto.
        -- rewrite Hfst, attempts_with_stats.
           apply fail_with_outcome. apply Hf. reflexivity.
      * rewrite Hfst, attempts_with_stats.
        apply fail_with_outcome. right. left.
        destruct (enableLogging sdk); [|discriminate].
        eapply log_request_error_shape; eauto.
    + rewrite Hfst, attempts_with_stats.
      apply fail_with_outcome. left.
      eapply validation_error_shape; eauto.
  - unfold getAssessmentHistory, get. rewrite fresh_request_once.
    match goal with |- context [transmit server ?c w] =>
      pose proof (transmit_failure server c w) as Hf;
      destruct (transmit server c w) as [w1 [response|error]]
    end; cbn [fst snd] in Hf; [discriminate|].
    rewrite Hfst, attempts_with_stats.
    apply fail_with_outcome. apply Hf. reflexivity.
  - unfold healthCheck, get. rewrite fresh_request_once.
    match goal with |- context [transmit server ?c w] =>
      pose proof (transmit_failure server c w) as Hf;
      destruct (transmit server c w) as [w1 [response|error]]
    end; cbn [fst snd] in Hf; [discriminate|].
    rewrite Hfst, attempts_with_stats.
    apply fail_with_outcome. apply Hf. reflexivity.
Qed.

Lemma client_failures_are_wrapped_witness :
  (exists message original,
     snd (client_call Sample.always_503 Sample.config Sample.sdk CallHealth
            fresh_world)
     = Throw (IDRockAPIError message original (Some 503)))
  /\ snd (client_call Sample.unprintable_422 Sample.config Sample.sdk CallHealth
            fresh_world)
     = Throw (TypeError "Cannot convert object to primitive value")
  /\ exists n r,
       answer (Sample.unprintable_422 n) = Some r
       /\ unprintable_detail r = true.
Proof.
  split; [do 2 eexists; vm_compute; reflexivity|].
  assert (H : snd (client_call Sample.unprintable_422 Sample.config Sample.sdk
                     CallHealth fresh_world)
              = Throw (TypeError "Cannot convert object to primitive value"))
    by (vm_compute; reflexivity).
  split; [exact H|].
  destruct (client_failures_are_wrapped Sample.unprintable_422 Sample.config
              Sample.sdk CallHealth fresh_world _ H)
    as [(m & o & c & Heq & _) | (_ & n & r & _ & Hans & _ & Hun)].
  - discriminate Heq.
  - exists n, r. split; assumption.
Defined.

(** A GET through the client, as both read methods make it. *)
Lemma get_outcome server sdk u w :
  let run := get server sdk u w in
  sent_with_redirects server "get" u w (fst run)
  /\ stats (fst run) = stats w
  /\ (forall response,
        snd run = Return response ->
        exists n, (attempts w <= n < attempts (fst run))%nat
                  /\ answer (server n) = Some response
                  /\ ok_status (status response) = true)
  /\ (redirects (server (attempts w)) = false ->
      forall d,
        (exists response, snd run = Return response /\ data response = d)
        <-> exists st txt,
              answer (server (attempts w)) = Some (mkResponse st txt d)
              /\ ok_status st = true).
Proof.
  unfold get. rewrite fresh_request_once.
  match goal with |- context [transmit server ?c w] =>
    pose proof (transmit_sent server c w) as Hsent;
    pose proof (transmit_direct_outcome server c w) as Hdirect;
    pose proof (stats_after_transmit server c w) as Hstats;
    pose proof (follow_outcome server maxRedirects (method c) (url c) w) as Hout;
    fold (transmit server c w) in Hout;
    destruct (transmit server c w) as [w1 [response|error]]
  end; cbn [method url fst snd] in *.
  - split; [exact Hsent|]. split; [exact Hstats|]. split.
    + intros r H; inversion H; subst. exact Hout.
    + intros Hno d. specialize (Hdirect Hno). split.
      * intros (r & H & Hd); inversion H; subst.
        destruct (answer (server (attempts w))) as [r'|]; [|discriminate].
        symmetry in Hdirect. apply settle_returns in Hdirect.
        destruct Hdirect as [-> Hok]. destruct r' as [st txt d'].
        exists st, txt. split; [reflexivity | exact Hok].
      * intros (st & txt & Hans & Hok). rewrite Hans in Hdirect.
        symmetry in Hdirect. apply settle_returns in Hdirect.
        destruct Hdirect as [-> _]. eexists. split; reflexivity.
  - split; [exact Hsent|]. split; [exact Hstats|]. split.
    + intros r H; discriminate H.
    + intros Hno d. specialize (Hdirect Hno). split.
      * intros (r & H & _); discriminate H.
      * intros (st & txt & Hans & Hok). rewrite Hans in Hdirect.
        unfold settle in Hdirect. cbn [status] in Hdirect.
        fold (ok_status st) in Hdirect. rewrite Hok in Hdirect. discriminate.
Qed.

(** X3.  [getAssessmentHistory] and [healthCheck] check nothing before
    sending: for every user id and filter object, each puts its GET to
    its endpoint on the wire, followed only by the requests that follow
    redirects; what either returns is the body of a 2xx response the
    service gave during the call; when the first reply is no redirect,
    that GET is the only request and a value is returned exactly when
    the reply is a 2xx response, the value being its body; and each
    counts the call once. *)
Theorem read_calls_reach_the_service server idrock sdk userId filters w :
  let history := getAssessmentHistory server idrock sdk userId filters w in
  let health := healthCheck server idrock sdk w in
  sent_with_redirects server "get" (Config.endpoints_history idrock) w (fst history)
  /\ sent_with_redirects server "get" (Config.endpoints_health idrock) w (fst health)
  /\ (forall d,
        snd history = Return d ->
        exists n r, (attempts w <= n < attempts (fst history))%nat
                    /\ answer (server n) = Some r
                    /\ ok_status (status r) = true /\ data r = d)
  /\ (forall d,
        snd health = Return d ->
        exists n r, (attempts w <= n < attempts (fst health))%nat
                    /\ answer (server n) = Some r
                    /\ ok_status (status r) = true /\ data r = d)
  /\ (redirects (server (attempts w)) = false ->
      wire (fst history)
      = (wire w ++ [Transmit "get" (Config.endpoints_history idrock)])%list
      /\ wire (fst health)
         = (wire w ++ [Transmit "get" (Config.endpoints_health idrock)])%list
      /\ forall d,
           (snd history = Return d
            <-> exists st txt,
                  answer (server (attempts w)) = Some (mkResponse st txt d)
                  /\ ok_status st = true)
           /\ (snd health = Return d
               <-> exists st txt,
                     answer (server (attempts w)) = Some (mkResponse st txt d)
                     /\ ok_status st = true))
  /\ totalRequests (stats (fst history)) = totalRequests (stats w) + 1
  /\ totalRequests (stats (fst health)) = totalRequests (stats w) + 1.
Proof.
  assert (Hone : forall operation u,
            let run := match get server sdk u w with
                       | (w1, Return response) =>
                           (with_stats count_success w1, Return (data response))
                       | (w1, Throw error) => fail_with operation error w1
                       end in
            sent_with_redirects server "get" u w (fst run)
            /\ (forall d,
                  snd run = Return d ->
                  exists n r, (attempts w <= n < attempts (fst run))%nat
                              /\ answer (server n) = Some r
                              /\ ok_status (status r) = true /\ data r = d)
            /\ (redirects (server (attempts w)) = false ->
                wire (fst run) = (wire w ++ [Transmit "get" u])%list
                /\ forall d,
                     snd run = Return d
                     <-> exists st txt,
                           answer (server (attempts w)) = Some (mkResponse st txt d)
                           /\ ok_status st = true)
            /\ totalRequests (stats (fst run)) = totalRequests (stats w) + 1).
  { intros operation u.
    destruct (get_outcome server sdk u w) as (Hsent & Hstats & Hret & Hdirect).
    cbv zeta in *.
    destruct (get server sdk u w) as [w1 [response|error]]; cbn [fst snd] in *.
    - split; [exact Hsent|]. split; [|split].
      + intros d H; inversion H; subst.
        destruct (Hret response eq_refl) as (n & Hn & Hans & Hok).
        exists n, response. rewrite attempts_with_stats. auto.
      + intros Hno. split.
        * destruct Hsent as (hops & Hwire & _ & _ & Hnil).
          cbn [with_stats wire]. rewrite Hwire, (Hnil Hno). reflexivity.
        * intros d. rewrite <- (Hdirect Hno d). split.
          -- intros H; inversion H; subst. eauto.
          -- intros (r & H & Hd); inversion H; subst. reflexivity.
      + cbn [with_stats stats]. rewrite Hstats. reflexivity.
    - caught. cbn [fst snd].
      split; [exact Hsent|]. split; [|split].
      + intros d H; discriminate H.
      + intros Hno. split.
        * destruct Hsent as (hops & Hwire & _ & _ & Hnil).
          cbn [with_stats wire]. rewrite Hwire, (Hnil Hno). reflexivity.
        * intros d. rewrite <- (Hdirect Hno d). split.
          -- discriminate.
          -- intros (r & H & _); discriminate H.
      + cbn [with_stats stats]. rewrite Hstats. reflexivity. }
  cbv zeta.
  destruct (Hone "getAssessmentHistory"%string (Config.endpoints_history idrock))
    as (H1 & H2 & H3 & H4).
  destruct (Hone "healthCheck"%string (Config.endpoints_health idrock))
    as (K1 & K2 & K3 & K4).
  unfold getAssessmentHistory, healthCheck.
  split; [exact H1|]. split; [exact K1|]. split; [exact H2|]. split; [exact K2|].
  split; [|split; [exact H4 | exact K4]].
  intros Hno. destruct (H3 Hno) as [H3a H3b]. destruct (K3 Hno) as [K3a K3b].
  split; [exact H3a|]. split; [exact K3a|].
  intros d. split; [apply H3b | apply K3b].
Qed.

(** One call of a request method: how far it moves the wire. *)
Lemma client_call_wire server idrock sdk call w :
  let w' := fst (client_call server idrock sdk call w) in
  (attempts w' <= attempts w + S maxRedirects)%nat
  /\ (redirects (server (attempts w)) = false -> attempts w' <= S (attempts w))%nat
  /\ backoffs w' = backoffs w
  /\ audit w' = audit w.
Proof.
  assert (Hsend : forall c,
            let w1 := fst (transmit server c w) in
            (attempts w1 <= attempts w + S maxRedirects)%nat
            /\ (redirects (server (attempts w)) = false
                -> attempts w1 <= S (attempts w))%nat
            /\ backoffs w1 = backoffs w /\ audit w1 = audit w).
  { intros c. destruct (transmit_effect server c w) as (_ & Ha & Hb & Hatt).
    cbv zeta in *. split; [lia|]. split; [|split; assumption].
    intros Hno. rewrite (transmit_direct server c w Hno). cbn [fst].
    rewrite attempts_emit_transmit. lia. }
  destruct call as [userData|userId filters|]; cbn [client_call].
  - unfold verifyIdentity, post.
    destruct (_validateUserData userData);
      [|caught; cbn [fst]; rewrite attempts_with_stats, backoffs_with_stats;
        cbn [with_stats audit]; repeat split; lia].
    destruct (if enableLogging sdk then log_request userData else Return tt);
      [|caught; cbn [fst]; rewrite attempts_with_stats, backoffs_with_stats;
        cbn [with_stats audit]; repeat split; lia].
    rewrite fresh_request_once.
    match goal with |- context [transmit server ?c w] =>
      pose proof (Hsend c) as Hw;
      destruct (transmit server c w) as [w1 [response|error]]
    end; cbn [fst] in Hw.
    + destruct (if enableLogging sdk then log_response (data response)
                else Return tt); [|caught]; cbn [fst];
        rewrite ?attempts_with_stats, ?backoffs_with_stats;
        cbn [with_stats audit]; exact Hw.
    + caught. cbn [fst]. rewrite attempts_with_stats, backoffs_with_stats.
      cbn [with_stats audit]. exact Hw.
  - unfold getAssessmentHistory, get. rewrite fresh_request_once.
    match goal with |- context [transmit server ?c w] =>
      pose proof (Hsend c) as Hw;
      destruct (transmit server c w) as [w1 [response|error]]
    end; cbn [fst] in Hw; [|caught]; cbn [fst];
      rewrite attempts_with_stats, backoffs_with_stats;
      cbn [with_stats audit]; exact Hw.
  - unfold healthCheck, get. rewrite fresh_request_once.
    match goal with |- context [transmit server ?c w] =>
      pose proof (Hsend c) as Hw;
      destruct (transmit server c w) as [w1 [response|error]]
    end; cbn [fst] in Hw; [|caught]; cbn [fst];
      rewrite attempts_with_stats, backoffs_with_stats;
      cbn [with_stats audit]; exact Hw.
Qed.

Lemma client_call_stats server idrock sdk call w :
  let s' := stats (fst (client_call server idrock sdk call w)) in
  (balanced (stats w) -> balanced s')
  /\ totalRequests (stats w) + 1 <= totalRequests s'
     <= totalRequests (stats w) + 2.
Proof.
  destruct call as [userData|userId filters|]; cbn [client_call].
  - pose proof (verifyIdentity_counts server idrock sdk userData w) as H.
    cbn zeta in H.
    destruct (snd (verifyIdentity server idrock sdk userData w));
      [rewrite H | destruct H as [-> | ->]]; split;
      auto using balanced_success, balanced_failure; simpl; lia.
  - pose proof (getAssessmentHistory_counts_once server idrock sdk userId filters w) as H.
    cbn zeta in H.
    destruct (snd (getAssessmentHistory server idrock sdk userId filters w));
      rewrite H; split; auto using balanced_success, balanced_failure; simpl; lia.
  - pose proof (healthCheck_counts_once server idrock sdk w) as H.
    cbn zeta in H.
    destruct (snd (healthCheck server idrock sdk w));
      rewrite H; split; auto using balanced_success, balanced_failure; simpl; lia.
Qed.

(** X4.  However the three request methods are interleaved on one client,
    the counters stay balanced, every call is counted at least once and at
    most twice, no call puts more on the wire than its own request and
    the redirects followed from it (one request for each call when the
    service never redirects), no backoff wait ever happens, and the audit
    log is not touched. *)
Theorem client_session_invariants server idrock sdk calls : forall w,
  balanced (stats w) ->
  let w' := client_session server idrock sdk calls w in
  balanced (stats w')
  /\ totalRequests (stats w) + Z.of_nat (List.length calls)
     <= totalRequests (stats w')
     <= totalRequests (stats w) + 2 * Z.of_nat (List.length calls)
  /\ (attempts w' <= attempts w + S maxRedirects * List.length calls)%nat
  /\ ((forall n, redirects (server n) = false) ->
      attempts w' <= attempts w + List.length calls)%nat
  /\ backoffs w' = backoffs w
  /\ audit w' = audit w.
Proof.
  induction calls as [|call rest IH]; intros w Hb; cbn [client_session List.length].
  - repeat split; try assumption; try lia.
  - destruct (client_call_stats server idrock sdk call w) as [Hbal Htot].
    destruct (client_call_wire server idrock sdk call w)
      as (Hatt & Hone & Hback & Haud).
    destruct (IH _ (Hbal Hb)) as (Hb' & Htot' & Hatt' & Hone' & Hback' & Haud').
    cbn zeta in *.
    split; [assumption|]. split; [lia|]. split; [lia|].
    split; [|split; congruence].
    intros Hnever. specialize (Hone (Hnever _)). specialize (Hone' Hnever). lia.
Qed.

Lemma client_session_invariants_witness :
  balanced (stats fresh_world)
  /\ balanced
       (stats (client_session (Sample.moved VNull) Sample.config Sample.sdk
                 [CallHealth;
                  CallVerify (Sample.identity "192.168.1.100" "login");
                  CallHistory (VStr "u1") (VObj [])]
                 fresh_world))
  /\ attempts (client_session (Sample.moved VNull) Sample.config Sample.sdk
                 [CallHealth;
                  CallVerify (Sample.identity "192.168.1.100" "login");
                  CallHistory (VStr "u1") (VObj [])]
                 fresh_world) = 4%nat.
Proof.
  assert (H : balanced (stats fresh_world)) by reflexivity.
  split; [exact H|].
  split; [|vm_compute; reflexivity].
  exact (proj1 (client_session_invariants (Sample.moved VNull) Sample.config
                  Sample.sdk
                  [CallHealth;
                   CallVerify (Sample.identity "192.168.1.100" "login");
                   CallHistory (VStr "u1") (VObj [])]
                  fresh_world H)).
Defined.

(* ===================================================================== *)
(** ** More on the middleware *)
(* ===================================================================== *)

Lemma truthy_either a b :
  Js.truthy (Js.either a b) = Js.truthy a || Js.truthy b.
Proof. unfold Js.either. destruct (Js.truthy a) eqn:E; simpl; auto. Qed.

Lemma either_truthy a b : Js.truthy a = true -> Js.either a b = a.
Proof. unfold Js.either. intros ->. reflexivity. Qed.

Lemma either_falsy a b : Js.truthy a = false -> Js.either a b = b.
Proof. unfold Js.either. intros ->. reflexivity. Qed.

Lemma getClientIP_truthy req : Js.truthy (_getClientIP req) = true.
Proof.
  unfold _getClientIP. rewrite truthy_either. simpl. apply orb_true_r.
Qed.

(** X5.  [_getClientIP] always yields an address: its result is never
    [undefined], [null] or empty, it is the first truthy one among
    [req.ip], the two connection addresses and the nested socket address,
    and [127.0.0.1] when all of them are missing. *)
Theorem getClientIP_never_empty req :
  Js.truthy (_getClientIP req) = true
  /\ (Js.truthy (ip req) = true -> _getClientIP req = ip req)
  /\ (Js.truthy (ip req) = false ->
      Js.truthy (connection_remoteAddress req) = false ->
      Js.truthy (socket_remoteAddress req) = false ->
      Js.truthy (Js.optchain (connection_socket req) "remoteAddress") = false ->
      _getClientIP req = VStr "127.0.0.1").
Proof.
  split; [apply getClientIP_truthy|]. unfold _getClientIP. split.
  - intros H. rewrite !(either_truthy (ip req)) by exact H. reflexivity.
  - intros H1 H2 H3 H4.
    rewrite (either_falsy (ip req)) by exact H1.
    rewrite (either_falsy (connection_remoteAddress req)) by exact H2.
    rewrite (either_falsy (socket_remoteAddress req)) by exact H3.
    destruct (Js.truthy (connection_socket req));
      [rewrite either_falsy by exact H4 | rewrite either_falsy by reflexivity];
      reflexivity.
Qed.

Lemma getClientIP_never_empty_witness :
  _getClientIP (Sample.request "alice" "10.1.2.3") = VStr "10.1.2.3".
Proof.
  exact (proj1 (proj2 (getClientIP_never_empty (Sample.request "alice" "10.1.2.3")))
               eq_refl).
Defined.

Lemma rejected_only_by_address userData :
  first_missing required userData = None ->
  Js.includes validActions (Js.lookup "actionType" userData) = true ->
  rejected_context userData
  <-> basic_ip_format (Js.to_string (Js.lookup "ipAddress" userData)) = false.
Proof.
  intros Hreq Hact. unfold rejected_context. split.
  - intros [(field & Hin & Hf) | [H | H]].
    + rewrite (first_missing_none _ _ Hreq field Hin) in Hf. discriminate.
    + congruence.
    + exact H.
  - auto.
Qed.

Lemma either_default_kept a b : Js.truthy b = true -> Js.falsy (Js.either a b) = false.
Proof.
  intros Hb. unfold Js.falsy. rewrite truthy_either, Hb, orb_true_r. reflexivity.
Qed.

Lemma getClientIP_kept req : Js.falsy (_getClientIP req) = false.
Proof. unfold Js.falsy. rewrite getClientIP_truthy. reflexivity. Qed.

Lemma login_context_rejected amb req :
  rejected_context (_extractLoginUserData amb req)
  <-> basic_ip_format (Js.to_string (_getClientIP req)) = false.
Proof.
  apply (rejected_only_by_address (_extractLoginUserData amb req)); [|reflexivity].
  unfold _extractLoginUserData.
  cbn [first_missing required Js.lookup String.eqb Ascii.eqb Bool.eqb].
  rewrite !either_default_kept, getClientIP_kept by reflexivity. reflexivity.
Qed.

Lemma checkout_context_rejected amb req :
  rejected_context (_extractCheckoutUserData amb req)
  <-> basic_ip_format (Js.to_string (_getClientIP req)) = false.
Proof.
  apply (rejected_only_by_address (_extractCheckoutUserData amb req)); [|reflexivity].
  unfold _extractCheckoutUserData.
  cbn [first_missing required Js.lookup String.eqb Ascii.eqb Bool.eqb].
  rewrite !either_default_kept, getClientIP_kept by reflexivity. reflexivity.
Qed.

Lemma handler_context_rejected actionType req :
  Js.includes validActions (VStr actionType) = true ->
  rejected_context (assessRisk_userData actionType req)
  <-> basic_ip_format (Js.to_string (_getClientIP req)) = false.
Proof.
  intros Hact.
  apply (rejected_only_by_address (assessRisk_userData actionType req)); [|exact Hact].
  unfold assessRisk_userData.
  cbn [first_missing required Js.lookup String.eqb Ascii.eqb Bool.eqb].
  rewrite !either_default_kept, getClientIP_kept by reflexivity.
  destruct actionType; [discriminate Hact | reflexivity].
Qed.

(** X6.  The identity contexts the middleware builds always carry the
    four required fields and (for [protectLogin] and [protectCheckout]) a
    valid action type, so validation can turn them down for one reason
    only: the client address does not have the basic format. *)
Theorem middleware_contexts_fail_only_on_address amb req :
  (rejected_context (_extractLoginUserData amb req)
   <-> basic_ip_format (Js.to_string (_getClientIP req)) = false)
  /\ (rejected_context (_extractCheckoutUserData amb req)
      <-> basic_ip_format (Js.to_string (_getClientIP req)) = false)
  /\ (forall actionType,
        Js.includes validActions (VStr actionType) = true ->
        (rejected_context (assessRisk_userData actionType req)
         <-> basic_ip_format (Js.to_string (_getClientIP req)) = false)).
Proof.
  split; [apply login_context_rejected|].
  split; [apply checkout_context_rejected|].
  intros actionType. apply handler_context_rejected.
Qed.

Lemma middleware_contexts_fail_only_on_address_witness :
  Js.includes validActions (VStr "sensitive_action") = true
  /\ (rejected_context
        (assessRisk_userData "sensitive_action" (Sample.request "alice" "::1"))
      <-> basic_ip_format
            (Js.to_string (_getClientIP (Sample.request "alice" "::1"))) = false).
Proof.
  split; [reflexivity|].
  exact (proj2 (proj2 (middleware_contexts_fail_only_on_address
                         Sample.ambient (Sample.request "alice" "::1")))
               "sensitive_action" eq_refl).
Defined.

(** X7.  [protectLogin] blocks every DENY verdict: when the client
    returns an assessment whose [risk_level] is DENY, the request is
    answered 403 with the assessment's request id and never handed on,
    whatever the audit store and the identity lookup do. *)
Theorem protectLogin_blocks_deny server idrock amb store find req w w1 a :
  Config.integration_enabled idrock = true ->
  assess server idrock (_extractLoginUserData amb req) w = (w1, Return a) ->
  Js.optchain a "risk_level" = VStr "DENY" ->
  exists payload,
    snd (protectLogin server idrock amb store find req w) = Respond 403 payload
    /\ Js.optchain payload "code" = VStr "SECURITY_BLOCK"
    /\ Js.optchain payload "riskLevel" = VStr "DENY"
    /\ Js.optchain payload "requestId" = Js.optchain a "request_id".
Proof.
  intros Hon Hassess Hdeny.
  unfold protectLogin, protectLogin_try. rewrite Hon. simpl negb. cbv iota.
  rewrite Hassess. rewrite (assess_defined _ _ _ _ _ _ Hassess), Hdeny.
  cbn [Js.strict_eq String.eqb Ascii.eqb Bool.eqb snd fst].
  eexists. split; [reflexivity|]. repeat split; rewrite ?Hdeny; reflexivity.
Qed.

Lemma protectLogin_blocks_deny_witness :
  exists payload,
    snd (protectLogin (Sample.answers (Sample.assessment "DENY" 12))
           Sample.config Sample.ambient Sample.store_down Sample.nobody
           (Sample.request "alice" "45.76.97.227") fresh_world)
    = Respond 403 payload
    /\ Js.optchain payload "requestId" = VStr "req_7f3a9c".
Proof.
  destruct (protectLogin_blocks_deny
              (Sample.answers (Sample.assessment "DENY" 12))
              Sample.config Sample.ambient Sample.store_down Sample.nobody
              (Sample.request "alice" "45.76.97.227") fresh_world
              (fst (assess (Sample.answers (Sample.assessment "DENY" 12)) Sample.config
                      (_extractLoginUserData Sample.ambient
                         (Sample.request "alice" "45.76.97.227")) fresh_world))
              (Sample.assessment "DENY" 12))
    as (payload & Hout & _ & _ & Hid).
  - reflexivity.
  - vm_compute. reflexivity.
  - reflexivity.
  - exists payload. split; [exact Hout | exact Hid].
Defined.

(** X8.  In [protectCheckout] a failing audit store overrides the
    verdict.  When the store rejects the assessment row, the rejection is
    caught by the handler's [catch] block: with fallback enabled the
    checkout proceeds, flagged for review and carrying a fallback
    assessment in place of the real one, even if the verdict was DENY;
    with fallback disabled it is answered 503. *)
Theorem protectCheckout_store_failure_overrides_verdict
        server idrock amb store req w w1 a :
  Config.integration_enabled idrock = true ->
  (forall log row, store log row = false) ->
  assess server idrock (_extractCheckoutUserData amb req) w = (w1, Return a) ->
  let run := protectCheckout server idrock amb store req w in
  audit (fst run) = audit w
  /\ if Config.enabled (Config.risk_fallback idrock)
     then exists req',
            snd run = Next req'
            /\ annotation "requiresReview" req' = VBool true
            /\ annotation "idrockAssessment" req'
               = createFallbackResponse idrock amb
                   (Js.either (Js.optchain (user req) "id") (VStr "unknown"))
                   (VStr "checkout_service_error")
     else exists payload, snd run = Respond 503 payload.
Proof.
  intros Hon Hstore Hassess run. subst run.
  pose proof (verifyIdentity_audit server idrock (idrockClient idrock)
                (_extractCheckoutUserData amb req) w) as Haud.
  fold (assess server idrock (_extractCheckoutUserData amb req) w) in Haud.
  rewrite Hassess in Haud. cbn [fst] in Haud.
  unfold protectCheckout, protectCheckout_try. rewrite Hon. simpl negb. cbv iota.
  rewrite Hassess. unfold logRiskAssessment, create. rewrite Hstore.
  unfold protectCheckout_catch, verification_required.
  destruct (Config.enabled (Config.risk_fallback idrock)); cbn [fst snd].
  - split; [exact Haud|]. eexists. split; [reflexivity|]. split.
    + rewrite !annotation_other by reflexivity. apply annotation_same.
    + rewrite !annotation_other by reflexivity. rewrite annotation_same.
      reflexivity.
  - split; [exact Haud|]. eexists. reflexivity.
Qed.

Lemma protectCheckout_store_failure_overrides_verdict_witness :
  exists req',
    snd (protectCheckout (Sample.answers (Sample.assessment "DENY" 12))
           Sample.config Sample.ambient Sample.store_down
           (Sample.request "alice" "45.76.97.227") fresh_world)
    = Next req'
    /\ annotation "requiresReview" req' = VBool true.
Proof.
  destruct (protectCheckout_store_failure_overrides_verdict
              (Sample.answers (Sample.assessment "DENY" 12))
              Sample.config Sample.ambient Sample.store_down
              (Sample.request "alice" "45.76.97.227") fresh_world
              (fst (assess (Sample.answers (Sample.assessment "DENY" 12)) Sample.config
                      (_extractCheckoutUserData Sample.ambient
                         (Sample.request "alice" "45.76.97.227")) fresh_world))
              (Sample.assessment "DENY" 12))
    as (_ & Hout).
  - reflexivity.
  - intros log row. reflexivity.
  - vm_compute. reflexivity.
  - destruct Hout as (req' & Hnext & Hflag & _). exists req'. auto.
Defined.

(** X9.  Only DENY and REVIEW change the course of a request: for every
    other [risk_level] the service may return (ALLOW, but also a missing
    or unknown level) [protectLogin] hands the request on with the
    assessment and the processing time attached and no flag set. *)
Theorem unlisted_verdict_proceeds_unflagged
        server idrock amb store find req w w1 a :
  Config.integration_enabled idrock = true ->
  assess server idrock (_extractLoginUserData amb req) w = (w1, Return a) ->
  Js.strict_eq (Js.optchain a "risk_level") (VStr "DENY") = false ->
  Js.strict_eq (Js.optchain a "risk_level") (VStr "REVIEW") = false ->
  snd (protectLogin server idrock amb store find req w)
  = Next (annotate "processingTime" (VNum (elapsed_try amb))
            (annotate "idrockAssessment" a req)).
Proof.
  intros Hon Hassess Hdeny Hreview.
  unfold protectLogin, protectLogin_try. rewrite Hon. simpl negb. cbv iota.
  rewrite Hassess. rewrite (assess_defined _ _ _ _ _ _ Hassess), Hdeny, Hreview.
  reflexivity.
Qed.

Lemma unlisted_verdict_proceeds_unflagged_witness :
  exists req',
    snd (protectLogin (Sample.answers (Sample.assessment "UNKNOWN" 5))
           Sample.config Sample.ambient Sample.store_ok Sample.nobody
           (Sample.request "alice" "45.76.97.227") fresh_world)
    = Next req'
    /\ annotation "requiresAdditionalAuth" req' = VUndef.
Proof.
  eexists. split.
  - apply (unlisted_verdict_proceeds_unflagged
             (Sample.answers (Sample.assessment "UNKNOWN" 5))
             Sample.config Sample.ambient Sample.store_ok Sample.nobody
             (Sample.request "alice" "45.76.97.227") fresh_world
             (fst (assess (Sample.answers (Sample.assessment "UNKNOWN" 5)) Sample.config
                     (_extractLoginUserData Sample.ambient
                        (Sample.request "alice" "45.76.97.227")) fresh_world))
             (Sample.assessment "UNKNOWN" 5)).
    + reflexivity.
    + vm_compute. reflexivity.
    + reflexivity.
    + reflexivity.
  - reflexivity.
Defined.

(* ===================================================================== *)
(** ** The audit log under the handlers *)
(* ===================================================================== *)

Lemma grows_same P n w w' : audit w' = audit w -> grows P n w w'.
Proof.
  intros H. exists []. rewrite H, app_nil_r. repeat split; [simpl; lia | constructor].
Qed.

Lemma grows_trans P n m w1 w2 w3 :
  grows P n w1 w2 -> grows P m w2 w3 -> grows P (n + m) w1 w3.
Proof.
  intros (l1 & E1 & L1 & F1) (l2 & E2 & L2 & F2).
  exists (l1 ++ l2)%list. rewrite E2, E1, <- app_assoc. split; [reflexivity|].
  split; [rewrite length_app; lia | apply Forall_app; split; assumption].
Qed.

Lemma grows_weaken P n m w w' : (n <= m)%nat -> grows P n w w' -> grows P m w w'.
Proof.
  intros Hle (l & E & L & F). exists l. repeat split; [exact E | lia | exact F].
Qed.

Lemma create_grows (P : Js.value -> Prop) store row w :
  P row -> grows P 1 w (fst (create store row w)).
Proof.
  intros HP. unfold create. destruct (store (audit w) row); cbn [fst].
  - exists [row]. cbn [audit]. repeat split; [simpl; lia | repeat constructor; exact HP].
  - apply grows_same. reflexivity.
Qed.

Lemma truthy_not_nullish v : Js.truthy v = true -> nullish v = false.
Proof. destruct v; simpl; congruence. Qed.

Lemma logRiskAssessment_grows amb store data w :
  Js.truthy (Js.lookup "ipAddress" data) = true ->
  grows declared 1 w (fst (logRiskAssessment amb store data w)).
Proof.
  intros Hip. unfold logRiskAssessment. apply create_grows.
  unfold declared, well_declared. cbn. rewrite (truthy_not_nullish _ Hip). reflexivity.
Qed.

Lemma logLoginAttempt_grows amb store data w :
  Js.truthy (Js.lookup "ipAddress" data) = true ->
  Js.includes declared_actions (Js.lookup "actionTaken" data) = true ->
  grows declared 1 w (fst (logLoginAttempt amb store data w)).
Proof.
  intros Hip Hact. unfold logLoginAttempt. apply create_grows.
  unfold declared, well_declared.
  cbn [Js.optchain Js.lookup String.eqb Ascii.eqb Bool.eqb].
  rewrite Hact, (truthy_not_nullish _ Hip). reflexivity.
Qed.

Lemma logCheckoutAttempt_grows amb store data w :
  Js.truthy (Js.lookup "ipAddress" data) = true ->
  Js.includes declared_actions (Js.lookup "actionTaken" data) = true ->
  grows declared 1 w (fst (logCheckoutAttempt amb store data w)).
Proof.
  intros Hip Hact. unfold logCheckoutAttempt. apply create_grows.
  unfold declared, well_declared.
  cbn [Js.optchain Js.lookup String.eqb Ascii.eqb Bool.eqb].
  rewrite Hact, (truthy_not_nullish _ Hip). reflexivity.
Qed.

Lemma assess_grows P server idrock userData w :
  grows P 0 w (fst (assess server idrock userData w)).
Proof. apply grows_same. apply verifyIdentity_audit. Qed.

Lemma protectLogin_try_grows server idrock amb store find req w :
  let run := protectLogin_try server idrock amb store find req w in
  match snd run with
  | Return _ => grows declared 2 w (fst (fst run))
  | Throw _ => grows declared 1 w (fst (fst run))
  end.
Proof.
  unfold protectLogin_try.
  destruct (Config.integration_enabled idrock); simpl negb; cbv iota;
    [|apply grows_same; reflexivity].
  pose proof (assess_grows declared server idrock (_extractLoginUserData amb req) w) as Ha.
  destruct (assess server idrock (_extractLoginUserData amb req) w) as [w1 [a|e]] eqn:Hassess;
    cbn [fst snd] in *; [|apply (grows_weaken _ 0); [lia | exact Ha]].
  rewrite (assess_defined _ _ _ _ _ _ Hassess).
  match goal with
  | |- context [logRiskAssessment amb store ?d w1] =>
      pose proof (logRiskAssessment_grows amb store d w1 (getClientIP_truthy req)) as Hlog;
      set (w2 := fst (logRiskAssessment amb store d w1)) in *
  end.
  pose proof (grows_trans _ _ _ _ _ _ Ha Hlog) as H1. cbn [Nat.add] in H1.
  destruct (Js.strict_eq (Js.optchain a "risk_level") (VStr "DENY")); cbn [fst snd].
  - match goal with
    | |- context [logLoginAttempt amb store ?d w2] =>
        pose proof (logLoginAttempt_grows amb store d w2
                      (getClientIP_truthy req) eq_refl) as Hblock
    end.
    exact (grows_trans _ _ _ _ _ _ H1 Hblock).
  - destruct (Js.strict_eq (Js.optchain a "risk_level") (VStr "REVIEW")); cbn [fst snd].
    + destruct (map_messages (Js.optchain a "recommendations")); cbn [fst snd];
        [apply (grows_weaken _ 1); [lia | exact H1] | exact H1].
    + apply (grows_weaken _ 1); [lia | exact H1].
Qed.

Lemma protectLogin_catch_grows idrock amb store error req w :
  grows declared 1 w (fst (protectLogin_catch idrock amb store error req w)).
Proof.
  unfold protectLogin_catch.
  destruct (Config.enabled (Config.risk_fallback idrock)); [|apply grows_same; reflexivity].
  match goal with
  | |- context [logRiskAssessment amb store ?d w] =>
      pose proof (logRiskAssessment_grows amb store d w (getClientIP_truthy _)) as Hlog;
      destruct (logRiskAssessment amb store d w) as [w1 [row|failure]]
  end; cbn [fst] in *; [|exact Hlog].
  destruct (Config.allowProceed (Config.risk_fallback idrock)); exact Hlog.
Qed.

Lemma protectCheckout_try_grows server idrock amb store req w :
  let run := protectCheckout_try server idrock amb store req w in
  match snd run with
  | Return _ => grows declared 2 w (fst (fst run))
  | Throw _ => grows declared 2 w (fst (fst run))
  end.
Proof.
  unfold protectCheckout_try.
  destruct (Config.integration_enabled idrock); simpl negb; cbv iota;
    [|apply grows_same; reflexivity].
  pose proof (assess_grows declared server idrock (_extractCheckoutUserData amb req) w) as Ha.
  destruct (assess server idrock (_extractCheckoutUserData amb req) w) as [w1 [a|e]] eqn:Hassess;
    cbn [fst snd] in *; [|apply (grows_weaken _ 0); [lia | exact Ha]].
  rewrite (assess_defined _ _ _ _ _ _ Hassess).
  match goal with
  | |- context [logRiskAssessment amb store ?d w1] =>
      pose proof (logRiskAssessment_grows amb store d w1 (getClientIP_truthy req)) as Hlog;
      destruct (logRiskAssessment amb store d w1) as [w2 [row|failure]]
  end; cbn [fst snd] in *.
  2: { apply (grows_weaken _ 1); [lia|]. exact (grows_trans _ _ _ _ _ _ Ha Hlog). }
  pose proof (grows_trans _ _ _ _ _ _ Ha Hlog) as H1. cbn [Nat.add] in H1.
  destruct (Js.strict_eq (Js.optchain a "risk_level") (VStr "DENY")); cbn [fst snd].
  - match goal with
    | |- context [logCheckoutAttempt amb store ?d w2] =>
        pose proof (logCheckoutAttempt_grows amb store d w2
                      (getClientIP_truthy req) eq_refl) as Hblock;
        destruct (logCheckoutAttempt amb store d w2) as [w3 [row'|failure]]
    end; cbn [fst snd] in *; exact (grows_trans _ _ _ _ _ _ H1 Hblock).
  - destruct (Js.strict_eq (Js.optchain a "risk_level") (VStr "REVIEW")); cbn [fst snd].
    + destruct (map_messages (Js.optchain a "recommendations")); cbn [fst snd];
        apply (grows_weaken _ 1); try lia; exact H1.
    + apply (grows_weaken _ 1); [lia | exact H1].
Qed.

(** X10.  The handlers only ever append to the audit log, at most two
    rows per request, and every row they append meets the declarations
    of the model: its [event_type] and [action_taken] are among the
    declared values and its [ip_address] is present.  This holds for
    every request, server reply, configuration and store. *)
Theorem handlers_append_declared_rows server idrock amb store find req w :
  grows declared 2 w (fst (protectLogin server idrock amb store find req w))
  /\ grows declared 2 w (fst (protectCheckout server idrock amb store req w)).
Proof.
  split.
  - unfold protectLogin.
    pose proof (protectLogin_try_grows server idrock amb store find req w) as Htry.
    cbv zeta in Htry.
    destruct (protectLogin_try server idrock amb store find req w) as [[w1 req1] [o|e]];
      cbn [fst snd] in *; [exact Htry|].
    exact (grows_trans _ _ _ _ _ _ Htry (protectLogin_catch_grows idrock amb store e req1 w1)).
  - unfold protectCheckout.
    pose proof (protectCheckout_try_grows server idrock amb store req w) as Htry.
    cbv zeta in Htry.
    destruct (protectCheckout_try server idrock amb store req w) as [[w1 req1] [o|e]];
      cbn [fst snd] in *; [exact Htry|].
    unfold protectCheckout_catch.
    destruct (Config.enabled (Config.risk_fallback idrock)); exact Htry.
Qed.

Lemma assess_not_nullish server idrock userData w w1 a :
  assess server idrock userData w = (w1, Return a) -> nullish a = false.
Proof.
  intros H. pose proof (assess_defined _ _ _ _ _ _ H "risk_level") as Hd.
  destruct a; simpl in *; congruence.
Qed.

Lemma fallback_not_nullish idrock amb userId reason :
  nullish (fallback_for idrock amb userId reason) = false.
Proof. reflexivity. Qed.

Lemma protectLogin_try_assessed server idrock amb store find req w w1 req1 r :
  Config.integration_enabled idrock = true ->
  protectLogin_try server idrock amb store find req w = (w1, req1, r) ->
  match r with
  | Return (Next req') => nullish (annotation "idrockAssessment" req') = false
  | _ => True
  end.
Proof.
  intros Hon. unfold protectLogin_try. rewrite Hon. simpl negb. cbv iota.
  destruct (assess server idrock (_extractLoginUserData amb req) w) as [w0 [a|e]] eqn:Hassess.
  2: { intros H; inversion H; subst; exact I. }
  pose proof (assess_not_nullish _ _ _ _ _ _ Hassess) as Hnn.
  rewrite (assess_defined _ _ _ _ _ _ Hassess).
  destruct (Js.strict_eq (Js.optchain a "risk_level") (VStr "DENY")).
  { intros H; inversion H; subst; exact I. }
  destruct (Js.strict_eq (Js.optchain a "risk_level") (VStr "REVIEW")).
  - destruct (map_messages (Js.optchain a "recommendations"));
      intros H; inversion H; subst; [|exact I].
    rewrite !annotation_other by reflexivity. rewrite annotation_same. exact Hnn.
  - intros H; inversion H; subst.
    rewrite !annotation_other by reflexivity. rewrite annotation_same. exact Hnn.
Qed.

Lemma protectCheckout_try_assessed server idrock amb store req w w1 req1 r :
  Config.integration_enabled idrock = true ->
  protectCheckout_try server idrock amb store req w = (w1, req1, r) ->
  match r with
  | Return (Next req') => nullish (annotation "idrockAssessment" req') = false
  | _ => True
  end.
Proof.
  intros Hon. unfold protectCheckout_try. rewrite Hon. simpl negb. cbv iota.
  destruct (assess server idrock (_extractCheckoutUserData amb req) w) as [w0 [a|e]] eqn:Hassess.
  2: { intros H; inversion H; subst; exact I. }
  pose proof (assess_not_nullish _ _ _ _ _ _ Hassess) as Hnn.
  rewrite (assess_defined _ _ _ _ _ _ Hassess).
  match goal with
  | |- context [logRiskAssessment amb store ?d w0] =>
      destruct (logRiskAssessment amb store d w0) as [w2 [row|failure]]
  end.
  2: { intros H; inversion H; subst; exact I. }
  destruct (Js.strict_eq (Js.optchain a "risk_level") (VStr "DENY")).
  { match goal with
    | |- context [logCheckoutAttempt amb store ?d w2] =>
        destruct (logCheckoutAttempt amb store d w2) as [w3 [row'|failure]]
    end; intros H; inversion H; subst; exact I. }
  destruct (Js.strict_eq (Js.optchain a "risk_level") (VStr "REVIEW")).
  - destruct (map_messages (Js.optchain a "recommendations"));
      intros H; inversion H; subst; [|exact I].
    rewrite !annotation_other by reflexivity. rewrite annotation_same. exact Hnn.
  - intros H; inversion H; subst.
    rewrite !annotation_other by reflexivity. rewrite annotation_same. exact Hnn.
Qed.

(** X11.  With the integration enabled, a request that a handler hands
    on always carries an assessment: [req.idrockAssessment] is set to
    what the service returned or to a fallback response, never left
    [undefined] or [null], for [protectLogin], [protectCheckout] and the
    handlers [assessRisk] returns. *)
Theorem proceeding_requests_carry_an_assessment
        server idrock amb store find req w req' :
  Config.integration_enabled idrock = true ->
  snd (protectLogin server idrock amb store find req w) = Next req'
  \/ snd (protectCheckout server idrock amb store req w) = Next req'
  \/ (exists actionType, snd (assessRisk server idrock amb actionType req w) = Next req') ->
  nullish (annotation "idrockAssessment" req') = false.
Proof.
  intros Hon [H | [H | (actionType & H)]].
  - unfold protectLogin in H.
    destruct (protectLogin_try server idrock amb store find req w) as [[w1 req1] r] eqn:Htry.
    pose proof (protectLogin_try_assessed _ _ _ _ _ _ _ _ _ _ Hon Htry) as Ht.
    destruct r as [o|e]; cbn [snd] in H.
    + subst o. exact Ht.
    + unfold protectLogin_catch, service_unavailable in H.
      destruct (Config.enabled (Config.risk_fallback idrock)); [|discriminate H].
      match type of H with
      | context [logRiskAssessment amb store ?d w1] =>
          destruct (logRiskAssessment amb store d w1) as [w2 [row|failure]]
      end; [|discriminate H].
      destruct (Config.allowProceed (Config.risk_fallback idrock)); [|discriminate H].
      cbn [snd] in H. inversion H; subst.
      rewrite !annotation_other by reflexivity. rewrite annotation_same.
      apply fallback_not_nullish.
  - unfold protectCheckout in H.
    destruct (protectCheckout_try server idrock amb store req w) as [[w1 req1] r] eqn:Htry.
    pose proof (protectCheckout_try_assessed _ _ _ _ _ _ _ _ _ Hon Htry) as Ht.
    destruct r as [o|e]; cbn [snd] in H.
    + subst o. exact Ht.
    + unfold protectCheckout_catch, verification_required in H.
      destruct (Config.enabled (Config.risk_fallback idrock)); [|discriminate H].
      cbn [snd] in H. inversion H; subst.
      rewrite !annotation_other by reflexivity. rewrite annotation_same.
      apply fallback_not_nullish.
  - unfold assessRisk, assessRisk_try in H. rewrite Hon in H. simpl negb in H. cbv iota in H.
    destruct (assess server idrock (assessRisk_userData actionType req) w) as [w1 [a|e]] eqn:Hassess.
    + cbn [snd] in H. inversion H; subst.
      rewrite !annotation_other by reflexivity. rewrite annotation_same.
      exact (assess_not_nullish _ _ _ _ _ _ Hassess).
    + unfold assessRisk_catch in H.
      destruct (resolve (assessRisk_catch_scope actionType e) "userData") eqn:Hres;
        [|discriminate H].
      vm_compute in Hres. discriminate Hres.
Qed.

Lemma proceeding_requests_carry_an_assessment_witness :
  nullish (annotation "idrockAssessment"
             (match snd (protectLogin Sample.unreachable Sample.config Sample.ambient
                           Sample.store_ok Sample.nobody
                           (Sample.request "alice" "10.1.2.3") fresh_world) with
              | Next req' => req'
              | _ => Sample.request "alice" "10.1.2.3"
              end)) = false.
Proof.
  apply (proceeding_requests_carry_an_assessment
           Sample.unreachable Sample.config Sample.ambient Sample.store_ok Sample.nobody
           (Sample.request "alice" "10.1.2.3") fresh_world).
  - reflexivity.
  - left. vm_compute. reflexivity.
Defined.

(** What [verifyIdentity] leaves on the wire: nothing when validation or
    the first log line throws, its POST and the redirects followed from
    it otherwise. *)
Lemma verifyIdentity_wire server idrock sdk userData w :
  let w' := fst (verifyIdentity server idrock sdk userData w) in
  match _validateUserData userData with
  | Return _ =>
      if negb (enableLogging sdk) || Js.printable (Js.lookup "userId" userData)
      then sent_with_redirects server "post" (Config.endpoints_verify idrock) w w'
      else wire w' = wire w
  | Throw _ => wire w' = wire w
  end.
Proof.
  cbv zeta. unfold verifyIdentity, post.
  destruct (_validateUserData userData) as [[]|ve] eqn:Hval; [|caught; reflexivity].
  assert (Hsent : sent_with_redirects server "post" (Config.endpoints_verify idrock) w
            (fst match httpClient server sdk
                         {| method := "post"; url := Config.endpoints_verify idrock;
                            _retryCount := None |} w with
                 | (w1, Throw error) => fail_with "verifyIdentity" error w1
                 | (w1, Return response) =>
                     match (if enableLogging sdk then log_response (data response)
                            else Return tt) with
                     | Throw error =>
                         fail_with "verifyIdentity" error (with_stats count_success w1)
                     | Return _ => (with_stats count_success w1, Return (data response))
                     end
                 end)).
  { rewrite fresh_request_once.
    match goal with |- context [transmit server ?c w] =>
      pose proof (transmit_sent server c w) as Hs;
      destruct (transmit server c w) as [w1 [response|error]]
    end; cbn [fst method url] in Hs.
    - destruct (if enableLogging sdk then log_response (data response) else Return tt);
        [|caught]; exact Hs.
    - caught. exact Hs. }
  destruct (enableLogging sdk) eqn:Hlog; cbn [negb orb].
  - rewrite (log_request_prints userData Hval).
    destruct (Js.printable (Js.lookup "userId" userData)).
    + exact Hsent.
    + caught. reflexivity.
  - exact Hsent.
Qed.

Lemma create_wire store row w : wire (fst (create store row w)) = wire w.
Proof. unfold create. destruct (store (audit w) row); reflexivity. Qed.

(** After the client call the handlers add nothing to the wire. *)
Lemma protectLogin_try_wire server idrock amb store find req w :
  wire (fst (fst (protectLogin_try server idrock amb store find req w)))
  = if Config.integration_enabled idrock
    then wire (fst (assess server idrock (_extractLoginUserData amb req) w))
    else wire w.
Proof.
  unfold protectLogin_try.
  destruct (Config.integration_enabled idrock); simpl negb; cbv iota;
    [|reflexivity].
  destruct (assess server idrock (_extractLoginUserData amb req) w) as [w1 [a|e]] eqn:Hassess;
    cbn [fst snd] in *; [|reflexivity].
  rewrite (assess_defined _ _ _ _ _ _ Hassess).
  unfold logRiskAssessment, logLoginAttempt.
  destruct (Js.strict_eq (Js.optchain a "risk_level") (VStr "DENY")); cbn [fst snd].
  - rewrite !create_wire. reflexivity.
  - destruct (Js.strict_eq (Js.optchain a "risk_level") (VStr "REVIEW")); cbn [fst snd].
    + destruct (map_messages (Js.optchain a "recommendations")); cbn [fst snd];
        rewrite create_wire; reflexivity.
    + rewrite create_wire. reflexivity.
Qed.

Lemma protectCheckout_try_wire server idrock amb store req w :
  wire (fst (fst (protectCheckout_try server idrock amb store req w)))
  = if Config.integration_enabled idrock
    then wire (fst (assess server idrock (_extractCheckoutUserData amb req) w))
    else wire w.
Proof.
  unfold protectCheckout_try.
  destruct (Config.integration_enabled idrock); simpl negb; cbv iota;
    [|reflexivity].
  destruct (assess server idrock (_extractCheckoutUserData amb req) w) as [w1 [a|e]] eqn:Hassess;
    cbn [fst snd] in *; [|reflexivity].
  rewrite (assess_defined _ _ _ _ _ _ Hassess).
  unfold logRiskAssessment, logCheckoutAttempt.
  match goal with
  | |- context [create store ?row w1] =>
      pose proof (create_wire store row w1) as Hc;
      destruct (create store row w1) as [w2 [r|failure]]
  end; cbn [fst snd] in *; [|congruence].
  destruct (Js.strict_eq (Js.optchain a "risk_level") (VStr "DENY")); cbn [fst snd].
  - match goal with
    | |- context [create store ?row w2] =>
        pose proof (create_wire store row w2) as Hc';
        destruct (create store row w2) as [w3 [r'|failure]]
    end; cbn [fst snd] in *; congruence.
  - destruct (Js.strict_eq (Js.optchain a "risk_level") (VStr "REVIEW")); cbn [fst snd].
    + destruct (map_messages (Js.optchain a "recommendations")); cbn [fst snd]; congruence.
    + congruence.
Qed.

Lemma protectLogin_wire server idrock amb store find req w :
  wire (fst (protectLogin server idrock amb store find req w))
  = if Config.integration_enabled idrock
    then wire (fst (assess server idrock (_extractLoginUserData amb req) w))
    else wire w.
Proof.
  unfold protectLogin.
  pose proof (protectLogin_try_wire server idrock amb store find req w) as Htry.
  destruct (protectLogin_try server idrock amb store find req w) as [[w1 req1] [o|e]];
    cbn [fst snd] in *; [exact Htry|].
  unfold protectLogin_catch, logRiskAssessment.
  destruct (Config.enabled (Config.risk_fallback idrock)); [|exact Htry].
  match goal with
  | |- context [create store ?row w1] =>
      pose proof (create_wire store row w1) as Hc;
      destruct (create store row w1) as [w2 [r|failure]]
  end; cbn [fst snd] in *; [|congruence].
  destruct (Config.allowProceed (Config.risk_fallback idrock)); cbn [fst]; congruence.
Qed.

Lemma protectCheckout_wire server idrock amb store req w :
  wire (fst (protectCheckout server idrock amb store req w))
  = if Config.integration_enabled idrock
    then wire (fst (assess server idrock (_extractCheckoutUserData amb req) w))
    else wire w.
Proof.
  unfold protectCheckout.
  pose proof (protectCheckout_try_wire server idrock amb store req w) as Htry.
  destruct (protectCheckout_try server idrock amb store req w) as [[w1 req1] [o|e]];
    cbn [fst snd] in *; [exact Htry|].
  unfold protectCheckout_catch.
  destruct (Config.enabled (Config.risk_fallback idrock)); exact Htry.
Qed.

(** What the client call of a handler leaves on the wire, for a context
    that validation can reject only for its address. *)
Lemma assess_wire server idrock userData w :
  (rejected_context userData
   <-> basic_ip_format (Js.to_string (Js.lookup "ipAddress" userData)) = false) ->
  let w' := fst (assess server idrock userData w) in
  if basic_ip_format (Js.to_string (Js.lookup "ipAddress" userData))
     && Js.printable (Js.lookup "userId" userData)
  then sent_with_redirects server "post" (Config.endpoints_verify idrock) w w'
  else wire w' = wire w.
Proof.
  intros Hrej. cbv zeta. unfold assess.
  pose proof (verifyIdentity_wire server idrock (idrockClient idrock) userData w) as Hw.
  cbv zeta in Hw.
  destruct (basic_ip_format (Js.to_string (Js.lookup "ipAddress" userData))) eqn:Hip;
    cbn [andb].
  - assert (Hok : _validateUserData userData = Return tt).
    { apply validate_accepts_iff. intros H. apply Hrej in H. discriminate H. }
    rewrite Hok in Hw. exact Hw.
  - destruct (validate_rejects userData) as [m Hm]; [apply Hrej; reflexivity|].
    rewrite Hm in Hw. exact Hw.
Qed.

(** X12.  What [protectLogin] and [protectCheckout] put on the wire is
    decided by three things only.  With the integration enabled, a
    client address of the basic format and a user identifier that
    converts to a string (the client logs it before it sends), the
    handler sends its POST to the verify endpoint, followed only by the
    requests that follow redirects, and by none when the first reply is
    no redirect; otherwise it sends nothing.  No reply, verdict, store
    failure or fallback path adds a request of the handler's own or a
    backoff wait. *)
Theorem handlers_contact_the_service server idrock amb store find req w :
  let reached userData :=
    Config.integration_enabled idrock
    && (basic_ip_format (Js.to_string (_getClientIP req))
        && Js.printable (Js.lookup "userId" userData)) in
  let login := fst (protectLogin server idrock amb store find req w) in
  let checkout := fst (protectCheckout server idrock amb store req w) in
  (if reached (_extractLoginUserData amb req)
   then sent_with_redirects server "post" (Config.endpoints_verify idrock) w login
   else wire login = wire w)
  /\ (if reached (_extractCheckoutUserData amb req)
      then sent_with_redirects server "post" (Config.endpoints_verify idrock) w
                               checkout
      else wire checkout = wire w).
Proof.
  cbv zeta. split.
  - pose proof (protectLogin_wire server idrock amb store find req w) as Hw.
    pose proof (assess_wire server idrock (_extractLoginUserData amb req) w
                  (login_context_rejected amb req)) as Ha.
    cbv zeta in Ha.
    change (Js.lookup "ipAddress" (_extractLoginUserData amb req))
      with (_getClientIP req) in Ha.
    destruct (Config.integration_enabled idrock); cbn [andb]; [|exact Hw].
    destruct (basic_ip_format (Js.to_string (_getClientIP req))
              && Js.printable (Js.lookup "userId" (_extractLoginUserData amb req)));
      [|congruence].
    unfold sent_with_redirects in *. rewrite Hw. exact Ha.
  - pose proof (protectCheckout_wire server idrock amb store req w) as Hw.
    pose proof (assess_wire server idrock (_extractCheckoutUserData amb req) w
                  (checkout_context_rejected amb req)) as Ha.
    cbv zeta in Ha.
    change (Js.lookup "ipAddress" (_extractCheckoutUserData amb req))
      with (_getClientIP req) in Ha.
    destruct (Config.integration_enabled idrock); cbn [andb]; [|exact Hw].
    destruct (basic_ip_format (Js.to_string (_getClientIP req))
              && Js.printable (Js.lookup "userId" (_extractCheckoutUserData amb req)));
      [|congruence].
    unfold sent_with_redirects in *. rewrite Hw. exact Ha.
Qed.



Lemma either_null_never_zero v : Js.either v VNull <> VNum 0.
Proof.
  unfold Js.either. destruct (Js.truthy v) eqn:E; [|discriminate].
  intros ->. discriminate E.
Qed.

Lemma create_returns store row w w' r :
  create store row w = (w', Return r) -> r = row.
Proof.
  unfold create. destruct (store (audit w) row); intros H; inversion H; reflexivity.
Qed.

(** X14.  The three log functions of the audit model store a confidence
    score of 0 as [null]: the row is built with
    [riskAssessment?.confidence_score || null], and 0 is falsy.  No row
    they store has the score 0, although the column allows it. *)
Theorem zero_score_is_logged_as_null amb store data w w' row :
  logRiskAssessment amb store data w = (w', Return row)
  \/ logLoginAttempt amb store data w = (w', Return row)
  \/ logCheckoutAttempt amb store data w = (w', Return row) ->
  Js.optchain row "confidence_score" <> VNum 0
  /\ (Js.optchain (Js.lookup "riskAssessment" data) "confidence_score" = VNum 0 ->
      Js.optchain row "confidence_score" = VNull).
Proof.
  unfold logRiskAssessment, logLoginAttempt, logCheckoutAttempt.
  intros [H | [H | H]]; apply create_returns in H; subst row;
    cbn [Js.optchain Js.lookup String.eqb Ascii.eqb Bool.eqb];
    (split; [apply either_null_never_zero | intros ->; reflexivity]).
Qed.

Lemma zero_score_is_logged_as_null_witness :
  Js.optchain
    (VObj [ ("event_type", VStr "risk_assessment");
            ("user_id", VNull);
            ("ip_address", VStr "10.1.2.3");
            ("user_agent", VUndef);
            ("idrock_request_id", VStr "req_7f3a9c");
            ("risk_level", VStr "DENY");
            ("confidence_score", VNull);
            ("action_taken", VStr "assessed");
            ("success", VBool true);
            ("event_data", VObj [
               ("risk_factors", VArr []);
               ("recommendations",
                VArr [VObj [("action", VStr "monitor"); ("priority", VStr "low");
                            ("message", VStr "Standard monitoring")]]);
               ("metadata", VObj []) ]);
            ("processing_time_ms", VUndef);
            ("timestamp", VStr "2025-09-08T12:00:00.000Z") ])
    "confidence_score" <> VNum 0.
Proof.
  apply (zero_score_is_logged_as_null Sample.ambient Sample.store_ok
           [("ipAddress", VStr "10.1.2.3");
            ("riskAssessment", Sample.assessment "DENY" 0)]
           fresh_world
           (fst (logRiskAssessment Sample.ambient Sample.store_ok
                   [("ipAddress", VStr "10.1.2.3");
                    ("riskAssessment", Sample.assessment "DENY" 0)]
                   fresh_world))).
  left. vm_compute. reflexivity.
Defined.

(* ===================================================================== *)
(** ** More on the fingerprint *)
(* ===================================================================== *)

Module HashFacts.
Import Fingerprint.

(** X15.  [_hashString] is the multiply-by-31 polynomial hash: the loop
    with its shifts and masks computes the Horner polynomial of the code
    units at 31, wrapped to a signed 32-bit integer, and the token is the
    radix-36 numeral of its absolute value, a number between 0 and
    2^31. *)
Theorem hashString_is_polynomial_hash str :
  hash_loop 0 str = to_int32 (horner 0 str)
  /\ _hashString str = toString36 (Z.abs (to_int32 (horner 0 str)))
  /\ 0 <= of_base36 0 (_hashString str) <= 2 ^ 31.
Proof.
  assert (H : hash_loop 0 str = to_int32 (horner 0 str)).
  { exact (FingerprintFacts.hash_loop_horner str 0). }
  split; [exact H|]. unfold _hashString. rewrite H. split; [reflexivity|].
  rewrite FingerprintFacts.toString36_decodes by apply Z.abs_nonneg.
  pose proof (FingerprintFacts.to_int32_range (horner 0 str)). lia.
Qed.

(** X16.  The token forgets only the sign of the hash: two strings get
    the same token exactly when their 32-bit hashes are equal or
    opposite. *)
Theorem tokens_agree_iff_hashes_agree_up_to_sign s t :
  _hashString s = _hashString t
  <-> (hash_loop 0 s = hash_loop 0 t \/ hash_loop 0 s = - hash_loop 0 t).
Proof.
  unfold _hashString. split.
  - intros H. apply (f_equal (of_base36 0)) in H.
    rewrite !FingerprintFacts.toString36_decodes in H by apply Z.abs_nonneg.
    lia.
  - intros [H | H]; rewrite H; [reflexivity|].
    rewrite Z.abs_opp. reflexivity.
Qed.

Lemma collect_memoised components this token :
  fingerprintPromise this = Some token ->
  collect components this = (this, token).
Proof. unfold collect. intros ->. reflexivity. Qed.

Lemma collect_all_memoised runs : forall this token,
  fingerprintPromise this = Some token ->
  collect_all runs this = repeat token (List.length runs).
Proof.
  induction runs as [|components rest IH]; intros this token H; [reflexivity|].
  cbn [collect_all List.length repeat].
  rewrite (collect_memoised components this token H).
  rewrite (IH this token H). reflexivity.
Qed.

(** X17.  A collector generates its token once: however often [collect]
    is called and whatever the sources would produce at the later calls,
    every call returns the token of the first. *)
Theorem collect_generates_once first later :
  collect_all (first :: later) new_collector
  = repeat (_generateFingerprint first) (S (List.length later)).
Proof.
  cbn [collect_all collect new_collector fingerprintPromise repeat].
  f_equal. apply collect_all_memoised. reflexivity.
Qed.

(** X18.  No source rejects.  When every source fails, each resolves
    with its error marker, all six results are fulfilled, the markers
    joined with [|] are what is hashed, and the token is [s4yyzg] on
    every device; the token [0] of the empty string is not produced. *)
Theorem failed_sources_give_the_marker_token d :
  all_raised d ->
  settled d
  = [ Fulfilled (VStr "canvas_error"); Fulfilled (VStr "webgl_error");
      Fulfilled (VStr "audio_error"); Fulfilled (VStr "browser_features_error");
      Fulfilled (VStr "screen_error"); Fulfilled (VStr "timezone_error") ]
  /\ token d
     = _hashString "canvas_error|webgl_error|audio_error|browser_features_error|screen_error|timezone_error"
  /\ token d = "s4yyzg".
Proof.
  intros ((e1 & H1) & (e2 & H2) & (e3 & H3) & (e4 & H4) & (e5 & H5) & (e6 & H6)).
  assert (Hsettled : settled d
            = [ Fulfilled (VStr "canvas_error"); Fulfilled (VStr "webgl_error");
                Fulfilled (VStr "audio_error");
                Fulfilled (VStr "browser_features_error");
                Fulfilled (VStr "screen_error");
                Fulfilled (VStr "timezone_error") ]).
  { unfold settled, _getCanvasFingerprint, _getWebGLFingerprint,
      _getAudioFingerprint, _getBrowserFeatures, _getScreenFingerprint,
      _getTimezoneFingerprint.
    rewrite H1, H2, H3, H4, H5, H6. reflexivity. }
  split; [exact Hsettled|].
  unfold token. rewrite Hsettled. split; vm_compute; reflexivity.
Qed.

Lemma failed_sources_give_the_marker_token_witness :
  all_raised Sample.headless /\ token Sample.headless = "s4yyzg".
Proof.
  assert (H : all_raised Sample.headless).
  { repeat split; eexists; reflexivity. }
  split; [exact H|].
  exact (proj2 (proj2 (failed_sources_give_the_marker_token Sample.headless H))).
Defined.

End HashFacts.

(* ===================================================================== *)
(** ** The account model *)
(* ===================================================================== *)

Module UserFacts.
Import User.

Lemma failures_effect times : forall this,
  failed_login_attempts (failures times this)
  = failed_login_attempts this + Z.of_nat (List.length times)
  /\ locked_until (failures times this)
     = match times with
       | [] => locked_until this
       | _ :: _ =>
           if 5 <=? failed_login_attempts this + Z.of_nat (List.length times)
           then Some (last times 0 + lock_period)
           else locked_until this
       end.
Proof.
  induction times as [|now rest IH]; intros this.
  - cbn [failures List.length]. split; [cbn; lia | reflexivity].
  - cbn [failures]. destruct (IH (handleFailedLogin now this)) as [Ha Hl].
    rewrite Ha, Hl. cbn [handleFailedLogin failed_login_attempts locked_until].
    split; [cbn [List.length]; lia|].
    destruct rest as [|next rest'].
    + cbn [List.length last].
      replace (failed_login_attempts this + Z.of_nat 1)
        with (failed_login_attempts this + 1) by lia.
      reflexivity.
    + change (last (now :: next :: rest') 0) with (last (next :: rest') 0).
      replace (failed_login_attempts this + Z.of_nat (List.length (now :: next :: rest')))
        with (failed_login_attempts this + 1 + Z.of_nat (List.length (next :: rest')))
        by (cbn [List.length]; lia).
      destruct (5 <=? failed_login_attempts this + 1
                      + Z.of_nat (List.length (next :: rest'))) eqn:E; [reflexivity|].
      apply Z.leb_gt in E.
      destruct (5 <=? failed_login_attempts this + 1) eqn:E'; [|reflexivity].
      apply Z.leb_le in E'. cbn [List.length] in E. lia.
Qed.

(** X19.  Counting from a successful login, the account is locked by the
    fifth failed attempt and by no earlier one: after fewer than five
    failures [locked_until] is still [null], from the fifth on it is 15
    minutes after the latest failure, and the counter equals the number
    of failures. *)
Theorem fifth_failure_locks_the_account now ip this times :
  let after := failures times (updateLoginInfo now ip this) in
  failed_login_attempts after = Z.of_nat (List.length times)
  /\ locked_until after
     = if (List.length times <? 5)%nat then None
       else Some (last times 0 + 15 * 60 * 1000).
Proof.
  cbv zeta. destruct (failures_effect times (updateLoginInfo now ip this)) as [Ha Hl].
  rewrite Ha, Hl. cbn [updateLoginInfo failed_login_attempts locked_until].
  split; [lia|].
  destruct times as [|t rest]; [reflexivity|].
  destruct (List.length (t :: rest) <? 5)%nat eqn:E.
  - apply Nat.ltb_lt in E.
    destruct (5 <=? 0 + Z.of_nat (List.length (t :: rest))) eqn:E'; [|reflexivity].
    apply Z.leb_le in E'. lia.
  - apply Nat.ltb_ge in E.
    destruct (5 <=? 0 + Z.of_nat (List.length (t :: rest))) eqn:E'; [reflexivity|].
    apply Z.leb_gt in E'. lia.
Qed.

(** X20.  The end of a lock does not reset the counter: on an account
    whose counter has reached four or more, every further failure locks
    it again, for exactly the 15 minutes that follow that failure,
    whether or not an earlier lock has run out. *)
Theorem expired_lock_is_renewed_by_one_failure this now t :
  4 <= failed_login_attempts this ->
  Js.truthy (isLocked t (handleFailedLogin now this)) = (t <? now + 15 * 60 * 1000)
  /\ failed_login_attempts (handleFailedLogin now this) >= 5.
Proof.
  intros H. unfold isLocked, handleFailedLogin.
  cbn [locked_until failed_login_attempts].
  destruct (5 <=? failed_login_attempts this + 1) eqn:E.
  - split; [|lia]. cbn [Js.truthy]. reflexivity.
  - apply Z.leb_gt in E. lia.
Qed.

Lemma expired_lock_is_renewed_by_one_failure_witness :
  Js.truthy
    (isLocked 5000000
       (handleFailedLogin 4200000
          {| id := VStr "u1"; last_login_at := None; last_login_ip := VNull;
             failed_login_attempts := 5; locked_until := Some 1900000;
             security_score_avg := None; risk_level_history := None |}))
  = (5000000 <? 4200000 + 15 * 60 * 1000).
Proof.
  apply (expired_lock_is_renewed_by_one_failure
           {| id := VStr "u1"; last_login_at := None; last_login_ip := VNull;
              failed_login_attempts := 5; locked_until := Some 1900000;
              security_score_avg := None; risk_level_history := None |}
           4200000 5000000).
  simpl. lia.
Defined.

Lemma sum_from acc scores : fold_left Z.add scores acc = acc + sum scores.
Proof.
  unfold sum. revert acc.
  induction scores as [|s rest IH]; intros acc; cbn [fold_left]; [lia|].
  rewrite (IH (acc + s)), (IH (0 + s)). lia.
Qed.

Lemma sum_in_range scores :
  Forall (fun s => 0 <= s <= 100) scores ->
  0 <= sum scores <= 100 * Z.of_nat (List.length scores).
Proof.
  induction 1 as [|s rest Hs _ IH].
  - cbn. lia.
  - unfold sum. cbn [fold_left]. rewrite sum_from. cbn [List.length]. lia.
Qed.

Lemma round_div_in_range total count :
  0 < count -> 0 <= total <= 100 * count -> 0 <= round_div total count <= 100.
Proof.
  intros Hc Ht. unfold round_div. split.
  - apply Z.div_pos; lia.
  - assert (H : (2 * total + count) / (2 * count) < 101).
    { apply Z.div_lt_upper_bound; lia. }
    lia.
Qed.

Lemma slice_last_length {A} n (items : list A) :
  (List.length (slice_last n items) <= n)%nat.
Proof. unfold slice_last. rewrite length_skipn. lia. Qed.

Lemma slice_last_Forall {A} (P : A -> Prop) n items :
  Forall P items -> Forall P (slice_last n items).
Proof.
  intros H. unfold slice_last.
  rewrite <- (firstn_skipn (List.length items - n) items) in H.
  apply Forall_app in H. tauto.
Qed.

Lemma updateSecurityScore_keeps now_iso newScore this :
  history_in_range this -> 0 <= newScore <= 100 ->
  let after := updateSecurityScore now_iso newScore this in
  history_in_range after /\ history_bounded after
  /\ exists avg, security_score_avg after = Some avg /\ 0 <= avg <= 100.
Proof.
  intros Hin Hs. unfold history_in_range, history_bounded, updateSecurityScore in *.
  cbn [risk_level_history security_score_avg].
  set (old := match risk_level_history this with Some e => e | None => [] end) in *.
  assert (Hold : Forall (fun e => 0 <= score e <= 100) old).
  { subst old. destruct (risk_level_history this); [exact Hin | constructor]. }
  assert (Hall : Forall (fun e => 0 <= score e <= 100)
                        (old ++ [{| score := newScore; timestamp := now_iso |}])).
  { apply Forall_app. split; [exact Hold|]. repeat constructor; cbn; lia. }
  split; [apply slice_last_Forall; exact Hall|].
  split; [apply slice_last_length|].
  eexists. split; [reflexivity|].
  apply round_div_in_range.
  - rewrite length_map, length_app. cbn [List.length]. lia.
  - apply sum_in_range. apply Forall_map. exact Hall.
Qed.

(** X21.  The score history keeps the model's declared bounds.  Starting
    from a history whose scores lie between 0 and 100, any series of
    [updateSecurityScore] calls with scores in that range leaves at most
    ten entries, all in range, and an average between 0 and 100, as the
    validators of [security_score_avg] require. *)
Theorem score_history_stays_valid updates : forall this,
  history_in_range this ->
  Forall (fun u => 0 <= snd u <= 100) updates ->
  updates <> [] ->
  let after := scored updates this in
  history_in_range after /\ history_bounded after
  /\ exists avg, security_score_avg after = Some avg /\ 0 <= avg <= 100.
Proof.
  induction updates as [|[now_iso newScore] rest IH]; intros this Hin Hall Hne;
    [congruence|].
  inversion Hall as [|x l Hs Hrest]; subst. cbn [snd] in Hs.
  destruct (updateSecurityScore_keeps now_iso newScore this Hin Hs) as (H1 & H2 & H3).
  cbn [scored]. destruct rest as [|next rest'].
  - cbn [scored]. auto.
  - apply IH; [exact H1 | exact Hrest | discriminate].
Qed.

Lemma score_history_stays_valid_witness :
  history_bounded
    (scored [("2025-09-08T12:00:00.000Z", 85); ("2025-09-08T12:05:00.000Z", 0);
             ("2025-09-08T12:09:00.000Z", 100)]
       {| id := VStr "u1"; last_login_at := None; last_login_ip := VNull;
          failed_login_attempts := 0; locked_until := None;
          security_score_avg := None; risk_level_history := None |}).
Proof.
  apply (score_history_stays_valid
           [("2025-09-08T12:00:00.000Z", 85); ("2025-09-08T12:05:00.000Z", 0);
            ("2025-09-08T12:09:00.000Z", 100)]
           {| id := VStr "u1"; last_login_at := None; last_login_ip := VNull;
              failed_login_attempts := 0; locked_until := None;
              security_score_avg := None; risk_level_history := None |}).
  - exact I.
  - repeat constructor; simpl; lia.
  - discriminate.
Defined.

End UserFacts.

(* ===================================================================== *)
(** ** The global error handler *)
(* ===================================================================== *)

Module ErrorHandlerFacts.
Import ErrorHandler.

Lemma field_errors_total items :
  Forall (fun e => nullish e = false) items ->
  exists mapped, field_errors items = Return mapped.
Proof.
  induction 1 as [|e rest He _ [mapped IH]]; cbn [field_errors]; [eauto|].
  destruct e; try discriminate He; cbn [getprop]; rewrite IH; eauto.
Qed.

Lemma field_errors_partial items mapped :
  field_errors items = Return mapped ->
  Forall (fun e => nullish e = false) items.
Proof.
  revert mapped. induction items as [|e rest IH]; intros mapped H; [constructor|].
  cbn [field_errors] in H.
  destruct (getprop e "path") eqn:Hp; [|discriminate].
  destruct (field_errors rest) eqn:Hr; [|discriminate].
  constructor; [|eapply IH; reflexivity].
  destruct e; try reflexivity; discriminate Hp.
Qed.

Lemma field_errors_type items failure :
  field_errors items = Throw failure -> exists m, failure = TypeError m.
Proof.
  induction items as [|e rest IH]; cbn [field_errors]; [discriminate|].
  destruct e; cbn [getprop];
    try (intros H; inversion H; eauto; fail);
    destruct (field_errors rest); try discriminate; intros H; inversion H; subst;
    apply IH; reflexivity.
Qed.

Lemma map_field_errors_returns errors mapped :
  map_field_errors errors = Return mapped ->
  exists items, errors = VArr items /\ Forall (fun e => nullish e = false) items.
Proof.
  destruct errors; cbn [map_field_errors]; try discriminate.
  destruct (field_errors items) eqn:E; [|discriminate].
  intros _. exists items. split; [reflexivity|]. eapply field_errors_partial. exact E.
Qed.

Lemma map_field_errors_type errors failure :
  map_field_errors errors = Throw failure -> exists m, failure = TypeError m.
Proof.
  destruct errors; cbn [map_field_errors];
    try (intros H; inversion H; eauto; fail).
  destruct (field_errors items) eqn:E; [discriminate|].
  intros H; inversion H; subst. eapply field_errors_type. exact E.
Qed.

(** X22.  [errorHandler] answers every error it can read with one of
    five fixed status, message and code triples, chosen by [err.name]
    alone; the message of the error itself is never the [error] of the
    answer, and [details] appear only under a 400 or a 503.  It throws a
    [TypeError] instead of answering exactly when [err] is [null] or
    [undefined], or is a SequelizeValidationError whose [errors] is not
    an array of objects. *)
Theorem errorHandler_answers_or_throws now_iso err originalUrl method :
  match errorHandler now_iso err originalUrl method with
  | Return (status, payload) =>
      answerable err
      /\ In (status, Js.optchain payload "error", Js.optchain payload "code") answers
      /\ (Js.optchain payload "details" <> VUndef -> status = 400 \/ status = 503)
      /\ Js.optchain payload "path" = originalUrl
      /\ Js.optchain payload "method" = method
  | Throw failure =>
      ~ answerable err /\ exists m, failure = TypeError m
  end.
Proof.
  unfold errorHandler, answerable.
  destruct (getprop err "name") as [name|failure] eqn:Hname.
  2: { split.
       - intros [Hn _]. destruct err; discriminate.
       - destruct err; try discriminate; inversion Hname; eauto. }
  assert (Hnn : nullish err = false) by (destruct err; try reflexivity; discriminate).
  assert (Hn : name = Js.optchain err "name").
  { destruct err; try discriminate; inversion Hname; reflexivity. }
  subst name. clear Hname.
  destruct (Js.optchain err "name") as [| |b|n|s|items|fields];
    cbn [Js.strict_eq].
  1-4,6-7:
    cbn [status message code details Js.truthy app Js.optchain Js.lookup
         String.eqb Ascii.eqb Bool.eqb];
    (split; [split; [exact Hnn | discriminate]|]);
    (split; [left; reflexivity|]);
    (split; [intros H; exfalso; apply H; reflexivity | split; reflexivity]).
  destruct (s =? "SequelizeValidationError")%string eqn:Eseq.
  - apply String.eqb_eq in Eseq. subst s.
    cbn [String.eqb Ascii.eqb Bool.eqb].
    destruct (map_field_errors (Js.optchain err "errors")) as [mapped|failure] eqn:Hmap.
    + cbn [status message code details].
      assert (Ht : Js.truthy mapped = true).
      { destruct (Js.optchain err "errors"); cbn [map_field_errors] in Hmap;
          try discriminate.
        destruct (field_errors items); inversion Hmap; reflexivity. }
      rewrite Ht.
      cbn [app Js.optchain Js.lookup String.eqb Ascii.eqb Bool.eqb].
      split; [split; [exact Hnn | intros _; eapply map_field_errors_returns; exact Hmap]|].
      split; [right; right; right; left; reflexivity|].
      split; [intros _; left; reflexivity | split; reflexivity].
    + split; [|eapply map_field_errors_type; exact Hmap].
      intros [_ Hitems]. destruct (Hitems eq_refl) as (items & Hi & Hall).
      rewrite Hi in Hmap. cbn [map_field_errors] in Hmap.
      destruct (field_errors_total items Hall) as [mapped Hm].
      rewrite Hm in Hmap. discriminate.
  - destruct (s =? "ValidationError")%string eqn:Eval;
      destruct (s =? "JsonWebTokenError")%string eqn:Ejwt;
      destruct (s =? "IDRockAPIError")%string eqn:Eapi;
      cbn [status message code details];
      try (apply String.eqb_eq in Eval; apply String.eqb_eq in Ejwt; congruence);
      try (apply String.eqb_eq in Eval; apply String.eqb_eq in Eapi; congruence);
      try (apply String.eqb_eq in Ejwt; apply String.eqb_eq in Eapi; congruence).
    all: match goal with
         | |- context [Js.truthy ?d] => destruct (Js.truthy d) eqn:Ht
         end;
         cbn [app Js.optchain Js.lookup String.eqb Ascii.eqb Bool.eqb];
         (split; [split; [exact Hnn | discriminate]|]);
         (split; [cbn; tauto|]);
         (split; [|split; reflexivity]);
         first [ intros _; auto; fail
               | intros H; exfalso; apply H; reflexivity ].
Qed.

End ErrorHandlerFacts.

(* ===================================================================== *)
(** ** The browser SDK *)
(* ===================================================================== *)

Module BrowserFacts.
Import Browser.

Lemma collectRiskData_effect env actionType additionalData this :
  let after := fst (collectRiskData env actionType additionalData this) in
  config after = config this
  /\ sent after = sent this
  /\ collectionsCount (stats after) = collectionsCount (stats this) + 1
  /\ requestsCount (stats after) = requestsCount (stats this)
  /\ errorsCount (stats this) <= errorsCount (stats after)
     <= errorsCount (stats this) + 1.
Proof.
  unfold collectRiskData.
  destruct (enableFingerprinting (config this));
    [destruct (Fingerprint.collect (components env) (fingerprintCollector this))|];
    (destruct (enableSessionTracking (config this));
     [destruct (session_data env)|]);
    cbn; repeat split; lia.
Qed.

Lemma makeRequest_effect net url payload this :
  let after := fst (_makeRequest net url payload this) in
  config after = config this
  /\ stats after = stats this
  /\ sent after = (sent this ++ [(url, payload)])%list.
Proof.
  unfold _makeRequest.
  destruct (net (List.length (sent this))) as [response|reason];
    [|destruct (getprop reason "name") as [name|e];
      [destruct (Js.strict_eq name (VStr "AbortError"))|]];
    cbn; auto.
Qed.

Lemma sendToBackend_effect net riskData endpoint this :
  let after := fst (sendToBackend net riskData endpoint this) in
  config after = config this
  /\ sent after
     = (sent this
        ++ [((Js.to_string (apiEndpoint (config this))
              ++ Js.to_string (match endpoint with
                               | VUndef => VStr "/assess"
                               | given => given
                               end))%string, riskData)])%list
  /\ collectionsCount (stats after) = collectionsCount (stats this)
  /\ requestsCount (stats after) = requestsCount (stats this) + 1
  /\ errorsCount (stats this) <= errorsCount (stats after)
     <= errorsCount (stats this) + 1.
Proof.
  unfold sendToBackend.
  match goal with
  | |- context [_makeRequest net ?u riskData ?c] =>
      destruct (makeRequest_effect net u riskData c) as (Hc & Hs & Hsent);
      destruct (_makeRequest net u riskData c) as [this1 [response|t]]
  end; cbn [fst] in *.
  - destruct (negb (ok response));
      [|destruct (json response)];
      cbn [fst with_stats config stats sent count_error count_request
           collectionsCount requestsCount errorsCount] in *;
      rewrite ?Hc, ?Hs, ?Hsent; cbn; repeat split; lia.
  - cbn [fst with_stats config stats sent count_error count_request
         collectionsCount requestsCount errorsCount] in *.
    rewrite ?Hc, ?Hs, ?Hsent. cbn. repeat split; lia.
Qed.

Lemma consistent_after_collection env actionType additionalData this :
  consistent this ->
  consistent (fst (collectRiskData env actionType additionalData this)).
Proof.
  intros (Hr & He & Hc).
  destruct (collectRiskData_effect env actionType additionalData this)
    as (_ & Hsent & Hcc & Hrc & Hec).
  cbv zeta in *. unfold consistent. rewrite Hsent, Hcc, Hrc. repeat split; lia.
Qed.

Lemma consistent_after_request net riskData endpoint this :
  consistent this ->
  consistent (fst (sendToBackend net riskData endpoint this)).
Proof.
  intros (Hr & He & Hc).
  destruct (sendToBackend_effect net riskData endpoint this)
    as (_ & Hsent & Hcc & Hrc & Hec).
  cbv zeta in *. unfold consistent. rewrite Hsent, Hcc, Hrc, length_app.
  cbn [List.length]. repeat split; lia.
Qed.

Lemma consistent_after_call net c this :
  consistent this -> consistent (call net c this).
Proof.
  intros H. destruct c as [env a d|r e|env u d|env o]; cbn [call].
  - apply consistent_after_collection. exact H.
  - apply consistent_after_request. exact H.
  - unfold assessLogin.
    match goal with
    | |- context [collectRiskData env ?a ?d this] =>
        pose proof (consistent_after_collection env a d this H) as H1;
        destruct (collectRiskData env a d this) as [this1 riskData]
    end.
    apply consistent_after_request. exact H1.
  - unfold assessCheckout.
    destruct (getprop o "totalAmount") as [totalAmount|e]; [|exact H].
    match goal with
    | |- context [collectRiskData env ?a ?d this] =>
        pose proof (consistent_after_collection env a d this H) as H1;
        destruct (collectRiskData env a d this) as [this1 riskData]
    end.
    apply consistent_after_request. exact H1.
Qed.

(** X23.  The counters of a browser SDK instance stay consistent with
    what it did.  From construction on and through any series of
    [collectRiskData], [sendToBackend], [assessLogin] and
    [assessCheckout] calls, whatever the page and the network do,
    [requestsCount] equals the number of [fetch] calls made, so no
    request is ever repeated, and [errorsCount] never exceeds the number
    of collections and requests. *)
Theorem browser_counters_stay_consistent net options sdk cs :
  IDRockSDK options = Done sdk ->
  consistent (calls net cs sdk).
Proof.
  intros Hnew.
  assert (H0 : consistent sdk).
  { unfold IDRockSDK in Hnew.
    destruct (getprop _ "apiEndpoint"); inversion Hnew; subst.
    unfold consistent. cbn. lia. }
  clear Hnew. revert sdk H0.
  induction cs as [|c rest IH]; intros sdk H0; cbn [calls]; [exact H0|].
  apply IH. apply consistent_after_call. exact H0.
Qed.

Lemma browser_counters_stay_consistent_witness :
  consistent
    (calls BrowserSample.backend_down
       [ CallLogin BrowserSample.bare_page (VStr "alice") VUndef;
         CallCheckout BrowserSample.page VUndef;
         CallSend (VObj []) VUndef ]
       BrowserSample.sdk).
Proof.
  apply (browser_counters_stay_consistent BrowserSample.backend_down
           (VObj [("retryAttempts", VNum 5)])).
  reflexivity.
Defined.

Lemma makeRequest_outcome net url payload this :
  snd (_makeRequest net url payload this)
  = match net (List.length (sent this)) with
    | Responded response => Done response
    | Rejects reason =>
        match getprop reason "name" with
        | Throw e => Fails (Native e)
        | Return name =>
            if Js.strict_eq name (VStr "AbortError")
            then Fails (NewError "Request timeout")
            else Fails (Value reason)
        end
    end.
Proof.
  unfold _makeRequest.
  destruct (net (List.length (sent this))) as [response|reason]; [reflexivity|].
  destruct (getprop reason "name") as [name|e]; [|reflexivity].
  destruct (Js.strict_eq name (VStr "AbortError")); reflexivity.
Qed.

(** X24.  [sendToBackend] makes one attempt.  It calls [fetch] exactly
    once, whatever [retryAttempts] is configured, and returns a value
    exactly when that one response has a 2xx status and a body that
    parses; a response with any other status is thrown as
    [HTTP <status>: <statusText>], and [errorsCount] goes up by one
    exactly when the call throws. *)
Theorem sendToBackend_makes_one_attempt net riskData endpoint this :
  let run := sendToBackend net riskData endpoint this in
  let reply := net (List.length (sent this)) in
  List.length (sent (fst run)) = S (List.length (sent this))
  /\ (forall result,
        snd run = Done result
        <-> exists response,
              reply = Responded response
              /\ ok response = true /\ json response = Done result)
  /\ (forall response,
        reply = Responded response -> ok response = false ->
        snd run = Fails (NewError ("HTTP " ++ Js.num_to_string (status response)
                                   ++ ": " ++ statusText response)))
  /\ errorsCount (stats (fst run))
     = errorsCount (stats this)
       + match snd run with Done _ => 0 | Fails _ => 1 end.
Proof.
  cbv zeta.
  destruct (sendToBackend_effect net riskData endpoint this) as (_ & Hsent & _).
  cbv zeta in Hsent. split.
  { rewrite Hsent, length_app. cbn [List.length]. lia. }
  clear Hsent. unfold sendToBackend.
  match goal with
  | |- context [_makeRequest net ?u riskData ?c] =>
      pose proof (makeRequest_outcome net u riskData c) as Hout;
      destruct (makeRequest_effect net u riskData c) as (_ & Hs & _);
      destruct (_makeRequest net u riskData c) as [this1 attempt]
  end.
  cbn [fst snd with_stats sent stats] in *.
  destruct (net (List.length (sent this))) as [response|reason].
  - subst attempt. destruct (ok response) eqn:Hok; cbn [negb].
    + destruct (json response) as [result|t] eqn:Hjson;
        cbn [fst snd with_stats stats count_error errorsCount]; rewrite Hs;
        cbn [count_request errorsCount].
      * split; [|split; [|lia]].
        -- intros r. split.
           ++ intros H; inversion H; subst. exists response. auto.
           ++ intros (resp & Hr & _ & Hj). inversion Hr; subst.
              rewrite Hjson in Hj. exact Hj.
        -- intros resp Hr Hno. inversion Hr; subst. congruence.
      * split; [|split; [|lia]].
        -- intros r. split; [discriminate|].
           intros (resp & Hr & _ & Hj). inversion Hr; subst. congruence.
        -- intros resp Hr Hno. inversion Hr; subst. congruence.
    + cbn [fst snd with_stats stats count_error errorsCount]. rewrite Hs.
      cbn [count_request errorsCount].
      split; [|split; [|lia]].
      * intros r. split; [discriminate|].
        intros (resp & Hr & Hyes & _). inversion Hr; subst. congruence.
      * intros resp Hr _. inversion Hr; subst. reflexivity.
  - assert (Hf : exists t, attempt = Fails t).
    { rewrite Hout. destruct (getprop reason "name") as [name|e]; [|eauto].
      destruct (Js.strict_eq name (VStr "AbortError")); eauto. }
    destruct Hf as [t ->].
    cbn [fst snd with_stats stats count_error errorsCount]. rewrite Hs.
    cbn [count_request errorsCount].
    split; [|split; [|lia]].
    + intros r. split; [discriminate|]. intros (resp & Hr & _). discriminate.
    + intros resp Hr. discriminate.
Qed.

(** X25.  [assessCheckout] reads [orderData.totalAmount] before anything
    else: called without order data it throws a [TypeError] and neither
    counts nor sends anything.  With order data it collects once and
    posts once to the checkout endpoint, with [item_count] defaulting
    to 1. *)
Theorem assessCheckout_needs_order_data net env orderData this :
  let run := assessCheckout net env orderData this in
  (nullish orderData = true ->
   fst run = this /\ exists m, snd run = Fails (Native (TypeError m)))
  /\ (nullish orderData = false ->
      collectionsCount (stats (fst run)) = collectionsCount (stats this) + 1
      /\ requestsCount (stats (fst run)) = requestsCount (stats this) + 1
      /\ exists riskData,
           sent (fst run)
           = (sent this
              ++ [((Js.to_string (apiEndpoint (config this)) ++ "/checkout-assess")%string,
                   riskData)])%list
           /\ Js.optchain riskData "action_type" = VStr "checkout"
           /\ Js.optchain (Js.optchain riskData "additional_data") "item_count"
              = Js.either (Js.optchain orderData "itemCount") (VNum 1)).
Proof.
  cbv zeta. unfold assessCheckout. split.
  - intros Hn. destruct orderData; try discriminate Hn; cbn [getprop fst snd];
      (split; [reflexivity | eauto]).
  - intros Hn.
    assert (Hget : getprop orderData "totalAmount"
                   = Return (Js.optchain orderData "totalAmount"))
      by (destruct orderData; try reflexivity; discriminate Hn).
    rewrite Hget.
    match goal with
    | |- context [collectRiskData env ?a ?d this] =>
        destruct (collectRiskData_effect env a d this) as (Hc & Hs & Hcc & Hrc & _);
        assert (Hdata :
          Js.optchain (snd (collectRiskData env a d this)) "action_type" = a
          /\ Js.optchain (snd (collectRiskData env a d this)) "additional_data" = d);
        [|destruct (collectRiskData env a d this) as [this1 riskData]]
    end.
    { unfold collectRiskData.
      destruct (enableFingerprinting (config this));
        [destruct (Fingerprint.collect (components env) (fingerprintCollector this))|];
        (destruct (enableSessionTracking (config this));
         [destruct (session_data env)|]);
        split; reflexivity. }
    cbn [fst snd] in *.
    destruct (sendToBackend_effect net riskData (VStr "/checkout-assess") this1)
      as (_ & Hsent & Hcc' & Hrc' & _).
    cbv zeta in Hsent, Hcc', Hrc'. rewrite Hcc', Hrc', Hsent, Hc, Hs, Hcc, Hrc.
    split; [reflexivity|]. split; [reflexivity|].
    exists riskData. split; [reflexivity|].
    destruct Hdata as [Ha Hd]. rewrite Ha, Hd. split; reflexivity.
Qed.

(** X26.  Fallback data throws the fingerprint away.  When the session
    collector fails, [collectRiskData] still has run the fingerprint
    collector, which keeps its token, but the data it returns is flagged
    as fallback and carries the throwaway token made from the clock and
    a random number instead; the failure is counted as one error and is
    not thrown. *)
Theorem fallback_data_discards_the_fingerprint env actionType additionalData this t :
  enableFingerprinting (config this) = true ->
  enableSessionTracking (config this) = true ->
  session_data env = Fails t ->
  let run := collectRiskData env actionType additionalData this in
  Js.optchain (snd run) "fallback" = VBool true
  /\ Js.optchain (snd run) "device_fingerprint" = VStr (fallback_token env)
  /\ Fingerprint.fingerprintPromise (fingerprintCollector (fst run))
     = Some (snd (Fingerprint.collect (components env) (fingerprintCollector this)))
  /\ errorsCount (stats (fst run)) = errorsCount (stats this) + 1.
Proof.
  intros Hfp Hst Hfail. cbv zeta. unfold collectRiskData.
  rewrite Hfp, Hst, Hfail.
  unfold Fingerprint.collect.
  destruct (Fingerprint.fingerprintPromise (fingerprintCollector this)) as [token|] eqn:Hmemo;
    cbn; rewrite ?Hmemo; repeat split; reflexivity.
Qed.

Lemma fallback_data_discards_the_fingerprint_witness :
  Js.optchain
    (snd (collectRiskData BrowserSample.bare_page (VStr "login") VUndef
            BrowserSample.sdk))
    "device_fingerprint"
  = VStr "fallback_1757332800000_k3j9x0q2a".
Proof.
  refine (proj1 (proj2 (fallback_data_discards_the_fingerprint
                          BrowserSample.bare_page (VStr "login") VUndef
                          BrowserSample.sdk
                          (Native (TypeError "matchMedia is not a function"))
                          _ _ _))); reflexivity.
Defined.

End BrowserFacts.

(* ===================================================================== *)
(** ** The routes *)
(* ===================================================================== *)

Lemma verdict_flags_exclusive level :
  let allow := Js.strict_eq level (VStr "ALLOW") in
  let review := Js.strict_eq level (VStr "REVIEW") in
  let deny := Js.strict_eq level (VStr "DENY") in
  allow && review = false /\ allow && deny = false /\ review && deny = false.
Proof.
  destruct level as [| |b|n|s|items|fields]; cbn [Js.strict_eq andb]; auto.
  destruct (s =? "ALLOW")%string eqn:Ea; [apply String.eqb_eq in Ea; subst; auto|].
  destruct (s =? "REVIEW")%string eqn:Er; [apply String.eqb_eq in Er; subst; auto|].
  auto.
Qed.

(** X27.  What [POST /api/security/login-assess] can answer.  With the
    integration enabled it answers only when the client returned an
    assessment: 200 with that assessment and at most one of the flags
    [proceed], [require_additional_auth] and [block] set, or 500 when
    the recommendations cannot be mapped; when the client fails, the
    request is left unanswered by the [ReferenceError] of the middleware,
    so a fallback assessment is never served.  With the integration
    disabled and nothing on the request, it always answers 500, because
    the handler reads [risk_level] of [undefined]. *)
Theorem login_assess_endpoint_outcomes server idrock amb req w :
  annotation "idrockAssessment" req = VUndef ->
  let outcome := snd (login_assess_endpoint server idrock amb req w) in
  if Config.integration_enabled idrock then
    match snd (assess server idrock (assessRisk_userData "login" req) w) with
    | Throw _ => outcome = Unhandled (ReferenceError "userData")
    | Return a =>
        match reasons_or_none a with
        | Throw error =>
            outcome = Respond 500 (VObj [ ("error", VStr "Login assessment failed");
                                          ("message", VStr (error_message error)) ])
        | Return reasons =>
            exists payload flags proceed review block,
              outcome = Respond 200 payload
              /\ Js.optchain payload "assessment" = a
              /\ Js.optchain payload "recommendations" = flags
              /\ Js.optchain flags "proceed" = VBool proceed
              /\ Js.optchain flags "require_additional_auth" = VBool review
              /\ Js.optchain flags "block" = VBool block
              /\ Js.optchain flags "reasons" = reasons
              /\ proceed && review = false /\ proceed && block = false
              /\ review && block = false
        end
    end
  else
    outcome
    = Respond 500 (VObj [ ("error", VStr "Login assessment failed");
                          ("message",
                           VStr "Cannot read properties of undefined (reading 'risk_level')") ]).
Proof.
  intros Hfresh. cbv zeta. unfold login_assess_endpoint, assessRisk, assessRisk_try.
  destruct (Config.integration_enabled idrock) eqn:Hon; simpl negb; cbv iota.
  - destruct (assess server idrock (assessRisk_userData "login" req) w)
      as [w1 [a|e]] eqn:Hassess; cbn [snd mounted].
    + unfold login_assess_handler.
      rewrite !annotation_other by reflexivity. rewrite annotation_same.
      rewrite (assess_defined _ _ _ _ _ _ Hassess).
      destruct (reasons_or_none a) as [reasons|error]; [|reflexivity].
      destruct (verdict_flags_exclusive (Js.optchain a "risk_level")) as (H1 & H2 & H3).
      do 5 eexists. split; [reflexivity|].
      cbn [Js.optchain Js.lookup String.eqb Ascii.eqb Bool.eqb].
      repeat split; assumption.
    + reflexivity.
  - cbn [snd mounted]. unfold login_assess_handler. rewrite Hfresh. reflexivity.
Qed.

Lemma login_assess_endpoint_outcomes_witness :
  snd (login_assess_endpoint Sample.unreachable (Config.idrockConfig false)
         Sample.ambient (Sample.request "alice" "10.1.2.3") fresh_world)
  = Respond 500 (VObj [ ("error", VStr "Login assessment failed");
                        ("message",
                         VStr "Cannot read properties of undefined (reading 'risk_level')") ]).
Proof.
  apply (login_assess_endpoint_outcomes Sample.unreachable (Config.idrockConfig false)
           Sample.ambient (Sample.request "alice" "10.1.2.3") fresh_world).
  reflexivity.
Defined.

(** X28.  [POST /api/orders/checkout] confirms an order only on a clean
    verdict.  With the integration enabled, an answer that confirms the
    order implies that the validators found nothing, that the client
    returned an assessment whose [risk_level] is neither DENY nor
    REVIEW, and that this assessment was written to the audit log as
    the one new row.  No order is confirmed on a fallback assessment, on
    a failure of the service or of the audit store, or on a blocked or
    flagged verdict. *)
Theorem order_confirmed_only_on_clean_verdict
        server idrock amb store validationResult order_id req w :
  Config.integration_enabled idrock = true ->
  let run := checkout_endpoint server idrock amb store validationResult order_id req w in
  confirmed (snd run) ->
  exists w1 a row,
    assess server idrock (_extractCheckoutUserData amb req) w = (w1, Return a)
    /\ Js.strict_eq (Js.optchain a "risk_level") (VStr "DENY") = false
    /\ Js.strict_eq (Js.optchain a "risk_level") (VStr "REVIEW") = false
    /\ audit (fst run) = (audit w ++ [row])%list
    /\ is_risk_assessment row = true
    /\ correlation_id row = Js.either (Js.optchain a "request_id") VNull.
Proof.
  intros Hon run. subst run.
  unfold checkout_endpoint, protectCheckout, protectCheckout_try.
  rewrite Hon. simpl negb. cbv iota.
  pose proof (verifyIdentity_audit server idrock (idrockClient idrock)
                (_extractCheckoutUserData amb req) w) as Haud.
  fold (assess server idrock (_extractCheckoutUserData amb req) w) in Haud.
  destruct (assess server idrock (_extractCheckoutUserData amb req) w)
    as [w1 [a|e]] eqn:Hassess; cbn [fst] in Haud.
  2: { unfold protectCheckout_catch, verification_required.
       destruct (Config.enabled (Config.risk_fallback idrock)); cbn [mounted snd].
       - unfold checkout_handler.
         destruct (validationResult _); cbn [negb];
           [|intros (p & H & _); discriminate H].
         rewrite annotation_other by reflexivity. rewrite annotation_same.
         cbn [Js.truthy]. intros (p & H & _); discriminate H.
       - intros (p & H & _); discriminate H. }
  rewrite (assess_defined _ _ _ _ _ _ Hassess).
  unfold logRiskAssessment, create.
  match goal with
  | |- context [store (audit w1) ?r] => destruct (store (audit w1) r) eqn:Hstore
  end.
  2: { unfold protectCheckout_catch, verification_required.
       destruct (Config.enabled (Config.risk_fallback idrock)); cbn [mounted snd].
       - unfold checkout_handler.
         destruct (validationResult _); cbn [negb];
           [|intros (p & H & _); discriminate H].
         rewrite annotation_other by reflexivity. rewrite annotation_same.
         cbn [Js.truthy]. intros (p & H & _); discriminate H.
       - intros (p & H & _); discriminate H. }
  destruct (Js.strict_eq (Js.optchain a "risk_level") (VStr "DENY")) eqn:Hdeny.
  { match goal with
    | |- context [logCheckoutAttempt amb store ?d ?w2] =>
        destruct (logCheckoutAttempt amb store d w2) as [w3 [r|failure]]
    end; cbn [mounted snd].
    - intros (p & H & _); discriminate H.
    - unfold protectCheckout_catch, verification_required.
      destruct (Config.enabled (Config.risk_fallback idrock)); cbn [mounted snd].
      + unfold checkout_handler.
        destruct (validationResult _); cbn [negb];
          [|intros (p & H & _); discriminate H].
        rewrite annotation_other by reflexivity. rewrite annotation_same.
        cbn [Js.truthy]. intros (p & H & _); discriminate H.
      + intros (p & H & _); discriminate H. }
  destruct (Js.strict_eq (Js.optchain a "risk_level") (VStr "REVIEW")) eqn:Hreview.
  { destruct (map_messages (Js.optchain a "recommendations")) as [reasons|failure];
      cbn [mounted snd fst].
    - unfold checkout_handler.
      destruct (validationResult _); cbn [negb];
        [|intros (p & H & _); discriminate H].
      rewrite annotation_other by reflexivity. rewrite annotation_same.
      cbn [Js.truthy]. intros (p & H & _); discriminate H.
    - unfold protectCheckout_catch, verification_required.
      destruct (Config.enabled (Config.risk_fallback idrock)); cbn [mounted snd].
      + unfold checkout_handler.
        destruct (validationResult _); cbn [negb];
          [|intros (p & H & _); discriminate H].
        rewrite annotation_other by reflexivity. rewrite annotation_same.
        cbn [Js.truthy]. intros (p & H & _); discriminate H.
      + intros (p & H & _); discriminate H. }
  cbn [mounted snd fst audit]. intros _.
  do 3 eexists. split; [reflexivity|].
  split; [exact Hdeny|]. split; [exact Hreview|].
  rewrite Haud. split; [reflexivity|]. split; reflexivity.
Qed.

Lemma order_confirmed_only_on_clean_verdict_witness :
  exists a,
    snd (assess (Sample.answers (Sample.assessment "ALLOW" 92)) Sample.config
           (_extractCheckoutUserData Sample.ambient
              (Sample.request "alice" "45.76.97.227")) fresh_world)
    = Return a
    /\ Js.strict_eq (Js.optchain a "risk_level") (VStr "DENY") = false.
Proof.
  destruct (order_confirmed_only_on_clean_verdict
              (Sample.answers (Sample.assessment "ALLOW" 92)) Sample.config
              Sample.ambient Sample.store_ok (fun _ => []) "order_1757332800000_k3j9x0q2a"
              (Sample.request "alice" "45.76.97.227") fresh_world)
    as (w1 & a & row & Hassess & Hdeny & _).
  - reflexivity.
  - eexists. split; [vm_compute; reflexivity | reflexivity].
  - exists a. rewrite Hassess. split; [reflexivity | exact Hdeny].
Defined.

(* ===================================================================== *)
(** ** Object spread in the contexts *)
(* ===================================================================== *)

Lemma spread_keeps fields : forall base k,
  (forall v, ~ In (k, v) fields) ->
  Js.lookup k (Js.spread base (VObj fields)) = Js.lookup k base.
Proof.
  unfold Js.spread.
  induction fields as [|[k1 v1] rest IH]; intros base k Hno; [reflexivity|].
  cbn [fold_left fst snd]. rewrite IH.
  - apply lookup_assign_other. destruct (k =? k1)%string eqn:E; [|reflexivity].
    apply String.eqb_eq in E. subst k1. exfalso. apply (Hno v1). left. reflexivity.
  - intros v Hin. apply (Hno v). right. exact Hin.
Qed.

Lemma spread_overrides fields : forall base k v0,
  In (k, v0) fields ->
  exists v, In (k, v) fields /\ Js.lookup k (Js.spread base (VObj fields)) = v.
Proof.
  induction fields as [|[k1 v1] rest IH]; intros base k v0 Hin; [destruct Hin|].
  assert (Hdec : (exists v, In (k, v) rest) \/ (forall v, ~ In (k, v) rest)).
  { clear. induction rest as [|[k2 v2] rest IH]; [right; intros v []|].
    destruct IH as [[v Hv] | Hno]; [left; exists v; right; exact Hv|].
    destruct (String.eqb_spec k k2) as [->|Hne].
    - left. exists v2. left. reflexivity.
    - right. intros v [H | H]; [inversion H; congruence | exact (Hno v H)]. }
  destruct Hdec as [[v Hv] | Hno].
  - destruct (IH (Js.assign k1 v1 base) k v Hv) as (v' & Hin' & Hl).
    exists v'. split; [right; exact Hin' | exact Hl].
  - destruct Hin as [Heq | Hin]; [|exfalso; exact (Hno v0 Hin)].
    inversion Heq; subst k1 v1. exists v0. split; [left; reflexivity|].
    change (Js.spread base (VObj ((k, v0) :: rest)))
      with (Js.spread (Js.assign k v0 base) (VObj rest)).
    rewrite (spread_keeps rest _ k Hno). apply lookup_assign_same.
Qed.

(** X29.  The body of the request has the last word on the context sent
    to the service.  [additionalData] is spread after the fields the
    middleware sets itself, so every key it carries replaces the
    middleware's value, [loginAttempt], [checkoutAttempt] and
    [timestamp] included, in the login and in the checkout context
    alike; keys it does not carry keep the middleware's value. *)
Theorem body_overrides_context_fields amb req fields k :
  Js.lookup "additionalData" (body req) = VObj fields ->
  let login := Js.lookup "additionalContext" (_extractLoginUserData amb req) in
  let checkout := Js.lookup "additionalContext" (_extractCheckoutUserData amb req) in
  ((exists v0, In (k, v0) fields) ->
   exists v v', In (k, v) fields /\ Js.optchain login k = v
                /\ In (k, v') fields /\ Js.optchain checkout k = v')
  /\ ((forall v, ~ In (k, v) fields) ->
      Js.optchain login k
      = Js.lookup k [ ("loginAttempt", VBool true); ("timestamp", VStr (now_iso amb)) ]
      /\ Js.optchain checkout k
         = Js.lookup k [ ("checkoutAttempt", VBool true);
                         ("paymentMethod", Js.lookup "paymentMethod" (body req));
                         ("itemCount",
                          Js.either (Js.lookup "itemCount" (body req)) (VNum 1));
                         ("timestamp", VStr (now_iso amb)) ]).
Proof.
  intros Hdata. cbv zeta. unfold _extractLoginUserData, _extractCheckoutUserData.
  cbn [Js.lookup String.eqb Ascii.eqb Bool.eqb Js.optchain]. rewrite Hdata. split.
  - intros [v0 Hin].
    destruct (spread_overrides fields
                [ ("loginAttempt", VBool true); ("timestamp", VStr (now_iso amb)) ]
                k v0 Hin) as (v & Hv & Hl).
    destruct (spread_overrides fields
                [ ("checkoutAttempt", VBool true);
                  ("paymentMethod", Js.lookup "paymentMethod" (body req));
                  ("itemCount", Js.either (Js.lookup "itemCount" (body req)) (VNum 1));
                  ("timestamp", VStr (now_iso amb)) ]
                k v0 Hin) as (v' & Hv' & Hl').
    exists v, v'. auto.
  - intros Hno. split; apply spread_keeps; exact Hno.
Qed.

Lemma body_overrides_context_fields_witness :
  Js.optchain
    (Js.lookup "additionalContext"
       (_extractLoginUserData Sample.ambient
          {| body := [ ("username", VStr "alice");
                       ("additionalData", VObj [("loginAttempt", VBool false)]) ];
             user := VUndef; ip := VStr "10.1.2.3";
             connection_remoteAddress := VUndef; socket_remoteAddress := VUndef;
             connection_socket := VUndef; user_agent := VStr "Mozilla/5.0";
             annotations := [] |}))
    "timestamp"
  = VStr "2025-09-08T12:00:00.000Z".
Proof.
  refine (proj1 (proj2 (body_overrides_context_fields Sample.ambient
                          {| body := [ ("username", VStr "alice");
                                       ("additionalData",
                                        VObj [("loginAttempt", VBool false)]) ];
                             user := VUndef; ip := VStr "10.1.2.3";
                             connection_remoteAddress := VUndef;
                             socket_remoteAddress := VUndef;
                             connection_socket := VUndef;
                             user_agent := VStr "Mozilla/5.0";
                             annotations := [] |}
                          [("loginAttempt", VBool false)] "timestamp" eq_refl) _)).
  intros v [H | []]. discriminate H.
Defined.
